(** * Verification of the etoro-scraper extraction layer

    A shallow embedding of the three page extractors
    ([stock_parser.py], [investor_parser.py], [post_parser.py]) and of
    [normalize_record] from [main.py], together with the parts of the
    Python runtime and of the libraries they call: [str] methods, [int] and
    [float] conversion, the [re] module, [datetime.strptime] and
    [isoformat], and BeautifulSoup's tree queries.

    Text is a list of Unicode code points, as a Python [str] is.  A page is
    the tree BeautifulSoup builds from the HTML; the HTML parser itself is
    not modelled, the extractors are functions of the tree. *)

From Stdlib Require Import ZArith NArith List Bool Lia String Ascii.
From stdpp Require Import base option list gmap.
Import ListNotations.

Set Default Proof Using "Type".
Set Warnings "-register-all".
Local Open Scope N_scope.

(** ** Python text *)

Module Py.

Abbreviation char := N.
Abbreviation str := (list N).

(** UTF-8 decoding of a literal of this file into code points. *)
Fixpoint utf8_decode (bs : list N) : str :=
  match bs with
  | [] => []
  | b0 :: r0 =>
    if b0 <? 128 then b0 :: utf8_decode r0
    else
      match r0 with
      | [] => []
      | b1 :: r1 =>
        if b0 <? 224 then ((b0 - 192) * 64 + (b1 - 128)) :: utf8_decode r1
        else
          match r1 with
          | [] => []
          | b2 :: r2 =>
            if b0 <? 240
            then ((b0 - 224) * 4096 + (b1 - 128) * 64 + (b2 - 128)) :: utf8_decode r2
            else
              match r2 with
              | [] => []
              | b3 :: r3 =>
                ((b0 - 240) * 262144 + (b1 - 128) * 4096 + (b2 - 128) * 64 + (b3 - 128))
                  :: utf8_decode r3
              end
          end
      end
  end.

Definition utf8 (s : string) : str :=
  utf8_decode (List.map N_of_ascii (list_ascii_of_string s)).

Definition ch (a : ascii) : char := N_of_ascii a.

Fixpoint str_eqb (a b : str) : bool :=
  match a, b with
  | [], [] => true
  | x :: a', y :: b' => (x =? y) && str_eqb a' b'
  | _, _ => false
  end.

Definition in_ranges (c : char) (tbl : list (N * N)) : bool :=
  existsb (fun r => (fst r <=? c) && (c <=? snd r)) tbl.

(** The Unicode character database as CPython consults it (Unicode 14.0,
    the tables of CPython 3.11). *)

(** White_Space and the bidirectional types WS, B, S: [str.isspace],
    [str.strip], [str.split()] and the regex class [\s]. *)
Definition space_ranges : list (N * N) :=
  [ (9, 13); (28, 32); (133, 133); (160, 160); (5760, 5760); (8192, 8202);
    (8232, 8233); (8239, 8239); (8287, 8287); (12288, 12288) ].

(** General category Nd: [str.isdecimal], the regex class [\d], and the
    digits [int] and [float] accept.  Every block starts at a zero and runs
    through whole decades. *)
Definition decimal_ranges : list (N * N) :=
[
  (48, 57); (1632, 1641); (1776, 1785); (1984, 1993); (2406, 2415); (2534, 2543);
  (2662, 2671); (2790, 2799); (2918, 2927); (3046, 3055); (3174, 3183); (3302, 3311);
  (3430, 3439); (3558, 3567); (3664, 3673); (3792, 3801); (3872, 3881); (4160, 4169);
  (4240, 4249); (6112, 6121); (6160, 6169); (6470, 6479); (6608, 6617); (6784, 6793);
  (6800, 6809); (6992, 7001); (7088, 7097); (7232, 7241); (7248, 7257); (42528, 42537);
  (43216, 43225); (43264, 43273); (43472, 43481); (43504, 43513); (43600, 43609); (44016, 44025);
  (65296, 65305); (66720, 66729); (68912, 68921); (69734, 69743); (69872, 69881); (69942, 69951);
  (70096, 70105); (70384, 70393); (70736, 70745); (70864, 70873); (71248, 71257); (71360, 71369);
  (71472, 71481); (71904, 71913); (72016, 72025); (72784, 72793); (73040, 73049); (73120, 73129);
  (92768, 92777); (92864, 92873); (93008, 93017); (120782, 120831); (123200, 123209); (123632, 123641);
  (125264, 125273); (130032, 130041) ].

(** Numeric_Type=Digit outside Nd (superscripts, circled digits, ...):
    [str.isdigit] holds of them, [int] rejects them. *)
Definition other_digit_ranges : list (N * N) :=
[
  (178, 179); (185, 185); (4969, 4977); (6618, 6618); (8304, 8304); (8308, 8313);
  (8320, 8329); (9312, 9320); (9332, 9340); (9352, 9360); (9450, 9450); (9461, 9469);
  (9471, 9471); (10102, 10110); (10112, 10120); (10122, 10130); (68160, 68163); (69216, 69224);
  (69714, 69722); (127232, 127242) ].

(** Alphanumeric code points above ASCII ([str.isalnum]), for the regex
    class [\w]. *)
Definition alnum_ranges : list (N * N) :=
[
  (170, 170); (178, 179); (181, 181); (185, 186); (188, 190); (192, 214); (216, 246);
  (248, 705); (710, 721); (736, 740); (748, 748); (750, 750); (880, 884); (886, 887);
  (890, 893); (895, 895); (902, 902); (904, 906); (908, 908); (910, 929); (931, 1013);
  (1015, 1153); (1162, 1327); (1329, 1366); (1369, 1369); (1376, 1416); (1488, 1514); (1519, 1522);
  (1568, 1610); (1632, 1641); (1646, 1647); (1649, 1747); (1749, 1749); (1765, 1766); (1774, 1788);
  (1791, 1791); (1808, 1808); (1810, 1839); (1869, 1957); (1969, 1969); (1984, 2026); (2036, 2037);
  (2042, 2042); (2048, 2069); (2074, 2074); (2084, 2084); (2088, 2088); (2112, 2136); (2144, 2154);
  (2160, 2183); (2185, 2190); (2208, 2249); (2308, 2361); (2365, 2365); (2384, 2384); (2392, 2401);
  (2406, 2415); (2417, 2432); (2437, 2444); (2447, 2448); (2451, 2472); (2474, 2480); (2482, 2482);
  (2486, 2489); (2493, 2493); (2510, 2510); (2524, 2525); (2527, 2529); (2534, 2545); (2548, 2553);
  (2556, 2556); (2565, 2570); (2575, 2576); (2579, 2600); (2602, 2608); (2610, 2611); (2613, 2614);
  (2616, 2617); (2649, 2652); (2654, 2654); (2662, 2671); (2674, 2676); (2693, 2701); (2703, 2705);
  (2707, 2728); (2730, 2736); (2738, 2739); (2741, 2745); (2749, 2749); (2768, 2768); (2784, 2785);
  (2790, 2799); (2809, 2809); (2821, 2828); (2831, 2832); (2835, 2856); (2858, 2864); (2866, 2867);
  (2869, 2873); (2877, 2877); (2908, 2909); (2911, 2913); (2918, 2927); (2929, 2935); (2947, 2947);
  (2949, 2954); (2958, 2960); (2962, 2965); (2969, 2970); (2972, 2972); (2974, 2975); (2979, 2980);
  (2984, 2986); (2990, 3001); (3024, 3024); (3046, 3058); (3077, 3084); (3086, 3088); (3090, 3112);
  (3114, 3129); (3133, 3133); (3160, 3162); (3165, 3165); (3168, 3169); (3174, 3183); (3192, 3198);
  (3200, 3200); (3205, 3212); (3214, 3216); (3218, 3240); (3242, 3251); (3253, 3257); (3261, 3261);
  (3293, 3294); (3296, 3297); (3302, 3311); (3313, 3314); (3332, 3340); (3342, 3344); (3346, 3386);
  (3389, 3389); (3406, 3406); (3412, 3414); (3416, 3425); (3430, 3448); (3450, 3455); (3461, 3478);
  (3482, 3505); (3507, 3515); (3517, 3517); (3520, 3526); (3558, 3567); (3585, 3632); (3634, 3635);
  (3648, 3654); (3664, 3673); (3713, 3714); (3716, 3716); (3718, 3722); (3724, 3747); (3749, 3749);
  (3751, 3760); (3762, 3763); (3773, 3773); (3776, 3780); (3782, 3782); (3792, 3801); (3804, 3807);
  (3840, 3840); (3872, 3891); (3904, 3911); (3913, 3948); (3976, 3980); (4096, 4138); (4159, 4169);
  (4176, 4181); (4186, 4189); (4193, 4193); (4197, 4198); (4206, 4208); (4213, 4225); (4238, 4238);
  (4240, 4249); (4256, 4293); (4295, 4295); (4301, 4301); (4304, 4346); (4348, 4680); (4682, 4685);
  (4688, 4694); (4696, 4696); (4698, 4701); (4704, 4744); (4746, 4749); (4752, 4784); (4786, 4789);
  (4792, 4798); (4800, 4800); (4802, 4805); (4808, 4822); (4824, 4880); (4882, 4885); (4888, 4954);
  (4969, 4988); (4992, 5007); (5024, 5109); (5112, 5117); (5121, 5740); (5743, 5759); (5761, 5786);
  (5792, 5866); (5870, 5880); (5888, 5905); (5919, 5937); (5952, 5969); (5984, 5996); (5998, 6000);
  (6016, 6067); (6103, 6103); (6108, 6108); (6112, 6121); (6128, 6137); (6160, 6169); (6176, 6264);
  (6272, 6276); (6279, 6312); (6314, 6314); (6320, 6389); (6400, 6430); (6470, 6509); (6512, 6516);
  (6528, 6571); (6576, 6601); (6608, 6618); (6656, 6678); (6688, 6740); (6784, 6793); (6800, 6809);
  (6823, 6823); (6917, 6963); (6981, 6988); (6992, 7001); (7043, 7072); (7086, 7141); (7168, 7203);
  (7232, 7241); (7245, 7293); (7296, 7304); (7312, 7354); (7357, 7359); (7401, 7404); (7406, 7411);
  (7413, 7414); (7418, 7418); (7424, 7615); (7680, 7957); (7960, 7965); (7968, 8005); (8008, 8013);
  (8016, 8023); (8025, 8025); (8027, 8027); (8029, 8029); (8031, 8061); (8064, 8116); (8118, 8124);
  (8126, 8126); (8130, 8132); (8134, 8140); (8144, 8147); (8150, 8155); (8160, 8172); (8178, 8180);
  (8182, 8188); (8304, 8305); (8308, 8313); (8319, 8329); (8336, 8348); (8450, 8450); (8455, 8455);
  (8458, 8467); (8469, 8469); (8473, 8477); (8484, 8484); (8486, 8486); (8488, 8488); (8490, 8493);
  (8495, 8505); (8508, 8511); (8517, 8521); (8526, 8526); (8528, 8585); (9312, 9371); (9450, 9471);
  (10102, 10131); (11264, 11492); (11499, 11502); (11506, 11507); (11517, 11517); (11520, 11557); (11559, 11559);
  (11565, 11565); (11568, 11623); (11631, 11631); (11648, 11670); (11680, 11686); (11688, 11694); (11696, 11702);
  (11704, 11710); (11712, 11718); (11720, 11726); (11728, 11734); (11736, 11742); (11823, 11823); (12293, 12295);
  (12321, 12329); (12337, 12341); (12344, 12348); (12353, 12438); (12445, 12447); (12449, 12538); (12540, 12543);
  (12549, 12591); (12593, 12686); (12690, 12693); (12704, 12735); (12784, 12799); (12832, 12841); (12872, 12879);
  (12881, 12895); (12928, 12937); (12977, 12991); (13312, 19903); (19968, 42124); (42192, 42237); (42240, 42508);
  (42512, 42539); (42560, 42606); (42623, 42653); (42656, 42735); (42775, 42783); (42786, 42888); (42891, 42954);
  (42960, 42961); (42963, 42963); (42965, 42969); (42994, 43009); (43011, 43013); (43015, 43018); (43020, 43042);
  (43056, 43061); (43072, 43123); (43138, 43187); (43216, 43225); (43250, 43255); (43259, 43259); (43261, 43262);
  (43264, 43301); (43312, 43334); (43360, 43388); (43396, 43442); (43471, 43481); (43488, 43492); (43494, 43518);
  (43520, 43560); (43584, 43586); (43588, 43595); (43600, 43609); (43616, 43638); (43642, 43642); (43646, 43695);
  (43697, 43697); (43701, 43702); (43705, 43709); (43712, 43712); (43714, 43714); (43739, 43741); (43744, 43754);
  (43762, 43764); (43777, 43782); (43785, 43790); (43793, 43798); (43808, 43814); (43816, 43822); (43824, 43866);
  (43868, 43881); (43888, 44002); (44016, 44025); (44032, 55203); (55216, 55238); (55243, 55291); (63744, 64109);
  (64112, 64217); (64256, 64262); (64275, 64279); (64285, 64285); (64287, 64296); (64298, 64310); (64312, 64316);
  (64318, 64318); (64320, 64321); (64323, 64324); (64326, 64433); (64467, 64829); (64848, 64911); (64914, 64967);
  (65008, 65019); (65136, 65140); (65142, 65276); (65296, 65305); (65313, 65338); (65345, 65370); (65382, 65470);
  (65474, 65479); (65482, 65487); (65490, 65495); (65498, 65500); (65536, 65547); (65549, 65574); (65576, 65594);
  (65596, 65597); (65599, 65613); (65616, 65629); (65664, 65786); (65799, 65843); (65856, 65912); (65930, 65931);
  (66176, 66204); (66208, 66256); (66273, 66299); (66304, 66339); (66349, 66378); (66384, 66421); (66432, 66461);
  (66464, 66499); (66504, 66511); (66513, 66517); (66560, 66717); (66720, 66729); (66736, 66771); (66776, 66811);
  (66816, 66855); (66864, 66915); (66928, 66938); (66940, 66954); (66956, 66962); (66964, 66965); (66967, 66977);
  (66979, 66993); (66995, 67001); (67003, 67004); (67072, 67382); (67392, 67413); (67424, 67431); (67456, 67461);
  (67463, 67504); (67506, 67514); (67584, 67589); (67592, 67592); (67594, 67637); (67639, 67640); (67644, 67644);
  (67647, 67669); (67672, 67702); (67705, 67742); (67751, 67759); (67808, 67826); (67828, 67829); (67835, 67867);
  (67872, 67897); (67968, 68023); (68028, 68047); (68050, 68096); (68112, 68115); (68117, 68119); (68121, 68149);
  (68160, 68168); (68192, 68222); (68224, 68255); (68288, 68295); (68297, 68324); (68331, 68335); (68352, 68405);
  (68416, 68437); (68440, 68466); (68472, 68497); (68521, 68527); (68608, 68680); (68736, 68786); (68800, 68850);
  (68858, 68899); (68912, 68921); (69216, 69246); (69248, 69289); (69296, 69297); (69376, 69415); (69424, 69445);
  (69457, 69460); (69488, 69505); (69552, 69579); (69600, 69622); (69635, 69687); (69714, 69743); (69745, 69746);
  (69749, 69749); (69763, 69807); (69840, 69864); (69872, 69881); (69891, 69926); (69942, 69951); (69956, 69956);
  (69959, 69959); (69968, 70002); (70006, 70006); (70019, 70066); (70081, 70084); (70096, 70106); (70108, 70108);
  (70113, 70132); (70144, 70161); (70163, 70187); (70272, 70278); (70280, 70280); (70282, 70285); (70287, 70301);
  (70303, 70312); (70320, 70366); (70384, 70393); (70405, 70412); (70415, 70416); (70419, 70440); (70442, 70448);
  (70450, 70451); (70453, 70457); (70461, 70461); (70480, 70480); (70493, 70497); (70656, 70708); (70727, 70730);
  (70736, 70745); (70751, 70753); (70784, 70831); (70852, 70853); (70855, 70855); (70864, 70873); (71040, 71086);
  (71128, 71131); (71168, 71215); (71236, 71236); (71248, 71257); (71296, 71338); (71352, 71352); (71360, 71369);
  (71424, 71450); (71472, 71483); (71488, 71494); (71680, 71723); (71840, 71922); (71935, 71942); (71945, 71945);
  (71948, 71955); (71957, 71958); (71960, 71983); (71999, 71999); (72001, 72001); (72016, 72025); (72096, 72103);
  (72106, 72144); (72161, 72161); (72163, 72163); (72192, 72192); (72203, 72242); (72250, 72250); (72272, 72272);
  (72284, 72329); (72349, 72349); (72368, 72440); (72704, 72712); (72714, 72750); (72768, 72768); (72784, 72812);
  (72818, 72847); (72960, 72966); (72968, 72969); (72971, 73008); (73030, 73030); (73040, 73049); (73056, 73061);
  (73063, 73064); (73066, 73097); (73112, 73112); (73120, 73129); (73440, 73458); (73648, 73648); (73664, 73684);
  (73728, 74649); (74752, 74862); (74880, 75075); (77712, 77808); (77824, 78894); (82944, 83526); (92160, 92728);
  (92736, 92766); (92768, 92777); (92784, 92862); (92864, 92873); (92880, 92909); (92928, 92975); (92992, 92995);
  (93008, 93017); (93019, 93025); (93027, 93047); (93053, 93071); (93760, 93846); (93952, 94026); (94032, 94032);
  (94099, 94111); (94176, 94177); (94179, 94179); (94208, 100343); (100352, 101589); (101632, 101640); (110576, 110579);
  (110581, 110587); (110589, 110590); (110592, 110882); (110928, 110930); (110948, 110951); (110960, 111355); (113664, 113770);
  (113776, 113788); (113792, 113800); (113808, 113817); (119520, 119539); (119648, 119672); (119808, 119892); (119894, 119964);
  (119966, 119967); (119970, 119970); (119973, 119974); (119977, 119980); (119982, 119993); (119995, 119995); (119997, 120003);
  (120005, 120069); (120071, 120074); (120077, 120084); (120086, 120092); (120094, 120121); (120123, 120126); (120128, 120132);
  (120134, 120134); (120138, 120144); (120146, 120485); (120488, 120512); (120514, 120538); (120540, 120570); (120572, 120596);
  (120598, 120628); (120630, 120654); (120656, 120686); (120688, 120712); (120714, 120744); (120746, 120770); (120772, 120779);
  (120782, 120831); (122624, 122654); (123136, 123180); (123191, 123197); (123200, 123209); (123214, 123214); (123536, 123565);
  (123584, 123627); (123632, 123641); (124896, 124902); (124904, 124907); (124909, 124910); (124912, 124926); (124928, 125124);
  (125127, 125135); (125184, 125251); (125259, 125259); (125264, 125273); (126065, 126123); (126125, 126127); (126129, 126132);
  (126209, 126253); (126255, 126269); (126464, 126467); (126469, 126495); (126497, 126498); (126500, 126500); (126503, 126503);
  (126505, 126514); (126516, 126519); (126521, 126521); (126523, 126523); (126530, 126530); (126535, 126535); (126537, 126537);
  (126539, 126539); (126541, 126543); (126545, 126546); (126548, 126548); (126551, 126551); (126553, 126553); (126555, 126555);
  (126557, 126557); (126559, 126559); (126561, 126562); (126564, 126564); (126567, 126570); (126572, 126578); (126580, 126583);
  (126585, 126588); (126590, 126590); (126592, 126601); (126603, 126619); (126625, 126627); (126629, 126633); (126635, 126651);
  (127232, 127244); (130032, 130041); (131072, 173791); (173824, 177976); (177984, 178205); (178208, 183969); (183984, 191456);
  (194560, 195101); (196608, 201546) ].

(** No range of one table meets a range of the other. *)
Definition ranges_apart (t1 t2 : list (N * N)) : bool :=
  forallb (fun r1 => forallb (fun r2 => (snd r1 <? fst r2) || (snd r2 <? fst r1)) t2) t1.

Definition isspace (c : char) : bool := in_ranges c space_ranges.
Definition isdecimal (c : char) : bool := in_ranges c decimal_ranges.
Definition isdigit (c : char) : bool :=
  isdecimal c || in_ranges c other_digit_ranges.

(** Value of a decimal digit: its offset in its decade. *)
Definition decimal_value (c : char) : option Z :=
  match List.find (fun r => (fst r <=? c) && (c <=? snd r)) decimal_ranges with
  | Some r => Some (Z.of_N ((c - fst r) mod 10))
  | None => None
  end.

Definition is_ascii_alnum (c : char) : bool :=
  ((48 <=? c) && (c <=? 57)) || ((65 <=? c) && (c <=? 90)) || ((97 <=? c) && (c <=? 122)).

Definition isalnum (c : char) : bool :=
  is_ascii_alnum c || in_ranges c alnum_ranges.

Fixpoint take_while {A} (p : A -> bool) (l : list A) : list A :=
  match l with
  | x :: l' => if p x then x :: take_while p l' else []
  | [] => []
  end.

Fixpoint drop_while {A} (p : A -> bool) (l : list A) : list A :=
  match l with
  | x :: l' => if p x then drop_while p l' else l
  | [] => []
  end.

(** [str.lstrip()], [str.rstrip()], [str.strip()] *)
Definition lstrip (s : str) : str := drop_while isspace s.

Definition rstrip (s : str) : str := rev (lstrip (rev s)).
Definition strip (s : str) : str := rstrip (lstrip s).

Fixpoint startswith (p s : str) : bool :=
  match p, s with
  | [], _ => true
  | x :: p', y :: s' => (x =? y) && startswith p' s'
  | _ :: _, [] => false
  end.

(** [needle in s] *)
Fixpoint contains (needle s : str) : bool :=
  startswith needle s ||
  match s with
  | [] => false
  | _ :: s' => contains needle s'
  end.

(** [s.split(sep)] for a non-empty separator: [cur] is the current piece,
    reversed; [skip] counts the characters of a separator occurrence still
    to pass. *)
Fixpoint split_go (sep cur : str) (skip : nat) (s : str) : list str :=
  match s with
  | [] => [rev cur]
  | c :: s' =>
    match skip with
    | S k => split_go sep cur k s'
    | O =>
      if startswith sep s
      then rev cur :: split_go sep [] (length sep - 1) s'
      else split_go sep (c :: cur) 0 s'
    end
  end.

Definition split (sep s : str) : list str := split_go sep [] 0 s.

(** [s.split()]: the maximal runs of non-whitespace. *)
Fixpoint split_ws_go (cur : str) (s : str) : list str :=
  match s with
  | [] => match cur with [] => [] | _ => [rev cur] end
  | c :: s' =>
    if isspace c
    then match cur with [] => split_ws_go [] s' | _ => rev cur :: split_ws_go [] s' end
    else split_ws_go (c :: cur) s'
  end.

Definition split_ws (s : str) : list str := split_ws_go [] s.

(** [sep.join(pieces)] *)
Fixpoint join (sep : str) (pieces : list str) : str :=
  match pieces with
  | [] => []
  | [p] => p
  | p :: rest => p ++ sep ++ join sep rest
  end.

(** [s.replace(old, new)] for a non-empty [old]. *)
Fixpoint replace_go (old new : str) (skip : nat) (s : str) : str :=
  match s with
  | [] => []
  | c :: s' =>
    match skip with
    | S k => replace_go old new k s'
    | O =>
      if startswith old s
      then new ++ replace_go old new (length old - 1) s'
      else c :: replace_go old new 0 s'
    end
  end.

Definition replace (old new s : str) : str := replace_go old new 0 s.

(** The number a run of decimal digits writes, in any script and of any
    length, possibly inside whitespace; [None] when a character is no
    decimal digit (a superscript two, say) or nothing is left. *)
Fixpoint int_digits (acc : Z) (s : str) : option Z :=
  match s with
  | [] => Some acc
  | c :: s' =>
    match decimal_value c with
    | Some d => int_digits (acc * 10 + d)%Z s'
    | None => None
    end
  end.

Definition decimal_digits (s : str) : option Z :=
  match strip s with
  | [] => None
  | digits => int_digits 0%Z digits
  end.

(** [sys.get_int_max_str_digits()], as the interpreter starts: a string
    with more digits than this is refused by [int], leading zeros
    counted. *)
Definition int_max_str_digits : Z := 4300.

(** [int(s)] on the strings the program converts; [None] is [ValueError].
    A sign or an underscore, which [int] also reads, never reaches it from
    the regex groups or from a run of [isdigit] characters. *)
Definition int (s : str) : option Z :=
  if (int_max_str_digits <? Z.of_nat (length (strip s)))%Z then None
  else decimal_digits s.

(** A Python float read from a decimal literal is kept as that decimal:
    [mantissa * 10^(-scale)];  [float] rounds it to the nearest binary64. *)
Record decimal := Dec { mantissa : Z; scale : nat }.

(** [float(s)] on [[+-]?digits(.digits)?], the shape the return pattern
    captures; [None] is [ValueError]. *)
Definition float_body (neg : bool) (body : str) : option decimal :=
  let ip := take_while isdecimal body in
  let rest := drop_while isdecimal body in
  let sign := fun z : Z => if neg then (- z)%Z else z in
  match decimal_digits ip with
  | None => None
  | Some i =>
    match rest with
    | [] => Some (Dec (sign i) 0)
    | dot :: fp =>
      if dot =? 46 then
        match decimal_digits fp with
        | Some f => Some (Dec (sign (i * 10 ^ Z.of_nat (length fp) + f)%Z) (length fp))
        | None => None
        end
      else None
    end
  end.

Definition float (s : str) : option decimal :=
  match s with
  | c :: s' =>
    if c =? 45 then float_body true s'
    else if c =? 43 then float_body false s'
    else float_body false s
  | [] => None
  end.

(** Values, as far as the records hold them. *)
#[local] Unset Elimination Schemes.
Inductive val :=
| VNone
| VBool (b : bool)
| VInt (n : Z)
| VFloat (d : decimal)
| VStr (s : str)
| VList (l : list val)
| VDict (m : gmap str val).
#[local] Set Elimination Schemes.

Abbreviation dict := (gmap str val).

(** Truth value testing. *)
Definition truthy (v : val) : bool :=
  match v with
  | VNone => false
  | VBool b => b
  | VInt n => negb (n =? 0)%Z
  | VFloat d => negb (mantissa d =? 0)%Z
  | VStr s => match s with [] => false | _ => true end
  | VList l => match l with [] => false | _ => true end
  | VDict m => negb (bool_decide (m = ∅))
  end.

(** [a or b] *)
Definition or_ (a b : val) : val := if truthy a then a else b.

(** [d.get(k)] *)
Definition get (d : dict) (k : str) : val := default VNone (d !! k).

(** An [Optional[str]] as a value. *)
Definition of_opt_str (o : option str) : val :=
  match o with Some s => VStr s | None => VNone end.

End Py.

(** ** The [re] module

    Patterns are kept as syntax trees and run by a backtracking matcher
    with CPython's priorities: alternatives left to right, quantifiers
    greedy.  The patterns of this program repeat single characters only,
    so [Rep] takes a character class. *)

Module Re.
Import Py.

Inductive regex :=
| Eps
| Cls (p : char -> bool)
| Seq (r1 r2 : regex)
| Alt (r1 r2 : regex)
| Opt (r : regex)
| Rep (p : char -> bool) (lo : nat) (hi : option nat)
| Group (n : nat) (r : regex)
| WordB.

(** A position in the subject: the character just passed, the text still
    ahead, and the groups closed so far (most recent first). *)
Record pos := Pos { before : option char; ahead : str; groups : list (nat * str) }.

Definition start_of (s : str) : pos := Pos None s [].

Definition group (n : nat) (st : pos) : option str :=
  snd <$> List.find (fun g => Nat.eqb (fst g) n) (groups st).

(** The text passed between two positions of one run. *)
Definition consumed (st st' : pos) : str :=
  take (length (ahead st) - length (ahead st')) (ahead st).

(** [\w]: alphanumerics and the underscore. *)
Definition is_word (c : char) : bool := isalnum c || (c =? 95).

Definition word_opt (o : option char) : bool :=
  match o with Some c => is_word c | None => false end.

(** [\b] holds where exactly one neighbour is a word character. *)
Definition at_boundary (st : pos) : bool :=
  xorb (word_opt (before st)) (word_opt (head (ahead st))).

Definition can_take (hi : option nat) : bool :=
  match hi with Some O => false | _ => true end.

Section Matcher.
Context {A : Type}.

(** Greedy repetition of a class: take one more character when that lets
    the rest of the pattern succeed, else stop here if [lo] are taken. *)
Fixpoint rep_go (p : char -> bool) (lo : nat) (hi : option nat)
    (b : option char) (s : str) (gs : list (nat * str))
    (k : pos -> option A) : option A :=
  let stop := match lo with O => k (Pos b s gs) | S _ => None end in
  match s with
  | c :: s' =>
    if p c && can_take hi then
      match rep_go p (Nat.pred lo) (Nat.pred <$> hi) (Some c) s' gs k with
      | Some x => Some x
      | None => stop
      end
    else stop
  | [] => stop
  end.

Fixpoint rmatch (r : regex) (st : pos) (k : pos -> option A) : option A :=
  match r with
  | Eps => k st
  | Cls p =>
    match ahead st with
    | c :: s' => if p c then k (Pos (Some c) s' (groups st)) else None
    | [] => None
    end
  | Seq r1 r2 => rmatch r1 st (fun st1 => rmatch r2 st1 k)
  | Alt r1 r2 =>
    match rmatch r1 st k with
    | Some x => Some x
    | None => rmatch r2 st k
    end
  | Opt r1 =>
    match rmatch r1 st k with
    | Some x => Some x
    | None => k st
    end
  | Rep p lo hi => rep_go p lo hi (before st) (ahead st) (groups st) k
  | Group n r1 =>
    rmatch r1 st (fun st1 =>
      k (Pos (before st1) (ahead st1) ((n, consumed st st1) :: groups st1)))
  | WordB => if at_boundary st then k st else None
  end.

End Matcher.

(** [pattern.match]: a match starting at this position, as its end. *)
Definition match_at (r : regex) (st : pos) : option pos := rmatch r st Some.

(** [re.search]: the first start, left to right, that matches; the result
    is the text skipped, the matched text and the end position. *)
Fixpoint search_go (r : regex) (skipped : str) (b : option char) (s : str)
    : option (str * str * pos) :=
  match match_at r (Pos b s []) with
  | Some e => Some (rev skipped, consumed (Pos b s []) e, e)
  | None =>
    match s with
    | [] => None
    | c :: s' => search_go r (c :: skipped) (Some c) s'
    end
  end.

Definition search_from (r : regex) (b : option char) (s : str) := search_go r [] b s.
Definition search (r : regex) (s : str) := search_from r None s.

(** Successive non-overlapping matches, each with the text skipped before
    it, and the text left after the last one.  A match of no characters
    moves the scan on by one character; no pattern of this program matches
    the empty string. *)
Fixpoint scan (fuel : nat) (r : regex) (b : option char) (s : str)
    : list (str * str) * str :=
  match fuel with
  | O => ([], s)
  | S fuel' =>
    match search_from r b s with
    | None => ([], s)
    | Some (pre, m, e) =>
      match m, ahead e with
      | [], [] => ([(pre, m)], [])
      | [], c :: s' =>
        let '(ms, tl) := scan fuel' r (Some c) s' in
        match ms with
        | [] => ([(pre, [])], c :: tl)
        | (pre', m') :: ms' => ((pre, []) :: (c :: pre', m') :: ms', tl)
        end
      | _ :: _, _ =>
        let '(ms, tl) := scan fuel' r (before e) (ahead e) in
        ((pre, m) :: ms, tl)
      end
    end
  end.

(** [re.findall] for a pattern without groups. *)
Definition findall (r : regex) (s : str) : list str :=
  snd <$> fst (scan (S (length s)) r None s).

(** [re.split] for a pattern without groups. *)
Definition split (r : regex) (s : str) : list str :=
  let '(ms, tl) := scan (S (length s)) r None s in
  (fst <$> ms) ++ [tl].

(** Pattern syntax. *)

Definition is_ascii_letter (c : char) : bool :=
  ((65 <=? c) && (c <=? 90)) || ((97 <=? c) && (c <=? 122)).

Definition ascii_lower (c : char) : char :=
  if (65 <=? c) && (c <=? 90) then c + 32 else c.

(** A literal under [re.IGNORECASE]: both cases of an ASCII letter, and the
    three code points the Unicode case tables tie to [i], [s] and [k]
    (dotted capital and dotless small i, long s, the Kelvin sign). *)
Definition ieq (p x : char) : bool :=
  if is_ascii_letter p then
    let l := ascii_lower p in
    (x =? l) || (x =? l - 32)
    || ((l =? 105) && ((x =? 304) || (x =? 305)))
    || ((l =? 115) && (x =? 383))
    || ((l =? 107) && (x =? 8490))
  else x =? p.

Definition chr (a : ascii) : regex := Cls (fun x => x =? ch a).
Definition chr_i (a : ascii) : regex := Cls (ieq (ch a)).

Fixpoint seq_of (rs : list regex) : regex :=
  match rs with
  | [] => Eps
  | [r] => r
  | r :: rs' => Seq r (seq_of rs')
  end.

Fixpoint alt_of (rs : list regex) : regex :=
  match rs with
  | [] => Eps
  | [r] => r
  | r :: rs' => Alt r (alt_of rs')
  end.

Definition lit (s : string) : regex := seq_of (chr <$> list_ascii_of_string s).
Definition lit_i (s : string) : regex := seq_of (chr_i <$> list_ascii_of_string s).

Definition in_set (cs : string) (x : char) : bool :=
  existsb (fun a => x =? ch a) (list_ascii_of_string cs).
Definition range (lo hi : ascii) (x : char) : bool := (ch lo <=? x) && (x <=? ch hi).

Definition star (p : char -> bool) : regex := Rep p 0 None.
Definition plus (p : char -> bool) : regex := Rep p 1 None.
Definition digit : char -> bool := isdecimal.   (* \d *)
Definition space : char -> bool := isspace.     (* \s *)

End Re.

(** ** investor_parser.py: text heuristics *)

Module investor_text.
Import Py Re.

(** [r"risk\s*score\s*(\d+)"], [re.IGNORECASE] *)
Definition risk_score_re : regex :=
  seq_of [lit_i "risk"; star space; lit_i "score"; star space; Group 1 (plus digit)].

(** [r"risk[^0-9]*(\d+)\s*/\s*10"], [re.IGNORECASE] *)
Definition risk_ratio_re : regex :=
  seq_of [lit_i "risk"; star (fun x => negb (range "0" "9" x));
          Group 1 (plus digit); star space; chr "/"; star space; lit "10"].

(** [r"(?:12m|12\s*months|1y)[^0-9\-+]*([\-+]?\d+(?:\.\d+)?)\s*%"],
    [re.IGNORECASE] *)
Definition marker_re : regex :=
  alt_of [lit_i "12m"; seq_of [lit "12"; star space; lit_i "months"]; lit_i "1y"].

Definition is_sep (x : char) : bool := negb (range "0" "9" x || in_set "-+" x).

Definition number_re : regex :=
  seq_of [Opt (Cls (in_set "-+")); plus digit; Opt (seq_of [chr "."; plus digit])].

Definition return_12m_re : regex :=
  seq_of [marker_re; star is_sep; Group 1 number_re; star space; chr "%"].

(** [match.group(1)]; the group takes part in every match of the three
    patterns, so the conversions below always receive a string. *)
Definition group1 (m : str * str * pos) : str := default [] (group 1 (snd m)).

Definition _parse_risk_score (block_text : str) : option Z :=
  match block_text with
  | [] => None
  | _ =>
    match search risk_score_re block_text with
    | Some m => int (group1 m)
    | None =>
      match search risk_ratio_re block_text with
      | Some m => int (group1 m)
      | None => None
      end
    end
  end.

Definition _parse_return_12m (block_text : str) : option decimal :=
  match block_text with
  | [] => None
  | _ =>
    match search return_12m_re block_text with
    | Some m => float (group1 m)
    | None => None
    end
  end.

Definition _build_stats (block_text : str) : val :=
  let risk := _parse_risk_score block_text in
  let ret := _parse_return_12m block_text in
  let stats : dict := ∅ in
  let stats := match ret with Some r => <[utf8 "return_12m" := VFloat r]> stats | None => stats end in
  let stats := match risk with Some r => <[utf8 "risk_score" := VInt r]> stats | None => stats end in
  or_ (VDict stats) VNone.

End investor_text.

(** ** post_parser.py: text heuristics *)

Module post_text.
Import Py.

(** The loop of [_parse_likes]: [num] grows by the digits met; the first
    other character after a digit ends the loop. *)
Fixpoint likes_loop (num : str) (text : str) : str :=
  match text with
  | [] => num
  | c :: rest =>
    if isdigit c then likes_loop (num ++ [c]) rest
    else match num with
         | [] => likes_loop num rest
         | _ => num
         end
  end.

Definition _parse_likes (text : str) : option Z :=
  let text := strip text in
  match text with
  | [] => None
  | _ =>
    let num := likes_loop [] text in
    match num with
    | [] => None
    | _ => int num
    end
  end.

End post_text.

(** ** BeautifulSoup trees and queries *)

Module Bs4.
Import Py.

(** A parsed page.  [Text] is a [NavigableString]; [Comment] stands for
    the string kinds [get_text] leaves out (comments, declarations,
    processing instructions).  Attribute values are kept as written; the
    tokens of a [class] value are its whitespace-separated pieces. *)
Inductive node :=
| Tag (name : str) (attrs : list (str * str)) (children : list node)
| Text (s : str)
| Comment (s : str).

(** A tree object handed out by a query: the subtree, and its place in the
    page, which is what [id()] tells apart. *)
Record elem := Elem { eid : list nat; enode : node }.

Definition is_tag (n : node) : bool :=
  match n with Tag _ _ _ => true | _ => false end.

(** [.descendants]: everything below a node, in document order.  [walk]
    goes through the children from the [i]-th on. *)
Fixpoint walk (below_ : list nat -> node -> list elem) (path : list nat) (i : nat)
    (cs : list node) : list elem :=
  match cs with
  | [] => []
  | c :: cs' =>
    Elem (path ++ [i]) c :: below_ (path ++ [i]) c ++ walk below_ path (S i) cs'
  end.

Fixpoint descendants (path : list nat) (n : node) : list elem :=
  match n with
  | Tag _ _ cs => walk descendants path O cs
  | _ => []
  end.

(** [e] lies below [path], in the [i]-th child or a later one. *)
Definition under_from (path : list nat) (i : nat) (e : elem) : Prop :=
  ∃ j rest, (i ≤ j)%nat ∧ eid e = path ++ j :: rest.

Definition below (e : elem) : list elem := descendants (eid e) (enode e).

(** [tag.find(...)] and [tag.find_all(...)] / [tag.select(...)]: the tags
    below [e] that satisfy the test, in document order. *)
Definition find_all (p : node -> bool) (e : elem) : list elem :=
  List.filter (fun d => is_tag (enode d) && p (enode d)) (below e).

Definition find (p : node -> bool) (e : elem) : option elem :=
  head (find_all p e).

(** [tag.get(key)] *)
Definition attr (key : string) (n : node) : option str :=
  match n with
  | Tag _ attrs _ => snd <$> List.find (fun a => str_eqb (fst a) (utf8 key)) attrs
  | _ => None
  end.

Definition has_attr (key : string) (n : node) : bool :=
  match attr key n with Some _ => true | None => false end.

Definition named (name : string) (n : node) : bool :=
  match n with
  | Tag nm _ _ => str_eqb nm (utf8 name)
  | _ => false
  end.

(** [key="value"] as a keyword or in [attrs={...}]. *)
Definition attr_is (key value : string) (n : node) : bool :=
  match attr key n with
  | Some v => str_eqb v (utf8 value)
  | None => false
  end.

(** The selector [[class*='needle']] and the filter
    [attrs={"class": lambda c: c and "needle" in c}].  BeautifulSoup tries
    the function on each class token and on the tokens joined by a space,
    soupsieve looks in the joined tokens; for a needle without whitespace
    both come to: the written value contains the needle. *)
Definition class_contains (needle : string) (n : node) : bool :=
  match attr "class" n with
  | Some v => contains (utf8 needle) v
  | None => false
  end.

(** The selector [.token]. *)
Definition has_class (token : string) (n : node) : bool :=
  match attr "class" n with
  | Some v => existsb (str_eqb (utf8 token)) (split_ws v)
  | None => false
  end.

(** [_all_strings]: the text strings below a node; with [strip] each is
    stripped and dropped when nothing is left. *)
Definition strings (strip_ : bool) (e : elem) : list str :=
  List.concat
    ((fun d =>
        match enode d with
        | Text s =>
          if strip_
          then match strip s with [] => [] | s' => [s'] end
          else [s]
        | _ => []
        end) <$> below e).

(** [tag.get_text(separator, strip)] *)
Definition get_text (separator : str) (strip_ : bool) (e : elem) : str :=
  join separator (strings strip_ e).

(** [tag.string]: the single string child, looked for through single tag
    children. *)
Fixpoint string_ (n : node) : option str :=
  match n with
  | Tag _ _ [c] =>
    match c with
    | Tag _ _ _ => string_ c
    | Text s => Some s
    | Comment s => Some s
    end
  | Tag _ _ _ => None
  | Text s => Some s
  | Comment s => Some s
  end.

(** [a or b] on query results: a tag is always true. *)
Definition or_else {A} (a : option A) (b : option A) : option A :=
  match a with Some _ => a | None => b end.

(** The [BeautifulSoup] object of a page: the root of the tree. *)
Definition root (soup : node) : elem := Elem [] soup.

End Bs4.

(** ** [datetime.strptime] and [datetime.isoformat]

    After CPython's [_strptime.py]: a format is turned into a pattern, one
    group per directive; the pattern is matched at the start of the text
    and must use all of it; the groups are converted and the fields are
    checked by the [datetime] and [timezone] constructors.  Every failure
    is a [ValueError], here [None]. *)

Module Datetime.
Import Py Re.

Record datetime := DateTime {
  year : Z; month : Z; day : Z; hour : Z; minute : Z; second : Z;
  tzinfo : option Z   (* the UTC offset in microseconds *)
}.

Definition d09 := range "0" "9".

(** The directives the program's formats use, with their patterns. *)
Definition directive (d : ascii) : option regex :=
  let r :=
    if Ascii.eqb d "Y" then Some (seq_of [Cls digit; Cls digit; Cls digit; Cls digit])
    else if Ascii.eqb d "m" then
      Some (alt_of [seq_of [chr "1"; Cls (range "0" "2")];
                    seq_of [chr "0"; Cls (range "1" "9")];
                    Cls (range "1" "9")])
    else if Ascii.eqb d "d" then
      Some (alt_of [seq_of [chr "3"; Cls (range "0" "1")];
                    seq_of [Cls (range "1" "2"); Cls digit];
                    seq_of [chr "0"; Cls (range "1" "9")];
                    Cls (range "1" "9");
                    seq_of [chr " "; Cls (range "1" "9")]])
    else if Ascii.eqb d "H" then
      Some (alt_of [seq_of [chr "2"; Cls (range "0" "3")];
                    seq_of [Cls (range "0" "1"); Cls digit];
                    Cls digit])
    else if Ascii.eqb d "M" then
      Some (alt_of [seq_of [Cls (range "0" "5"); Cls digit]; Cls digit])
    else if Ascii.eqb d "S" then
      Some (alt_of [seq_of [chr "6"; Cls (range "0" "1")];
                    seq_of [Cls (range "0" "5"); Cls digit];
                    Cls digit])
    else if Ascii.eqb d "z" then
      Some (alt_of
        [seq_of [Cls (in_set "+-"); Cls digit; Cls digit; Opt (chr ":");
                 Cls (range "0" "5"); Cls digit;
                 Opt (seq_of [Opt (chr ":"); Cls (range "0" "5"); Cls digit;
                              Opt (seq_of [chr "."; Rep digit 1 (Some 6%nat)])])];
         chr "Z"])
    else None in
  Group (nat_of_ascii d) <$> r.

(** [TimeRE.pattern]; the formats here hold no whitespace and no regex
    metacharacter, so every other character stands for itself, matched
    without regard to case. *)
Fixpoint pattern (fmt : list ascii) : option regex :=
  match fmt with
  | [] => Some Eps
  | c :: rest =>
    if Ascii.eqb c "%" then
      match rest with
      | d :: rest' =>
        match directive d, pattern rest' with
        | Some r, Some r' => Some (Seq r r')
        | _, _ => None
        end
      | [] => None
      end
    else Seq (chr_i c) <$> pattern rest
  end.

Definition is_leap (y : Z) : bool :=
  ((y mod 4 =? 0) && negb (y mod 100 =? 0) || (y mod 400 =? 0))%Z.

Definition days_in_month (y m : Z) : Z :=
  (if m =? 2 then (if is_leap y then 29 else 28)
   else if (m =? 4) || (m =? 6) || (m =? 9) || (m =? 11) then 30
   else 31)%Z.

(** The checks of the [date] and [datetime] constructors. *)
Definition valid_date (y m d : Z) : bool :=
  ((1 <=? y) && (y <=? 9999) && (1 <=? m) && (m <=? 12)
   && (1 <=? d) && (d <=? days_in_month y m))%Z.

Definition valid_time (h mi s : Z) : bool :=
  ((0 <=? h) && (h <=? 23) && (0 <=? mi) && (mi <=? 59) && (0 <=? s) && (s <=? 59))%Z.

Definition slice (a b : nat) (s : str) : str := take (b - a) (drop a s).

(** The [%z] branch of [_strptime]: the offset in microseconds. *)
Definition parse_offset (z : str) : option Z :=
  if str_eqb z (utf8 "Z") then Some 0%Z
  else
    let colon := ch ":" in
    let step1 : option str :=
      if bool_decide (z !! 3%nat = Some colon) then
        let z1 := take 3 z ++ drop 4 z in
        if (5 <? length z1)%nat then
          if bool_decide (z1 !! 5%nat = Some colon)
          then Some (take 5 z1 ++ drop 6 z1)
          else None
        else Some z1
      else Some z in
    match step1 with
    | None => None
    | Some z =>
      let seconds_text := slice 5 7 z in
      let remainder := drop 8 z in
      match int (slice 1 3 z), int (slice 3 5 z),
            (match seconds_text with [] => Some 0%Z | _ => int seconds_text end),
            int (remainder ++ repeat (ch "0") (6 - length remainder)) with
      | Some hours, Some minutes, Some seconds, Some fraction =>
        let gmtoff := (hours * 60 * 60 + minutes * 60 + seconds)%Z in
        let off := (gmtoff * 1000000 + fraction)%Z in
        Some (if startswith (utf8 "-") z then (- off)%Z else off)
      | _, _, _, _ => None
      end
    end.

Definition day_us : Z := (24 * 60 * 60 * 1000000)%Z.

Definition field (d : ascii) (default_ : Z) (e : pos) : option Z :=
  match group (nat_of_ascii d) e with
  | Some g => int g
  | None => Some default_
  end.

Definition strptime (text : str) (fmt : string) : option datetime :=
  match pattern (list_ascii_of_string fmt) with
  | None => None
  | Some r =>
    match match_at r (start_of text) with
    | None => None
    | Some e =>
      match ahead e with
      | _ :: _ => None
      | [] =>
        match field "Y" 1900 e, field "m" 1 e, field "d" 1 e,
              field "H" 0 e, field "M" 0 e, field "S" 0 e with
        | Some y, Some m, Some d, Some h, Some mi, Some s =>
          let tz : option (option Z) :=
            match group (nat_of_ascii "z") e with
            | None => Some None
            | Some z =>
              match parse_offset z with
              | Some off =>
                if ((- day_us <? off) && (off <? day_us))%Z then Some (Some off) else None
              | None => None
              end
            end in
          match tz with
          | Some tz =>
            if valid_date y m d && valid_time h mi s
            then Some (DateTime y m d h mi s tz)
            else None
          | None => None
          end
        | _, _, _, _, _, _ => None
        end
      end
    end
  end.

(** [datetime(year, month, day)] *)
Definition midnight (y m d : Z) : datetime := DateTime y m d 0 0 0 None.

(** ["%0wd" % n] for [n >= 0]. *)
Fixpoint digits_of (fuel : nat) (n : N) : str :=
  match fuel with
  | O => []
  | S fuel' =>
    if n <? 10 then [48 + n]
    else digits_of fuel' (n / 10) ++ [48 + n mod 10]
  end.

Definition zero_padded (width : nat) (n : Z) : str :=
  let ds := digits_of (S (N.to_nat (N.log2 (Z.to_N n)))) (Z.to_N n) in
  repeat (ch "0") (width - length ds) ++ ds.

(** [_format_offset] *)
Definition format_offset (off : option Z) : str :=
  match off with
  | None => []
  | Some off =>
    let sign := if (off <? 0)%Z then utf8 "-" else utf8 "+" in
    let off := Z.abs off in
    let hh := (off / 3600000000)%Z in
    let mm := (off mod 3600000000 / 60000000)%Z in
    let ss := (off mod 60000000)%Z in
    sign ++ zero_padded 2 hh ++ utf8 ":" ++ zero_padded 2 mm ++
    (if (ss =? 0)%Z then []
     else utf8 ":" ++ zero_padded 2 (ss / 1000000)%Z ++
          (if (ss mod 1000000 =? 0)%Z then []
           else utf8 "." ++ zero_padded 6 (ss mod 1000000)%Z))
  end.

(** [dt.isoformat()]; the microsecond of a value read by these formats is
    zero, so no fraction is printed. *)
Definition isoformat (dt : datetime) : str :=
  zero_padded 4 (year dt) ++ utf8 "-" ++ zero_padded 2 (month dt) ++ utf8 "-" ++
  zero_padded 2 (day dt) ++ utf8 "T" ++
  zero_padded 2 (hour dt) ++ utf8 ":" ++ zero_padded 2 (minute dt) ++ utf8 ":" ++
  zero_padded 2 (second dt) ++
  format_offset (tzinfo dt).

End Datetime.

(** ** The records *)

Module Record.
Import Py.

(** A dict display [{"k1": v1, ...}]. *)
Definition item (key : string) (v : val) : str * val := (utf8 key, v).

Definition dict_of (items : list (str * val)) : dict :=
  fold_left (fun d kv => <[fst kv := snd kv]> d) items ∅.

Definition of_opt_int (o : option Z) : val :=
  match o with Some n => VInt n | None => VNone end.

End Record.

(** ** stock_parser.py *)

Module stock_parser.
Import Py Re Bs4 Record.

(** [r"[\(\|\-\–]"] *)
Definition delimiter (x : char) : bool := in_set "(|-" x || (x =? 8211).
Definition delimiter_re : regex := Cls delimiter.

(** [r"\b[A-Z]{1,5}\b"] *)
Definition upper (x : char) : bool := range "A" "Z" x.
Definition ticker_re : regex := seq_of [WordB; Rep upper 1 (Some 5%nat); WordB].

Definition _guess_ticker_from_title (title : str) : option str :=
  match title with
  | [] => None
  | _ =>
    let cleaned := hd [] (Re.split delimiter_re title) in
    let candidates := findall ticker_re cleaned in
    head candidates
  end.

(** The loop over the breadcrumb elements; it returns from the first one
    with two segments or more. *)
Fixpoint crumb_loop (crumbs : list elem) : option str :=
  match crumbs with
  | [] => None
  | crumb :: rest =>
    let text := join (utf8 " ") (split_ws (get_text (utf8 " ") false crumb)) in
    let parts :=
      List.filter (fun p => match strip p with [] => false | _ => true end)
                  (Py.split (utf8 "/") text) in
    if (2 <=? length parts)%nat
    then Some (strip (nth (length parts - 2) parts []))
    else crumb_loop rest
  end.

Definition _extract_category (soup : elem) : option str :=
  let meta_category :=
    find (fun n => named "meta" n && attr_is "name" "etoro:category" n) soup in
  let content :=
    match meta_category with
    | Some m => attr "content" (enode m)
    | None => None
    end in
  match content with
  | Some (c :: cs) => Some (strip (c :: cs))
  | _ =>
    crumb_loop
      (find_all (fun n => (named "nav" n && has_class "breadcrumb" n)
                          || has_class "breadcrumb" n
                          || has_class "breadcrumbs" n) soup)
  end.

Definition nonempty (o : option str) : bool :=
  match o with Some (_ :: _) => true | _ => false end.

(** The name of the page: Open Graph title, then first heading, then
    document title. *)
Definition stock_name_of (soup : elem) : option str :=
  let stock_name : option str := None in
  let og_title :=
    find (fun n => named "meta" n && attr_is "property" "og:title" n) soup in
  let stock_name :=
    match og_title with
    | Some t =>
      match attr "content" (enode t) with
      | Some (c :: cs) => Some (strip (c :: cs))
      | _ => stock_name
      end
    | None => stock_name
    end in
  let stock_name :=
    if negb (nonempty stock_name) then
      match find (named "h1") soup with
      | Some h1 =>
        match get_text [] true h1 with
        | [] => stock_name
        | t => Some t
        end
      | None => stock_name
      end
    else stock_name in
  let stock_name :=
    if negb (nonempty stock_name) then
      match find (named "title") soup with
      | Some title =>
        match string_ (enode title) with
        | Some (c :: cs) => Some (strip (c :: cs))
        | _ => stock_name
        end
      | None => stock_name
      end
    else stock_name in
  stock_name.

(** The category of the record: the one passed in, else the one found in
    the page when that is not empty. *)
Definition resolve_category (soup : elem) (category : option str) : option str :=
  match category with
  | None =>
    match _extract_category soup with
    | Some (c :: cs) => Some (c :: cs)
    | _ => category
    end
  | Some _ => category
  end.

Definition stock_record (stock_name ticker category : option str) (source_url : str) : dict :=
  dict_of [ item "stock_name" (of_opt_str stock_name);
            item "ticker" (of_opt_str ticker);
            item "investor_name" VNone;
            item "investor_stats" VNone;
            item "post_content" VNone;
            item "comment_text" VNone;
            item "likes_count" VNone;
            item "post_date" VNone;
            item "category" (of_opt_str category);
            item "source_url" (VStr source_url) ].

(** [soup] is the tree [BeautifulSoup(html, "lxml")] builds from the page. *)
Definition parse_stock_page (soup : node) (source_url : str) (category : option str)
    : list dict :=
  let soup := root soup in
  let stock_name := stock_name_of soup in
  let ticker := _guess_ticker_from_title (default [] stock_name) in
  let category := resolve_category soup category in
  if negb (nonempty stock_name) && negb (nonempty ticker)
  then []
  else [stock_record stock_name ticker category source_url].

End stock_parser.

(** ** investor_parser.py *)

Module investor_parser.
Import Py Bs4 Record.
Export investor_text.

(** ["[class*='user'], [class*='investor'], [data-etoro-user], [data-user-card]"] *)
Definition is_card (n : node) : bool :=
  class_contains "user" n || class_contains "investor" n
  || has_attr "data-etoro-user" n || has_attr "data-user-card" n.

Definition name_elem_of (card : elem) : option elem :=
  or_else (find (named "strong") card)
  (or_else (find (named "b") card)
  (or_else (find (named "h2") card)
  (or_else (find (named "h3") card)
           (find (fun n => named "span" n && class_contains "name" n) card)))).

(** [text.split("  ")[0].strip().split(" ")[0].strip()] *)
Definition first_word (text : str) : str :=
  strip (hd [] (Py.split (utf8 " ") (strip (hd [] (Py.split (utf8 "  ") text))))).

Definition investor_name_of (card : elem) (text : str) : val :=
  let investor_name :=
    match name_elem_of card with
    | Some name_elem => VStr (get_text [] true name_elem)
    | None => VNone
    end in
  if negb (truthy investor_name) then VStr (first_word text) else investor_name.

Definition investor_record (investor_name stats : val) (category : option str)
    (source_url : str) : dict :=
  dict_of [ item "stock_name" VNone;
            item "ticker" VNone;
            item "investor_name" investor_name;
            item "investor_stats" stats;
            item "post_content" VNone;
            item "comment_text" VNone;
            item "likes_count" VNone;
            item "post_date" VNone;
            item "category" (of_opt_str category);
            item "source_url" (VStr source_url) ].

(** One turn of the loop over the cards. *)
Definition card_step (source_url : str) (category : option str)
    (records : list dict) (card : elem) : list dict :=
  let text := get_text (utf8 " ") true card in
  match text with
  | [] => records
  | _ =>
    let investor_name := investor_name_of card text in
    let stats := _build_stats text in
    records ++ [investor_record investor_name stats category source_url]
  end.

Definition parse_investor_page (soup : node) (source_url : str) (category : option str)
    : list dict :=
  let possible_cards := find_all is_card (root soup) in
  fold_left (card_step source_url category) possible_cards [].

End investor_parser.

(** ** post_parser.py *)

Module post_parser.
Import Py Bs4 Record Datetime.
Export post_text.

Section Posts.

(** [datetime.fromisoformat] accepts a value or raises; which strings it
    accepts has grown with the interpreter's version, so the test is left
    open. *)
Variable fromisoformat : str -> bool.

Definition formats : list string :=
  ["%Y-%m-%dT%H:%M:%S%z"; "%Y-%m-%dT%H:%M:%S"; "%Y-%m-%d"]%string.

(** The loop over the formats: the first that parses gives the result. *)
Fixpoint format_loop (text : str) (fmts : list string) : option str :=
  match fmts with
  | [] => None
  | fmt :: rest =>
    match strptime text fmt with
    | Some dt =>
      let dt :=
        if String.eqb fmt "%Y-%m-%d" then midnight (year dt) (month dt) (day dt) else dt in
      Some (isoformat dt ++ utf8 "Z")
    | None => format_loop text rest
    end
  end.

(** The attribute branch: the value, when it is given, not blank, and
    parses once every [Z] is rewritten as [+00:00]. *)
Definition datetime_attr (element : elem) : option str :=
  match attr "datetime" (enode element) with
  | Some val_ =>
    match strip val_ with
    | [] => None
    | _ => if fromisoformat (replace (utf8 "Z") (utf8 "+00:00") val_) then Some val_ else None
    end
  | None => None
  end.

Definition _parse_timestamp (element : option elem) : option str :=
  match element with
  | None => None
  | Some element =>
    match datetime_attr element with
    | Some val_ => Some val_
    | None =>
      match get_text [] true element with
      | [] => None
      | text => format_loop text formats
      end
    end
  end.

Definition post_selectors : list string := ["post"; "feed-item"; "status"]%string.

Definition post_elements (soup : elem) : list elem :=
  fold_left (fun acc sel => acc ++ find_all (class_contains sel) soup) post_selectors [].

(** The loop that drops repeats: [seen_ids] and [uniq_posts]. *)
Definition seen_step (st : gset (list nat) * list elem) (e : elem)
    : gset (list nat) * list elem :=
  let key := eid e in
  if bool_decide (key ∈ st.1) then st
  else ({[ key ]} ∪ st.1, st.2 ++ [e]).

Definition uniq_posts (soup : elem) : list elem :=
  (fold_left seen_step (post_elements soup) (∅, [])).2.

Definition is_likes (n : node) : bool :=
  class_contains "like" n || class_contains "reaction" n.

Definition likes_of (e : elem) : option Z :=
  match find is_likes e with
  | Some likes_elem => _parse_likes (get_text [] false likes_elem)
  | None => None
  end.

Definition post_record (post_body : str) (comment_text : val) (likes_count : option Z)
    (post_date : option str) (category : option str) (source_url : str) : dict :=
  dict_of [ item "stock_name" VNone;
            item "ticker" VNone;
            item "investor_name" VNone;
            item "investor_stats" VNone;
            item "post_content" (VStr post_body);
            item "comment_text" comment_text;
            item "likes_count" (of_opt_int likes_count);
            item "post_date" (of_opt_str post_date);
            item "category" (of_opt_str category);
            item "source_url" (VStr source_url) ].

Definition body_of (post : elem) : str :=
  let body_elem :=
    default post (or_else (find (class_contains "content") post) (find (named "p") post)) in
  get_text (utf8 " ") true body_elem.

Definition timestamp_of (post : elem) : option str :=
  let time_elem := or_else (find (named "time") post) (find (class_contains "time") post) in
  match time_elem with
  | Some _ => _parse_timestamp time_elem
  | None => None
  end.

Definition comment_text_of (comment_elem : elem) : str :=
  get_text (utf8 " ") true comment_elem.

(** One turn of the inner loop over the comment elements of a post. *)
Definition comment_step (source_url : str) (category : option str)
    (post_body : str) (timestamp : option str)
    (records : list dict) (comment_elem : elem) : list dict :=
  let comment_text := comment_text_of comment_elem in
  if match comment_text with [] => true | _ => false end || str_eqb comment_text post_body
  then records
  else
    let comment_likes := likes_of comment_elem in
    let comment_time_elem := find (named "time") comment_elem in
    let comment_time :=
      match comment_time_elem with
      | Some _ => _parse_timestamp comment_time_elem
      | None => timestamp
      end in
    records ++ [post_record post_body (VStr comment_text) comment_likes comment_time
                            category source_url].

(** One turn of the loop over the posts. *)
Definition post_step (source_url : str) (category : option str)
    (records : list dict) (post : elem) : list dict :=
  match get_text (utf8 " ") true post with
  | [] => records
  | _ =>
    let post_body := body_of post in
    let likes_count := likes_of post in
    let timestamp := timestamp_of post in
    let base_record := post_record post_body VNone likes_count timestamp category source_url in
    let records := records ++ [base_record] in
    let comment_elems := find_all (class_contains "comment") post in
    fold_left (comment_step source_url category post_body timestamp) comment_elems records
  end.

(** [soup] is the tree [BeautifulSoup(html, "lxml")] builds from the page. *)
Definition parse_posts_page (soup : node) (source_url : str) (category : option str)
    : list dict :=
  fold_left (post_step source_url category) (uniq_posts (root soup)) [].

End Posts.
End post_parser.

(** ** main.py *)

Module main.
Import Py Record.

Definition FIELD_NAMES : list str :=
  utf8 <$> [ "stock_name"; "ticker"; "investor_name"; "investor_stats"; "post_content";
             "comment_text"; "likes_count"; "post_date"; "category"; "source_url" ]%string.

(** [record[key]] for a key the record holds. *)
Definition getitem (d : dict) (key : string) : val := default VNone (d !! utf8 key).

Definition normalize_record (partial : dict) (category : option str) (source_url : str)
    : dict :=
  let record : dict := fold_left (fun d field => <[field := VNone]> d) FIELD_NAMES ∅ in
  (* record.update(partial) *)
  let record := partial ∪ record in
  let record :=
    <[utf8 "category" :=
        or_ (or_ (get partial (utf8 "category")) (of_opt_str category))
            (getitem record "category")]> record in
  let record :=
    <[utf8 "source_url" := or_ (get partial (utf8 "source_url")) (VStr source_url)]> record in
  record.

End main.

(** ** What a pattern matches

    The matcher is checked against a reading of patterns as relations
    between positions: [den r st e] says that [r] can take the subject from
    [st] to [e]. *)

Module ReSpec.
Import Py Re.

(** The character before a position reached by passing [cs]. *)
Definition before_after (b : option char) (cs : str) : option char :=
  match last cs with Some c => Some c | None => b end.

Fixpoint den (r : regex) (st e : pos) : Prop :=
  match r with
  | Eps => e = st
  | Cls p =>
    ∃ c, ahead st = c :: ahead e ∧ p c = true ∧ before e = Some c ∧ groups e = groups st
  | Seq r1 r2 => ∃ mid, den r1 st mid ∧ den r2 mid e
  | Alt r1 r2 => den r1 st e ∨ den r2 st e
  | Opt r1 => den r1 st e ∨ e = st
  | Rep p lo hi =>
    ∃ cs, ahead st = cs ++ ahead e ∧ forallb p cs = true ∧
          (lo ≤ length cs)%nat ∧ (∀ h, hi = Some h → (length cs ≤ h)%nat) ∧
          before e = before_after (before st) cs ∧ groups e = groups st
  | Group n r1 =>
    ∃ e1, den r1 st e1 ∧
          e = Pos (before e1) (ahead e1) ((n, consumed st e1) :: groups e1)
  | WordB => at_boundary st = true ∧ e = st
  end.

(** Patterns without groups and boundary tests, and the words they
    match. *)
Fixpoint plain (r : regex) : bool :=
  match r with
  | Group _ _ | WordB => false
  | Seq r1 r2 | Alt r1 r2 => plain r1 && plain r2
  | Opt r1 => plain r1
  | Eps | Cls _ | Rep _ _ _ => true
  end.

Fixpoint lang (r : regex) (m : str) : Prop :=
  match r with
  | Eps => m = []
  | Cls p => ∃ c, m = [c] ∧ p c = true
  | Seq r1 r2 => ∃ m1 m2, m = m1 ++ m2 ∧ lang r1 m1 ∧ lang r2 m2
  | Alt r1 r2 => lang r1 m ∨ lang r2 m
  | Opt r1 => lang r1 m ∨ m = []
  | Rep p lo hi =>
    forallb p m = true ∧ (lo ≤ length m)%nat ∧ (∀ h, hi = Some h → (length m ≤ h)%nat)
  | Group _ r1 => lang r1 m
  | WordB => m = []
  end.

(** The position reached in [pre ++ s] after [pre]. *)
Definition pos_after (pre s : str) : pos := Pos (last pre) s [].

End ReSpec.

(** ** The 12-month return, as the pattern reads *)

Module ReturnSpec.
Import Py Re investor_text.

(** [m] is [pat] up to case. *)
Definition ieq_str (pat : string) (m : str) : Prop :=
  Forall2 (fun a x => ieq (ch a) x = true) (list_ascii_of_string pat) m.


Definition digits (ds : str) : Prop := ds ≠ [] ∧ forallb isdecimal ds = true.








End ReturnSpec.

(** ** The likes count, as the loop reads *)

Module LikesSpec.
Import Py.

(** The first run of digit characters of the stripped text. *)
Definition digit_run (text : str) : str :=
  take_while isdigit (drop_while (fun c => negb (isdigit c)) (strip text)).

(** The number a string of decimal digits writes. *)
Definition number_of (ds : str) : Z :=
  fold_left (fun acc c => (acc * 10 + default 0 (decimal_value c))%Z) ds 0%Z.

End LikesSpec.

(** ** The records of a page, as the loops read *)

Module PageSpec.
Import Py Re Bs4 Record stock_parser investor_parser post_parser main.

(** A record holds exactly the ten fields. *)
Definition all_fields (r : dict) : Prop := ∀ k, is_Some (r !! k) ↔ k ∈ FIELD_NAMES.

(** The fields named in [keys] are [None]. *)
Definition null_at (keys : list string) (r : dict) : Prop :=
  ∀ k, k ∈ keys → r !! utf8 k = Some VNone.

(** *** Stock pages *)

(** The title text the ticker is looked for in: up to the first
    delimiter. *)
Definition cleaned_title (title : str) : str :=
  take_while (fun c => negb (delimiter c)) title.

(** After [pre], [cleaned] holds the run [w] of one to five capitals, with
    no word character on either side. *)
Definition ticker_run (cleaned pre w : str) : Prop :=
  ∃ post, cleaned = pre ++ w ++ post ∧
    (1 ≤ length w ≤ 5)%nat ∧ forallb upper w = true ∧
    word_opt (last pre) = false ∧ word_opt (head post) = false.

Definition first_ticker_run (cleaned w : str) : Prop :=
  ∃ pre, ticker_run cleaned pre w ∧
    ∀ pre' w', ticker_run cleaned pre' w' → (length pre ≤ length pre')%nat.

(** The three candidates for the name. *)
Definition og_title_of (soup : elem) : option str :=
  match find (fun n => named "meta" n && attr_is "property" "og:title" n) soup with
  | Some t =>
    match attr "content" (enode t) with
    | Some (c :: cs) => Some (strip (c :: cs))
    | _ => None
    end
  | None => None
  end.

Definition heading_of (soup : elem) : option str :=
  match find (named "h1") soup with
  | Some h1 => match get_text [] true h1 with [] => None | t => Some t end
  | None => None
  end.

Definition title_of (soup : elem) : option str :=
  match find (named "title") soup with
  | Some title =>
    match string_ (enode title) with
    | Some (c :: cs) => Some (strip (c :: cs))
    | _ => None
    end
  | None => None
  end.

(** *** Investor pages *)

Definition has_text (e : elem) : bool :=
  match get_text (utf8 " ") true e with [] => false | _ => true end.

Definition card_record (source_url : str) (category : option str) (card : elem) : dict :=
  let text := get_text (utf8 " ") true card in
  investor_record (investor_name_of card text) (_build_stats text) category source_url.

(** *** Post pages *)

(** A list of tree objects without its repeats, in the order of first
    appearance. *)
Fixpoint first_seen (l : list elem) : list elem :=
  match l with
  | [] => []
  | e :: l' => e :: List.filter (fun x => negb (bool_decide (eid x = eid e))) (first_seen l')
  end.

Section Posts.
Variable fromisoformat : str -> bool.

(** A comment element counts when its text is not empty and is not the
    post body. *)
Definition survives (post_body : str) (comment_elem : elem) : bool :=
  negb (match comment_text_of comment_elem with [] => true | _ => false end)
  && negb (str_eqb (comment_text_of comment_elem) post_body).

Definition comment_record (source_url : str) (category : option str)
    (post_body : str) (timestamp : option str) (comment_elem : elem) : dict :=
  let comment_time :=
    match find (named "time") comment_elem with
    | Some t => _parse_timestamp fromisoformat (Some t)
    | None => timestamp
    end in
  post_record post_body (VStr (comment_text_of comment_elem)) (likes_of comment_elem)
              comment_time category source_url.

Definition base_record (source_url : str) (category : option str) (post : elem) : dict :=
  post_record (body_of post) VNone (likes_of post) (timestamp_of fromisoformat post)
              category source_url.

(** The records of one post: its own, then those of its comments that
    count, in document order. *)
Definition post_block (source_url : str) (category : option str) (post : elem) : list dict :=
  if has_text post then
    base_record source_url category post ::
      (comment_record source_url category (body_of post) (timestamp_of fromisoformat post)
         <$> List.filter (survives (body_of post)) (find_all (class_contains "comment") post))
  else [].

End Posts.

(** *** Pages for the examples *)

Definition el (name : string) (attrs : list (string * string)) (children : list node) : node :=
  Tag (utf8 name) ((fun a => (utf8 (fst a), utf8 (snd a))) <$> attrs) children.

Definition txt (s : string) : node := Text (utf8 s).

Definition at_ (key value : string) : string * string := (key, value).

(** [<meta property="og:title" content="TSLA (Tesla, Inc.)">] *)
Definition tsla_page : node :=
  el "html" []
    [ el "head" [] [ el "meta" [at_ "property" "og:title"; at_ "content" "TSLA (Tesla, Inc.)"] [] ];
      el "body" [] [ el "p" [] [txt "Quote"] ] ].

(** [<meta property="og:title" content=" ">] and nothing else to name the
    page. *)
Definition blank_title_page : node :=
  el "html" []
    [ el "head" [] [ el "meta" [at_ "property" "og:title"; at_ "content" " "] [] ];
      el "body" [] [ el "p" [] [txt "Quote"] ] ].

(** No Open Graph title, no heading, no document title. *)
Definition untitled_page : node :=
  el "html" [] [ el "head" [] []; el "body" [] [ el "p" [] [txt "Quote"] ] ].

(** One post, two comment elements: the first repeats the post body. *)
Definition post_page : node :=
  el "html" []
    [ el "body" []
        [ el "div" [at_ "class" "post"]
            [ el "p" [] [txt "Hello"];
              el "div" [at_ "class" "comment"] [txt "Hello"];
              el "div" [at_ "class" "comment"] [txt "Nice"] ] ] ].

(** Two posts with comments.  The first in the document is matched by the
    third selector only, the second by the first two. *)
Definition feed_page : node :=
  el "html" []
    [ el "body" []
        [ el "div" [at_ "class" "status"]
            [ el "p" [] [txt "First"];
              el "div" [at_ "class" "comment"] [txt "a"];
              el "div" [at_ "class" "comment"] [txt "b"] ];
          el "div" [at_ "class" "post feed-item"]
            [ el "p" [] [txt "Second"];
              el "div" [at_ "class" "comment"] [txt "c"] ] ] ].

(** Three cards: a name element and statistics; no text; a data attribute
    and no name element. *)
Definition investor_page : node :=
  el "html" []
    [ el "body" []
        [ el "div" [at_ "class" "user-card"]
            [ el "b" [] [txt "Alice"]; txt " Return (12M) 24.6% Risk score 4 " ];
          el "div" [at_ "class" "investor"] [txt "   "];
          el "div" [at_ "data-user-card" ""] [txt " Bob  Smith "] ] ].

(** The content and the comment text of a record. *)
Definition content_and_comment (r : dict) : option val * option val :=
  (r !! utf8 "post_content", r !! utf8 "comment_text").

(** [<span class="time">...</span>] with the given text. *)
Definition time_elem (text : string) : elem :=
  Elem [0%nat] (el "span" [at_ "class" "time"] [txt text]).

(** [<time datetime="...">...</time>] *)
Definition time_attr_elem (value text : string) : elem :=
  Elem [0%nat] (el "time" [at_ "datetime" value] [txt text]).

End PageSpec.


(** ** main.py: one page through the three extractors *)

Module pipeline.
Import Py Bs4 Record stock_parser investor_parser post_parser main.

Section Run.

(** The tree [BeautifulSoup(html, "lxml")] builds; each extractor builds
    it anew from the same text. *)
Variable BeautifulSoup : str -> node.
Variable fromisoformat : str -> bool.

(** The three [try] blocks catch what an extractor raises; the extractors
    of this model raise nothing, so each block runs to its end. *)
Definition process_url (url : str) (category : option str) (html : str) : list dict :=
  match strip html with
  | [] => []
  | _ =>
    let all_records : list dict := [] in
    let stock_records := parse_stock_page (BeautifulSoup html) url category in
    let all_records :=
      all_records ++ ((fun rec => normalize_record rec category url) <$> stock_records) in
    let investor_records := parse_investor_page (BeautifulSoup html) url category in
    let all_records :=
      all_records ++ ((fun rec => normalize_record rec category url) <$> investor_records) in
    let post_records := parse_posts_page fromisoformat (BeautifulSoup html) url category in
    let all_records :=
      all_records ++ ((fun rec => normalize_record rec category url) <$> post_records) in
    all_records
  end.

End Run.




(** [merge(base, extra)] of [load_settings]: [extra] is read, [base] is
    updated and returned.  The recursion is on the values of [extra], which
    is why the mapping comes wrapped as a value; the keys of [extra] are
    treated one by one, each touching its own key of [base] only, so the
    order of the loop has no part in the result. *)
Fixpoint merge_into (extra : val) (base : dict) {struct extra} : dict :=
  match extra with
  | VDict extra =>
    map_fold (fun key value (base : dict) =>
      match value with
      | VDict _ =>
        (* node = base.setdefault(key, {}) *)
        match default (VDict ∅) (base !! key) with
        | VDict node => <[key := VDict (merge_into value node)]> base
        | _ => <[key := value]> base
        end
      | _ =>
        (* base.setdefault(key, value) *)
        match base !! key with
        | Some _ => base
        | None => <[key := value]> base
        end
      end) base extra
  | _ => base
  end.

Definition merge (base extra : dict) : dict := merge_into (VDict extra) base.

(** What [load_settings] finds at the path of the settings file. *)
Inductive settings_file :=
| NoSettings
| SettingsNotJson
| Settings (settings : val).

Section Settings.

(** [str(root / "data" / name)] *)
Variable data_path : string -> str.

Definition http_defaults : dict :=
  dict_of [ item "timeout" (VInt 10);
            item "user_agent" (VStr (utf8 "EtoroScraper/1.0 (+https://bitbash.dev)")) ].

Definition defaults : dict :=
  dict_of [ item "input_file" (VStr (data_path "inputs.sample.json"));
            item "output_json" (VStr (data_path "output.sample.json"));
            item "output_csv" (VStr (data_path "output.sample.csv"));
            item "http" (VDict http_defaults);
            item "log_level" (VStr (utf8 "INFO")) ].

(** [None] stands for the exception the function ends with: the decoding
    error of a file that is not JSON, or the [AttributeError] of
    [base.setdefault] when the file holds a value that is no object. *)
Definition load_settings (file : settings_file) : option dict :=
  match file with
  | NoSettings => Some defaults
  | SettingsNotJson => None
  | Settings settings =>
    match settings with
    | VDict settings => Some (merge settings defaults)
    | _ => None
    end
  end.

End Settings.

End pipeline.

(** ** csv_exporter.py *)

Module csv_exporter.
Import Py Record.

Section Rows.

(** [json.dumps(value, ensure_ascii=False)] *)
Variable json_dumps : val -> str.

Definition _flatten_value (value : val) : val :=
  match value with
  | VNone => VStr []
  | VStr _ | VInt _ | VFloat _ | VBool _ => value
  | _ => VStr (json_dumps value)
  end.

(** The row [export_to_csv] hands to the writer for one record:
    [{field: _flatten_value(record.get(field)) for field in fieldnames}]. *)
Definition flat_row (fieldnames : list str) (record : dict) : dict :=
  fold_left (fun row field => <[field := _flatten_value (get record field)]> row)
            fieldnames ∅.

End Rows.
End csv_exporter.

(** ** Further readings of the code *)

Module MoreSpec.
Import Py Re Bs4 Record investor_text ReturnSpec stock_parser investor_parser post_parser
  main pipeline csv_exporter PageSpec.

(** No whitespace at either end. *)
Definition trimmed (s : str) : Prop :=
  (∀ c, head s = Some c → isspace c = false) ∧ (∀ c, last s = Some c → isspace c = false).

(** [text] holds [risk], whitespace, [score], whitespace, then the digits
    [num]. *)
Definition score_at (text num : str) : Prop :=
  ∃ pre r ws1 sc ws2 post,
    text = pre ++ r ++ ws1 ++ sc ++ ws2 ++ num ++ post ∧
    ieq_str "risk" r ∧ forallb isspace ws1 = true ∧
    ieq_str "score" sc ∧ forallb isspace ws2 = true ∧ digits num.

Definition not_ascii_digit (x : char) : bool := negb (range "0" "9" x).

(** [text] holds [risk], characters other than [0] to [9], the digits
    [num], then [/] and [10] with whitespace allowed around the slash. *)
Definition ratio_at (text num : str) : Prop :=
  ∃ pre r sep ws1 ws2 post,
    text = pre ++ r ++ sep ++ num ++ ws1 ++ utf8 "/" ++ ws2 ++ utf8 "10" ++ post ∧
    ieq_str "risk" r ∧ forallb not_ascii_digit sep = true ∧ digits num ∧
    forallb isspace ws1 = true ∧ forallb isspace ws2 = true.

(** A ticker: one to five capitals, standing somewhere in [name]. *)
Definition ticker_of (name w : str) : Prop :=
  (1 ≤ length w ≤ 5)%nat ∧ forallb upper w = true ∧ ∃ pre post, name = pre ++ w ++ post.

(** A value a CSV cell can hold as it is. *)
Definition is_scalar (v : val) : bool :=
  match v with
  | VStr _ | VInt _ | VFloat _ | VBool _ => true
  | _ => false
  end.



(** The statistics of an investor record, read back. *)
Definition valid_stats (v : val) : Prop :=
  v = VNone ∨
  ∃ m : dict, v = VDict m ∧ m ≠ ∅ ∧
    (∀ k, is_Some (m !! k) → k = utf8 "return_12m" ∨ k = utf8 "risk_score") ∧
    (∀ x, m !! utf8 "return_12m" = Some x → ∃ d, x = VFloat d) ∧
    (∀ x, m !! utf8 "risk_score" = Some x → ∃ n, x = VInt n ∧ (0 ≤ n)%Z).

(** What the fields of a stock record hold: a name that is not empty and
    has no whitespace at its ends, and no ticker or one that stands in the
    name. *)
Definition stock_values (r : dict) : Prop :=
  ∃ name, r !! utf8 "stock_name" = Some (VStr name) ∧ name ≠ [] ∧ trimmed name ∧
    (r !! utf8 "ticker" = Some VNone ∨
     ∃ w, r !! utf8 "ticker" = Some (VStr w) ∧ ticker_of name w).

(** The same for an investor record. *)
Definition investor_values (r : dict) : Prop :=
  ∃ name stats,
    r !! utf8 "investor_name" = Some (VStr name) ∧ name ≠ [] ∧ trimmed name ∧
    r !! utf8 "investor_stats" = Some stats ∧ valid_stats stats.

(** And for the record of a post or of a comment. *)
Definition post_values (r : dict) : Prop :=
  (∃ body, r !! utf8 "post_content" = Some (VStr body) ∧ trimmed body ∧
     (r !! utf8 "comment_text" = Some VNone ∨
      ∃ c, r !! utf8 "comment_text" = Some (VStr c) ∧ c ≠ [] ∧ c ≠ body ∧ trimmed c)) ∧
  (r !! utf8 "likes_count" = Some VNone ∨
   ∃ n, r !! utf8 "likes_count" = Some (VInt n) ∧ (0 ≤ n)%Z) ∧
  (r !! utf8 "post_date" = Some VNone ∨
   ∃ d, r !! utf8 "post_date" = Some (VStr d) ∧ d ≠ []).

(** The category of a record of a run that was given [category]. *)
Definition category_value (soup : node) (category : option str) (stock : bool) (r : dict)
    : Prop :=
  match category with
  | Some c => r !! utf8 "category" = Some (VStr c)
  | None =>
    r !! utf8 "category" = Some VNone ∨
    ∃ x, stock = true ∧ _extract_category (root soup) = Some x ∧ x ≠ [] ∧ trimmed x ∧
         r !! utf8 "category" = Some (VStr x)
  end.

Definition example_url : str := utf8 "https://example.org/".

(** A stock page with a breadcrumb trail. *)
Definition crumb_page : node :=
  el "html" []
    [ el "head" [] [ el "meta" [at_ "property" "og:title"; at_ "content" "TSLA (Tesla, Inc.)"] [] ];
      el "body" [] [ el "nav" [at_ "class" "breadcrumb"] [txt " Home / Stocks / TSLA "] ] ].

(** A post with a likes counter and a time element. *)
Definition liked_page : node :=
  el "html" []
    [ el "body" []
        [ el "div" [at_ "class" "post"]
            [ el "p" [] [txt " Hello "];
              el "span" [at_ "class" "likes"] [txt "1,234 likes"];
              el "time" [] [txt "2025-03-22"] ] ] ].

(** The keys [main] reads from the settings without a default. *)
Definition SETTING_NAMES : list str :=
  utf8 <$> ["input_file"; "output_json"; "output_csv"; "http"; "log_level"]%string.

Definition is_dict (v : val) : bool :=
  match v with VDict _ => true | _ => false end.

(** Settings for the examples: a log level, a timeout, and a key of their
    own. *)
Definition sample_settings : dict :=
  dict_of [ item "log_level" (VStr (utf8 "DEBUG"));
            item "http" (VDict (dict_of [ item "timeout" (VInt 30) ]));
            item "proxy" VNone ].


End MoreSpec.
(** * The matcher against the reading of patterns *)

Section MatcherCorrect.
Import Py Re ReSpec.

Lemma before_after_cons b c cs : before_after (Some c) cs = before_after b (c :: cs).
Proof.
  unfold before_after. rewrite last_cons. by destruct (last cs).
Qed.

Lemma rep_go_sound {A} p (k : pos → option A) gs x s :
  ∀ lo hi b, rep_go p lo hi b s gs k = Some x →
  ∃ cs s', s = cs ++ s' ∧ forallb p cs = true ∧ (lo ≤ length cs)%nat ∧
           (∀ h, hi = Some h → (length cs ≤ h)%nat) ∧
           k (Pos (before_after b cs) s' gs) = Some x.
Proof.
  induction s as [|c s IH]; intros lo hi b H; simpl in H.
  - destruct lo; [|done]. exists [], []. split_and!; try done; intros; simpl; lia.
  - assert (Hstop : match lo with O => k (Pos b (c :: s) gs) | S _ => None end = Some x →
      ∃ cs s', c :: s = cs ++ s' ∧ forallb p cs = true ∧ (lo ≤ length cs)%nat ∧
           (∀ h, hi = Some h → (length cs ≤ h)%nat) ∧
           k (Pos (before_after b cs) s' gs) = Some x).
    { destruct lo; [|done]. intros Hk. exists [], (c :: s).
      split_and!; try done; intros; simpl; lia. }
    destruct (p c && can_take hi) eqn:Hc; [|auto].
    apply andb_true_iff in Hc as [Hp Hhi].
    destruct (rep_go p (Nat.pred lo) (Nat.pred <$> hi) (Some c) s gs k) eqn:Hin; [|auto].
    injection H as ->.
    apply IH in Hin as (cs & s' & -> & Hall & Hlo & Hhi' & Hk).
    exists (c :: cs), s'. rewrite <- before_after_cons. simpl. rewrite Hp, Hall.
    split_and!; try done; [lia|].
    intros h ->. destruct h; [done|]. specialize (Hhi' h eq_refl). lia.
Qed.

Lemma rep_go_complete {A} p (k : pos → option A) gs cs :
  ∀ s' lo hi b, forallb p cs = true → (lo ≤ length cs)%nat →
  (∀ h, hi = Some h → (length cs ≤ h)%nat) →
  is_Some (k (Pos (before_after b cs) s' gs)) →
  is_Some (rep_go p lo hi b (cs ++ s') gs k).
Proof.
  induction cs as [|c cs IH]; intros s' lo hi b Hall Hlo Hhi Hk; simpl in *.
  - assert (lo = O) as -> by lia.
    destruct s' as [|c s']; simpl; [done|].
    destruct (p c && can_take hi); [|done].
    by destruct (rep_go p _ _ _ _ _ _).
  - apply andb_true_iff in Hall as [Hp Hall]. rewrite Hp. simpl.
    assert (can_take hi = true) as ->.
    { destruct hi as [[|h]|]; try done. specialize (Hhi O eq_refl). lia. }
    rewrite <- before_after_cons in Hk.
    eapply IH in Hk; [| done | |].
    + destruct Hk as [y ->]. done.
    + lia.
    + intros h Hh. destruct hi as [h'|]; [|done]. simpl in Hh. injection Hh as <-.
      specialize (Hhi h' eq_refl). lia.
Qed.

Lemma rmatch_sound {A} r : ∀ st (k : pos → option A) x,
  rmatch r st k = Some x → ∃ e, den r st e ∧ k e = Some x.
Proof.
  induction r as [|p|r1 IH1 r2 IH2|r1 IH1 r2 IH2|r1 IH1|p lo hi|n r1 IH1|];
    intros st k x H; simpl in *.
  - eauto.
  - destruct (ahead st) as [|c s'] eqn:Hs; [done|].
    destruct (p c) eqn:Hp; [|done].
    eexists. split; [|exact H]. exists c. simpl. done.
  - apply IH1 in H as (mid & H1 & H). apply IH2 in H as (e & H2 & H). eauto.
  - destruct (rmatch r1 st k) eqn:H1.
    + injection H as ->. apply IH1 in H1 as (e & ? & ?). eauto.
    + apply IH2 in H as (e & ? & ?). eauto.
  - destruct (rmatch r1 st k) eqn:H1.
    + injection H as ->. apply IH1 in H1 as (e & ? & ?). eauto.
    + eauto.
  - apply rep_go_sound in H as (cs & s' & Hs & Hall & Hlo & Hhi & Hk).
    eexists. split; [|exact Hk]. exists cs. simpl. done.
  - apply IH1 in H as (e1 & H1 & H). eauto.
  - destruct (at_boundary st) eqn:Hb; [|done]. eauto.
Qed.

Lemma rmatch_complete {A} r : ∀ st e (k : pos → option A),
  den r st e → is_Some (k e) → is_Some (rmatch r st k).
Proof.
  induction r as [|p|r1 IH1 r2 IH2|r1 IH1 r2 IH2|r1 IH1|p lo hi|n r1 IH1|];
    intros st e k H Hk; simpl in *.
  - by subst.
  - destruct H as (c & Hs & Hp & Hb & Hg). rewrite Hs, Hp.
    destruct e as [b a g]. simpl in *. by subst.
  - destruct H as (mid & H1 & H2). eapply IH1; [exact H1|]. eapply IH2; eauto.
  - destruct (rmatch r1 st k) eqn:H1; [done|].
    destruct H as [H|H]; [|eauto].
    eapply IH1 in H; [|exact Hk]. rewrite H1 in H. by destruct H.
  - destruct (rmatch r1 st k) eqn:H1; [done|].
    destruct H as [H| ->]; [|done].
    eapply IH1 in H; [|exact Hk]. rewrite H1 in H. by destruct H.
  - destruct H as (cs & Hs & Hall & Hlo & Hhi & Hb & Hg). rewrite Hs.
    apply rep_go_complete; try done.
    destruct e as [b a g]. simpl in *. by subst.
  - destruct H as (e1 & H1 & ->). eapply IH1; [exact H1|]. done.
  - destruct H as [-> ->]. done.
Qed.

Lemma before_after_app b m1 m2 :
  before_after (before_after b m1) m2 = before_after b (m1 ++ m2).
Proof.
  revert b. induction m1 as [|c m1 IH]; intros b; [done|].
  rewrite <- app_comm_cons, <- !before_after_cons. apply IH.
Qed.

Lemma consumed_app b b' m a g g' : consumed (Pos b (m ++ a) g) (Pos b' a g') = m.
Proof.
  unfold consumed. simpl. rewrite length_app.
  replace (length m + length a - length a)%nat with (length m) by lia.
  by rewrite take_app_length.
Qed.

(** A match passes a piece of the text ahead and ends just after it. *)
Lemma den_ahead r : ∀ st e, den r st e →
  ∃ m, ahead st = m ++ ahead e ∧ before e = before_after (before st) m.
Proof.
  induction r as [|p|r1 IH1 r2 IH2|r1 IH1 r2 IH2|r1 IH1|p lo hi|n r1 IH1|];
    intros st e H; simpl in H.
  - subst. by exists [].
  - destruct H as (c & Hs & _ & Hb & _). exists [c]. by rewrite Hs, Hb.
  - destruct H as (mid & H1 & H2).
    apply IH1 in H1 as (m1 & Hs1 & Hb1). apply IH2 in H2 as (m2 & Hs2 & Hb2).
    exists (m1 ++ m2). rewrite Hs1, Hs2, Hb2, Hb1, before_after_app.
    by rewrite app_assoc.
  - destruct H as [H|H]; eauto.
  - destruct H as [H| ->]; eauto. by exists [].
  - destruct H as (cs & Hs & _ & _ & _ & Hb & _). eauto.
  - destruct H as (e1 & H1 & ->). apply IH1 in H1. done.
  - destruct H as [_ ->]. by exists [].
Qed.

Lemma match_at_den r st e : match_at r st = Some e → den r st e.
Proof.
  intros H. apply rmatch_sound in H as (e' & H & [= ->]). done.
Qed.

Lemma den_match_at r st e : den r st e → is_Some (match_at r st).
Proof. intros H. eapply rmatch_complete; eauto. Qed.

(** [re.search] returns the leftmost start that has a match. *)
Lemma search_go_Some r : ∀ s skipped b pre m e,
  search_go r skipped b s = Some (pre, m, e) →
  ∃ s1 s2, s = s1 ++ s2 ∧ pre = rev skipped ++ s1 ∧
    match_at r (Pos (before_after b s1) s2 []) = Some e ∧
    m = consumed (Pos (before_after b s1) s2 []) e ∧
    ∀ t1 t2, s = t1 ++ t2 → (length t1 < length s1)%nat →
      match_at r (Pos (before_after b t1) t2 []) = None.
Proof.
  induction s as [|c s IH]; intros skipped b pre m e H; simpl in H.
  - destruct (match_at r (Pos b [] [])) as [e'|] eqn:Hm; [|done].
    inversion H; subst; clear H. exists [], [].
    split_and!; try done; [by rewrite app_nil_r|].
    intros t1 t2 _ Hlt. simpl in Hlt. lia.
  - destruct (match_at r (Pos b (c :: s) [])) as [e'|] eqn:Hm.
    + inversion H; subst; clear H. exists [], (c :: s).
      split_and!; try done; [by rewrite app_nil_r|].
      intros t1 t2 _ Hlt. simpl in Hlt. lia.
    + apply IH in H as (s1 & s2 & -> & -> & Hat & Hc & Hleft).
      exists (c :: s1), s2. rewrite <- before_after_cons.
      split_and!; try done.
      * simpl. by rewrite <- app_assoc.
      * intros t1 t2 Ht Hlt. destruct t1 as [|c' t1]; simpl in *.
        { by subst. }
        injection Ht as <- Ht. rewrite <- before_after_cons.
        apply Hleft; [done|lia].
Qed.

Lemma search_go_None r : ∀ s skipped b,
  search_go r skipped b s = None →
  ∀ t1 t2, s = t1 ++ t2 → match_at r (Pos (before_after b t1) t2 []) = None.
Proof.
  induction s as [|c s IH]; intros skipped b H t1 t2 Ht; simpl in H.
  - destruct (match_at r (Pos b [] [])) eqn:Hm; [done|].
    symmetry in Ht. apply app_eq_nil in Ht as [-> ->]. done.
  - destruct (match_at r (Pos b (c :: s) [])) eqn:Hm; [done|].
    destruct t1 as [|c' t1]; simpl in *.
    + by subst.
    + injection Ht as <- Ht. rewrite <- before_after_cons. eapply IH; eauto.
Qed.

Lemma before_after_None s : before_after None s = last s.
Proof. unfold before_after. by destruct (last s). Qed.

Lemma search_Some r text pre m e :
  search r text = Some (pre, m, e) →
  ∃ s, text = pre ++ s ∧ den r (pos_after pre s) e ∧ s = m ++ ahead e ∧
    ∀ t1 t2 e', text = t1 ++ t2 → (length t1 < length pre)%nat →
      ¬ den r (pos_after t1 t2) e'.
Proof.
  intros H. apply search_go_Some in H as (s1 & s2 & -> & -> & Hat & -> & Hleft).
  rewrite before_after_None in Hat. change (rev [] ++ s1) with s1.
  exists s2. pose proof (match_at_den _ _ _ Hat) as Hd.
  split_and!; try done.
  - destruct (den_ahead _ _ _ Hd) as (m & Hm & _).
    destruct e as [b' a' g']. cbn [ahead] in *. subst s2.
    by rewrite consumed_app.
  - intros t1 t2 e' Ht Hlt Hd'. apply den_match_at in Hd' as [y Hy].
    unfold pos_after in Hy. rewrite <- before_after_None in Hy.
    erewrite Hleft in Hy; done.
Qed.

Lemma search_None r text :
  search r text = None ↔ ∀ t1 t2 e, text = t1 ++ t2 → ¬ den r (pos_after t1 t2) e.
Proof.
  split.
  - intros H t1 t2 e Ht Hd. apply den_match_at in Hd as [y Hy].
    unfold pos_after in Hy. rewrite <- before_after_None in Hy.
    erewrite (search_go_None _ _ _ _ H) in Hy; done.
  - intros H. destruct (search r text) as [[[pre m] e]|] eqn:Hs; [|done].
    apply search_Some in Hs as (s & Ht & Hd & _). by apply H in Hd.
Qed.

Lemma search_is_Some r t1 t2 e :
  den r (pos_after t1 t2) e → is_Some (search r (t1 ++ t2)).
Proof.
  intros Hd. destruct (search r (t1 ++ t2)) eqn:Hs; [done|].
  exfalso. eapply search_None in Hs; eauto.
Qed.

End MatcherCorrect.

(** * Words of plain patterns *)

Section Plain.
Import Py Re ReSpec.

Lemma den_plain_inv r : ∀ st e, plain r = true → den r st e →
  ∃ m, lang r m ∧ ahead st = m ++ ahead e ∧
       before e = before_after (before st) m ∧ groups e = groups st.
Proof.
  induction r as [|p|r1 IH1 r2 IH2|r1 IH1 r2 IH2|r1 IH1|p lo hi|n r1 IH1|];
    intros st e Hp H; simpl in *; try done.
  - subst. by exists [].
  - destruct H as (c & Hs & Hc & Hb & Hg). exists [c]. split_and!; eauto.
  - apply andb_true_iff in Hp as [Hp1 Hp2]. destruct H as (mid & H1 & H2).
    apply IH1 in H1 as (m1 & L1 & S1 & B1 & G1); [|done].
    apply IH2 in H2 as (m2 & L2 & S2 & B2 & G2); [|done].
    exists (m1 ++ m2). split_and!.
    + eauto.
    + by rewrite S1, S2, app_assoc.
    + by rewrite B2, B1, before_after_app.
    + congruence.
  - apply andb_true_iff in Hp as [Hp1 Hp2].
    destruct H as [H|H]; [apply IH1 in H|apply IH2 in H]; try done;
      destruct H as (m & ? & ? & ? & ?); exists m; eauto.
  - destruct H as [H| ->].
    + apply IH1 in H as (m & ? & ? & ? & ?); [|done]. exists m; eauto.
    + exists []. eauto.
  - destruct H as (cs & Hs & Hall & Hlo & Hhi & Hb & Hg). exists cs. eauto 10.
Qed.


Lemma lang_chr_i l : ∀ m,
  lang (seq_of (chr_i <$> l)) m ↔ Forall2 (fun a x => ieq (ch a) x = true) l m.
Proof.
  induction l as [|a l IH]; intros m.
  - simpl. split; [intros ->; constructor|by inversion 1].
  - destruct l as [|a' l].
    + simpl. split.
      * intros (c & -> & Hc). by repeat constructor.
      * inversion 1 as [|? x ? ? Hx Hr]; subst. inversion Hr; subst. eauto.
    + change (seq_of (chr_i <$> a :: a' :: l))
        with (Seq (chr_i a) (seq_of (chr_i <$> a' :: l))).
      simpl lang. split.
      * intros (m1 & m2 & -> & (c & -> & Hc) & H2). apply IH in H2.
        by constructor.
      * inversion 1 as [|? x ? m' Hx Hr]; subst. exists [x], m'.
        split_and!; eauto. by apply IH.
Qed.

Lemma lang_chr l : ∀ m, lang (seq_of (chr <$> l)) m ↔ m = ch <$> l.
Proof.
  induction l as [|a l IH]; intros m.
  - done.
  - destruct l as [|a' l].
    + simpl. split.
      * intros (c & -> & Hc). apply N.eqb_eq in Hc. by subst.
      * intros ->. exists (ch a). by rewrite N.eqb_refl.
    + change (seq_of (chr <$> a :: a' :: l))
        with (Seq (chr a) (seq_of (chr <$> a' :: l))).
      simpl lang. split.
      * intros (m1 & m2 & -> & (c & -> & Hc) & H2). apply IH in H2.
        apply N.eqb_eq in Hc. by subst.
      * intros ->. exists [ch a], (ch <$> a' :: l).
        split_and!; [done| |by apply IH]. exists (ch a). by rewrite N.eqb_refl.
Qed.

End Plain.

(** * Python text: classes of characters, [strip], [int], [float] *)

Section Text.
Import Py.

Lemma in_ranges_apart t1 t2 c :
  ranges_apart t1 t2 = true → in_ranges c t1 = true → in_ranges c t2 = false.
Proof.
  unfold ranges_apart, in_ranges. intros Hd H1.
  apply existsb_exists in H1 as (r1 & Hin1 & Hr1).
  apply not_true_is_false. intros H2.
  apply existsb_exists in H2 as (r2 & Hin2 & Hr2).
  rewrite forallb_forall in Hd. specialize (Hd r1 Hin1).
  rewrite forallb_forall in Hd. specialize (Hd r2 Hin2).
  apply andb_true_iff in Hr1 as [?%N.leb_le ?%N.leb_le].
  apply andb_true_iff in Hr2 as [?%N.leb_le ?%N.leb_le].
  apply orb_true_iff in Hd as [Hd|Hd]; apply N.ltb_lt in Hd; lia.
Qed.

Lemma isdecimal_not_space c : isdecimal c = true → isspace c = false.
Proof. apply in_ranges_apart. by vm_compute. Qed.

Lemma isdecimal_isdigit c : isdecimal c = true → isdigit c = true.
Proof. unfold isdigit. by intros ->. Qed.

Lemma decimal_value_Some c :
  isdecimal c = true → ∃ d, decimal_value c = Some d ∧ (0 ≤ d ≤ 9)%Z.
Proof.
  unfold isdecimal, in_ranges, decimal_value. intros H.
  destruct (List.find _ decimal_ranges) as [r|] eqn:Hf.
  - eexists. split; [done|].
    assert ((c - r.1) mod 10 < 10) as Hlt by (by apply N.mod_upper_bound).
    revert Hlt. generalize ((c - r.1) mod 10). intros. lia.
  - apply existsb_exists in H as (r & Hin & Hr).
    eapply find_none in Hf; [|exact Hin]. simpl in Hf. congruence.
Qed.

Lemma decimal_value_nonneg c d : decimal_value c = Some d → (0 ≤ d)%Z.
Proof.
  unfold decimal_value. destruct (List.find _ _); [|done]. intros [= <-].
  apply N2Z.is_nonneg.
Qed.

Lemma int_digits_nonneg ds : ∀ acc n,
  int_digits acc ds = Some n → (0 ≤ acc)%Z → (0 ≤ n)%Z.
Proof.
  induction ds as [|c ds IH]; intros acc n H Hacc; simpl in H.
  - by injection H as <-.
  - destruct (decimal_value c) as [d|] eqn:Hd; [|done].
    apply decimal_value_nonneg in Hd. eapply IH; [exact H|lia].
Qed.


Lemma decimal_value_None c : isdecimal c = false → decimal_value c = None.
Proof.
  unfold isdecimal, in_ranges, decimal_value. intros H.
  destruct (List.find _ decimal_ranges) as [r|] eqn:Hf; [|done].
  apply find_some in Hf as [Hin Hr].
  assert (existsb (fun r => (r.1 <=? c) && (c <=? r.2)) decimal_ranges = true) as E.
  { apply existsb_exists. by exists r. }
  congruence.
Qed.

Lemma int_digits_None ds : ∀ acc,
  forallb isdecimal ds = false → int_digits acc ds = None.
Proof.
  induction ds as [|c ds IH]; intros acc H; simpl in *; [done|].
  destruct (isdecimal c) eqn:Hc.
  - destruct (decimal_value c); [|done]. by apply IH.
  - by rewrite decimal_value_None.
Qed.

Lemma int_nonneg s n : int s = Some n → (0 ≤ n)%Z.
Proof.
  unfold int, decimal_digits. destruct (_ <? _)%Z; [done|].
  destruct (strip s); [done|]. intros H.
  by eapply int_digits_nonneg.
Qed.

(** A string that neither starts nor ends with whitespace is its own
    [strip]. *)
Lemma lstrip_id c s : isspace c = false → lstrip (c :: s) = c :: s.
Proof. unfold lstrip. simpl. by intros ->. Qed.

Lemma rstrip_id s c : isspace c = false → rstrip (s ++ [c]) = s ++ [c].
Proof.
  intros Hc. unfold rstrip. rewrite rev_app_distr. simpl.
  rewrite lstrip_id by done. simpl. by rewrite rev_involutive.
Qed.

Lemma forallb_last {A} (p : A → bool) l x :
  forallb p l = true → last l = Some x → p x = true.
Proof.
  intros H Hl. rewrite forallb_forall in H. apply H.
  apply last_Some in Hl as [l' ->]. apply in_or_app. right. by left.
Qed.

Lemma strip_decimals ds : forallb isdecimal ds = true → strip ds = ds.
Proof.
  intros H. destruct ds as [|c ds]; [done|].
  unfold strip. rewrite lstrip_id.
  - destruct (last (c :: ds)) as [x|] eqn:Hl.
    + pose proof (forallb_last _ _ _ H Hl) as Hx.
      apply last_Some in Hl as [l' ->]. apply rstrip_id.
      by apply isdecimal_not_space.
    + by apply last_None in Hl.
  - simpl in H. apply andb_true_iff in H as [H _]. by apply isdecimal_not_space.
Qed.

Lemma isdigit_not_space c : isdigit c = true → isspace c = false.
Proof.
  unfold isdigit. intros H. apply orb_true_iff in H as [H | H].
  - by apply isdecimal_not_space.
  - revert H. apply in_ranges_apart. by vm_compute.
Qed.

Lemma strip_digits ds : forallb isdigit ds = true → strip ds = ds.
Proof.
  intros H. destruct ds as [|c ds]; [done|].
  unfold strip. rewrite lstrip_id.
  - destruct (last (c :: ds)) as [x|] eqn:Hl.
    + pose proof (forallb_last _ _ _ H Hl) as Hx.
      apply last_Some in Hl as [l' ->]. apply rstrip_id.
      by apply isdigit_not_space.
    + by apply last_None in Hl.
  - simpl in H. apply andb_true_iff in H as [H _]. by apply isdigit_not_space.
Qed.


(** [int] converts it when it has no more digits than the limit. *)
Lemma int_short s :
  (Z.of_nat (length (strip s)) ≤ int_max_str_digits)%Z → int s = decimal_digits s.
Proof.
  intros H. unfold int.
  destruct (int_max_str_digits <? Z.of_nat (length (strip s)))%Z eqn:E; [|done].
  apply Z.ltb_lt in E. lia.
Qed.



(** A run of digit characters is refused when one of them is no decimal
    digit, and when it is longer than the limit. *)
Lemma int_digits_refused ds :
  forallb isdigit ds = true →
  forallb isdecimal ds = false ∨ (int_max_str_digits < Z.of_nat (length ds))%Z →
  int ds = None.
Proof.
  intros Hd H. unfold int, decimal_digits. rewrite strip_digits by done.
  destruct (int_max_str_digits <? Z.of_nat (length ds))%Z eqn:E; [done|].
  destruct H as [H | H]; [|apply Z.ltb_ge in E; lia].
  destruct ds; [done|]. by apply int_digits_None.
Qed.

Lemma take_while_app {A} (p : A → bool) l rest :
  forallb p l = true → (∀ x, head rest = Some x → p x = false) →
  take_while p (l ++ rest) = l ∧ drop_while p (l ++ rest) = rest.
Proof.
  intros Hl Hr. induction l as [|x l IH]; simpl in *.
  - destruct rest as [|y rest]; [done|]. simpl. by rewrite (Hr y eq_refl).
  - apply andb_true_iff in Hl as [-> Hl]. destruct (IH Hl) as [-> ->]. done.
Qed.

Lemma take_drop_while {A} (p : A → bool) l :
  l = take_while p l ++ drop_while p l.
Proof.
  induction l as [|x l IH]; [done|]. simpl. destruct (p x); [|done].
  simpl. by rewrite <- IH.
Qed.

Lemma take_while_all {A} (p : A → bool) l : forallb p (take_while p l) = true.
Proof.
  induction l as [|x l IH]; [done|]. simpl. destruct (p x) eqn:Hx; [|done].
  simpl. by rewrite Hx.
Qed.

Lemma drop_while_head {A} (p : A → bool) l x :
  head (drop_while p l) = Some x → p x = false.
Proof.
  induction l as [|y l IH]; [done|]. simpl. destruct (p y) eqn:Hy; [done|].
  simpl. by intros [= <-].
Qed.

End Text.

(** * The 12-month return *)

Section Return12m.
Import Py Re ReSpec investor_text ReturnSpec.

Lemma consumed_eq st e m : ahead st = m ++ ahead e → consumed st e = m.
Proof.
  intros H. unfold consumed. rewrite H, length_app.
  replace (length m + length (ahead e) - length (ahead e))%nat with (length m) by lia.
  by rewrite take_app_length.
Qed.

Lemma lang_lit_i s m : lang (lit_i s) m ↔ ieq_str s m.
Proof. apply lang_chr_i. Qed.

Lemma lang_lit s m : lang (lit s) m ↔ m = ch <$> list_ascii_of_string s.
Proof. apply lang_chr. Qed.

















End Return12m.

(** * The likes count *)

Section Likes.
Import Py post_text LikesSpec.

Lemma likes_loop_started num text :
  num ≠ [] → likes_loop num text = num ++ take_while isdigit text.
Proof.
  revert num. induction text as [|c text IH]; intros num Hne; simpl.
  - by rewrite app_nil_r.
  - destruct (isdigit c).
    + rewrite IH; [by rewrite <- app_assoc|]. by destruct num.
    + destruct num; [done|]. by rewrite app_nil_r.
Qed.

Lemma likes_loop_run text :
  likes_loop [] text = take_while isdigit (drop_while (fun c => negb (isdigit c)) text).
Proof.
  induction text as [|c text IH]; [done|]. simpl.
  destruct (isdigit c) eqn:Hc; simpl.
  - rewrite Hc. by rewrite likes_loop_started.
  - done.
Qed.

Lemma parse_likes_run text :
  _parse_likes text =
    match digit_run text with
    | [] => None
    | run => int run
    end.
Proof.
  unfold _parse_likes, digit_run. rewrite <- likes_loop_run.
  destruct (strip text) as [|c s]; [done|].
  cbv zeta. by destruct (likes_loop [] (c :: s)).
Qed.

Lemma int_digits_number ds : ∀ acc,
  forallb isdecimal ds = true →
  int_digits acc ds =
    Some (fold_left (fun acc c => (acc * 10 + default 0 (decimal_value c))%Z) ds acc).
Proof.
  induction ds as [|c ds IH]; intros acc H; simpl in *; [done|].
  apply andb_true_iff in H as [Hc H].
  destruct (decimal_value_Some c Hc) as (d & -> & _). simpl. by apply IH.
Qed.

Lemma int_number ds :
  ds ≠ [] → forallb isdecimal ds = true →
  (Z.of_nat (length ds) ≤ int_max_str_digits)%Z →
  int ds = Some (number_of ds).
Proof.
  intros Hne H Hlen. rewrite int_short by (by rewrite strip_decimals).
  unfold decimal_digits, number_of. rewrite strip_decimals by done.
  destruct ds; [done|]. by apply int_digits_number.
Qed.

Lemma digit_run_digits text : forallb isdigit (digit_run text) = true.
Proof. unfold digit_run. apply take_while_all. Qed.

Lemma digit_run_none text :
  forallb (fun c => negb (isdigit c)) text = true → digit_run text = [].
Proof.
  intros H. unfold digit_run.
  assert (Hs : forallb (fun c => negb (isdigit c)) (strip text) = true).
  { rewrite forallb_forall in *. intros x Hx. apply H.
    unfold strip, rstrip, lstrip in Hx. apply in_rev in Hx.
    assert (Hsub : ∀ (p : char → bool) l y, In y (drop_while p l) → In y l).
    { intros p l y. induction l as [|z l IHl]; [done|]. simpl.
      destruct (p z); [right; auto|done]. }
    apply Hsub in Hx. apply in_rev in Hx. by apply Hsub in Hx. }
  induction (strip text) as [|c s IH]; [done|]. simpl in *.
  apply andb_true_iff in Hs as [-> Hs]. auto.
Qed.

End Likes.

(** * The statistics mapping *)

Section Stats.
Import Py investor_text.

Lemma key_return_risk : utf8 "return_12m" ≠ utf8 "risk_score".
Proof. by vm_compute. Qed.

Lemma truthy_dict_insert (m : dict) k v : truthy (VDict (<[k := v]> m)) = true.
Proof.
  simpl. rewrite bool_decide_eq_false_2; [done|]. apply insert_non_empty.
Qed.

Lemma dict_insert_not_empty (m : dict) k v : VDict (<[k := v]> m) ≠ VDict ∅.
Proof.
  intros H. assert (<[k := v]> m = ∅) as H' by congruence.
  revert H'. apply insert_non_empty.
Qed.

End Stats.

(** * Claims on the text heuristics and the normalizer *)

Section TextClaims.
Import Py Re investor_text post_text ReturnSpec LikesSpec main.

(** C5.  [_build_stats] returns [None] exactly when both
    [_parse_return_12m] and [_parse_risk_score] return [None]; otherwise it
    returns a mapping whose keys are exactly those of [return_12m] and
    [risk_score] whose parser returned a value, holding these values; it
    never returns an empty mapping. *)
Theorem build_stats_keys (text : str) :
  let ret := _parse_return_12m text in
  let risk := _parse_risk_score text in
  (_build_stats text = VNone ↔ ret = None ∧ risk = None) ∧
  (¬ (ret = None ∧ risk = None) →
   ∃ m : dict, _build_stats text = VDict m ∧
     (∀ k, is_Some (m !! k) ↔
        (k = utf8 "return_12m" ∧ is_Some ret) ∨ (k = utf8 "risk_score" ∧ is_Some risk)) ∧
     m !! utf8 "return_12m" = VFloat <$> ret ∧
     m !! utf8 "risk_score" = VInt <$> risk) ∧
  _build_stats text ≠ VDict ∅ ∧
  _build_stats (utf8 "Return (12M) 24.6% Risk score 4") =
    VDict (<[utf8 "risk_score" := VInt 4]>
             (<[utf8 "return_12m" := VFloat (Dec 246 1)]> ∅)) ∧
  _build_stats (utf8 "no stats here") = VNone ∧
  _build_stats [] = VNone.
Proof.
  intros ret risk.
  cut ((_build_stats text = VNone ↔ ret = None ∧ risk = None) ∧
       (¬ (ret = None ∧ risk = None) →
        ∃ m : dict, _build_stats text = VDict m ∧
          (∀ k, is_Some (m !! k) ↔
             (k = utf8 "return_12m" ∧ is_Some ret) ∨ (k = utf8 "risk_score" ∧ is_Some risk)) ∧
          m !! utf8 "return_12m" = VFloat <$> ret ∧
          m !! utf8 "risk_score" = VInt <$> risk) ∧
       _build_stats text ≠ VDict ∅).
  { intros (H1 & H2 & H3). split_and!; [exact H1|exact H2|exact H3| | |];
      vm_compute; reflexivity. }
  unfold _build_stats. fold ret risk.
  pose proof key_return_risk as Hne.
  destruct ret as [d|], risk as [n|]; cbv zeta.
  - unfold or_. rewrite truthy_dict_insert. split_and!.
    + split; [done|]. by intros [? ?].
    + intros _. eexists. split; [done|]. split_and!.
      * intros k. rewrite lookup_insert. case_decide as Hk.
        { subst k. split; [|by eauto]. intros _. right. split; [done|by eauto]. }
        rewrite lookup_insert. case_decide as Hk'.
        { subst k. split; [|by eauto]. intros _. left. split; [done|by eauto]. }
        rewrite lookup_empty. split; [by intros [? ?]|]. intros [[-> _]|[-> _]]; done.
      * rewrite lookup_insert_ne by done. by rewrite lookup_insert_eq.
      * by rewrite lookup_insert_eq.
    + apply dict_insert_not_empty.
  - unfold or_. rewrite truthy_dict_insert. split_and!.
    + split; [done|]. by intros [? ?].
    + intros _. eexists. split; [done|]. split_and!.
      * intros k. rewrite lookup_insert. case_decide as Hk.
        { subst k. split; [|by eauto]. intros _. left. split; [done|by eauto]. }
        rewrite lookup_empty. split; [by intros [? ?]|].
        intros [[-> _]|[_ [? ?]]]; done.
      * by rewrite lookup_insert_eq.
      * rewrite lookup_insert_ne by done. by rewrite lookup_empty.
    + apply dict_insert_not_empty.
  - unfold or_. rewrite truthy_dict_insert. split_and!.
    + split; [done|]. by intros [? ?].
    + intros _. eexists. split; [done|]. split_and!.
      * intros k. rewrite lookup_insert. case_decide as Hk.
        { subst k. split; [|by eauto]. intros _. right. split; [done|by eauto]. }
        rewrite lookup_empty. split; [by intros [? ?]|].
        intros [[_ [? ?]]|[-> _]]; done.
      * rewrite lookup_insert_ne by done. by rewrite lookup_empty.
      * by rewrite lookup_insert_eq.
    + apply dict_insert_not_empty.
  - split_and!; [done| |done]. intros H. by destruct H.
Qed.



(** C8, as the code has it.  [_parse_likes] finds the first run of digit
    characters of the stripped text and returns what [int] makes of it: the
    number the run writes when all its characters are decimal digits and
    they are no more than [int] converts (4300), [None] when the run holds
    a digit that is not decimal or is longer than that.  It returns [None]
    when the text has no digit.  The result is never negative. *)
Theorem parse_likes_first_run :
  (∀ text, _parse_likes text =
     match digit_run text with [] => None | run => int run end) ∧
  (∀ text, digit_run text ≠ [] → forallb isdecimal (digit_run text) = true →
     (Z.of_nat (length (digit_run text)) ≤ int_max_str_digits)%Z →
     _parse_likes text = Some (number_of (digit_run text))) ∧
  (∀ text,
     forallb isdecimal (digit_run text) = false ∨
     (int_max_str_digits < Z.of_nat (length (digit_run text)))%Z →
     _parse_likes text = None) ∧
  int_max_str_digits = 4300%Z ∧
  (∀ text, forallb (fun c => negb (isdigit c)) text = true → _parse_likes text = None) ∧
  (∀ text n, _parse_likes text = Some n → (0 ≤ n)%Z) ∧
  _parse_likes (utf8 "153 likes") = Some 153%Z ∧
  _parse_likes (utf8 "♥ 42") = Some 42%Z ∧
  _parse_likes (utf8 "no count") = None.
Proof.
  split_and!.
  - apply parse_likes_run.
  - intros text Hne Hdec Hlen. rewrite parse_likes_run.
    rewrite <- (int_number _ Hne Hdec Hlen). by destruct (digit_run text).
  - intros text H. rewrite parse_likes_run.
    pose proof (int_digits_refused _ (digit_run_digits text) H) as Hint.
    destruct (digit_run text); [done|exact Hint].
  - reflexivity.
  - intros text H. rewrite parse_likes_run. by rewrite digit_run_none.
  - intros text n. rewrite parse_likes_run.
    destruct (digit_run text); [done|]. apply int_nonneg.
  - vm_compute. reflexivity.
  - vm_compute. reflexivity.
  - vm_compute. reflexivity.
Qed.

(** C8 as stated fails: the superscript two is a digit character, a run
    of it is found, and no integer is returned. *)
Lemma parse_likes_superscript :
  isdigit 178 = true ∧ digit_run (utf8 "²") = utf8 "²" ∧ utf8 "²" = [178] ∧
  _parse_likes (utf8 "²") = None.
Proof. vm_compute. by repeat split. Qed.

Lemma fields_lookup (l : list str) : ∀ (d : dict) k,
  fold_left (fun d field => <[field := VNone]> d) l d !! k =
    if bool_decide (k ∈ l) then Some VNone else d !! k.
Proof.
  induction l as [|f l IH]; intros d k; cbn [fold_left].
  - rewrite bool_decide_eq_false_2; [done|]. apply not_elem_of_nil.
  - rewrite IH. destruct (decide (k ∈ l)) as [Hin|Hnin].
    + rewrite (bool_decide_eq_true_2 (k ∈ l)) by done.
      rewrite (bool_decide_eq_true_2 (k ∈ f :: l)); [done|]. by right.
    + rewrite (bool_decide_eq_false_2 (k ∈ l)) by done.
      rewrite lookup_insert. case_decide as Hk.
      * subst. rewrite bool_decide_eq_true_2; [done|by left].
      * rewrite bool_decide_eq_false_2; [done|].
        intros [->|?]%elem_of_cons; done.
Qed.

Lemma category_in_fields : utf8 "category" ∈ FIELD_NAMES.
Proof. unfold FIELD_NAMES. simpl. repeat (first [by left | right]). Qed.

Lemma category_url : utf8 "category" ≠ utf8 "source_url".
Proof. by vm_compute. Qed.

(** C9, as the code has it.  [normalize_record] returns a mapping with the
    ten field names; a key of the partial other than [category] and
    [source_url] keeps the partial's value; a field the partial lacks is
    [None]; [category] is the partial's when that is true, else the one
    passed in when that is true, else what the partial holds under the key
    (a false value such as the empty string) or [None] if it holds
    nothing; [source_url] is the partial's when that is true, else the one
    passed in. *)
Theorem normalize_record_fields (partial : dict) (category : option str) (source_url : str) :
  let r := normalize_record partial category source_url in
  let pc := get partial (utf8 "category") in
  let pu := get partial (utf8 "source_url") in
  (∀ f, f ∈ FIELD_NAMES → is_Some (r !! f)) ∧
  (∀ k v, partial !! k = Some v → k ≠ utf8 "category" → k ≠ utf8 "source_url" →
     r !! k = Some v) ∧
  (∀ f, f ∈ FIELD_NAMES → partial !! f = None →
     f ≠ utf8 "category" → f ≠ utf8 "source_url" → r !! f = Some VNone) ∧
  r !! utf8 "category" =
    Some (if truthy pc then pc
          else if truthy (of_opt_str category) then of_opt_str category
          else pc) ∧
  r !! utf8 "source_url" = Some (if truthy pu then pu else VStr source_url).
Proof.
  intros r pc pu. pose proof category_url as Hcu.
  assert (Hother : ∀ k, k ≠ utf8 "category" → k ≠ utf8 "source_url" →
    r !! k = match partial !! k with
             | Some v => Some v
             | None => if bool_decide (k ∈ FIELD_NAMES) then Some VNone else None
             end).
  { intros k H1 H2. unfold r, normalize_record.
    rewrite !lookup_insert_ne by done. rewrite lookup_union, fields_lookup.
    rewrite lookup_empty. destruct (partial !! k); by case_bool_decide. }
  assert (Hcat : r !! utf8 "category" =
    Some (if truthy pc then pc
          else if truthy (of_opt_str category) then of_opt_str category
          else pc)).
  { unfold r, normalize_record. rewrite lookup_insert_ne by done.
    rewrite lookup_insert_eq. f_equal. unfold or_, getitem. fold pc.
    rewrite lookup_union, fields_lookup.
    rewrite bool_decide_eq_true_2 by apply category_in_fields.
    destruct (truthy pc) eqn:Hpc; [by rewrite Hpc|].
    destruct (truthy (of_opt_str category)) eqn:Hc; [done|].
    unfold pc, get. by destruct (partial !! utf8 "category"). }
  assert (Hurl : r !! utf8 "source_url" = Some (if truthy pu then pu else VStr source_url)).
  { unfold r, normalize_record. by rewrite lookup_insert_eq. }
  split_and!; try done.
  - intros f Hf. destruct (decide (f = utf8 "category")) as [->|H1]; [by rewrite Hcat|].
    destruct (decide (f = utf8 "source_url")) as [->|H2]; [by rewrite Hurl|].
    rewrite Hother by done. destruct (partial !! f); [done|].
    by rewrite bool_decide_eq_true_2.
  - intros k v Hk H1 H2. by rewrite Hother, Hk.
  - intros f Hf Hk H1 H2. rewrite Hother, Hk by done. by rewrite bool_decide_eq_true_2.
Qed.

(** C9 as stated fails: a partial whose category is the empty string,
    with no category passed in, keeps the empty string, not [None]. *)
Lemma normalize_record_empty_category :
  normalize_record (<[utf8 "category" := VStr []]> ∅) None (utf8 "https://example.org/")
    !! utf8 "category" = Some (VStr []).
Proof. by vm_compute. Qed.

End TextClaims.

(** * Visible text *)

Section VisibleText.
Import Py Bs4.

Lemma drop_while_snoc {A} (p : A → bool) l c :
  p c = false → drop_while p (l ++ [c]) = drop_while p l ++ [c].
Proof.
  intros Hc. induction l as [|x l IH]; simpl.
  - by rewrite Hc.
  - by destruct (p x).
Qed.

Lemma rstrip_prefix u : ∃ t, u = rstrip u ++ t.
Proof.
  unfold rstrip, lstrip. exists (rev (take_while isspace (rev u))).
  rewrite <- rev_app_distr, <- take_drop_while. by rewrite rev_involutive.
Qed.

(** What [strip] leaves starts with a character that is not whitespace. *)
Lemma strip_head s c t : strip s = c :: t → isspace c = false.
Proof.
  unfold strip. intros H.
  destruct (rstrip_prefix (lstrip s)) as [t' Ht']. rewrite H in Ht'.
  apply (drop_while_head isspace s). unfold lstrip in Ht'. by rewrite Ht'.
Qed.

(** [strip] keeps a first character that is not whitespace. *)
Lemma strip_keeps_head c x : isspace c = false → ∃ y, strip (c :: x) = c :: y.
Proof.
  intros Hc. unfold strip. rewrite lstrip_id by done.
  unfold rstrip, lstrip. simpl rev.
  rewrite drop_while_snoc by done. rewrite rev_app_distr. simpl. eauto.
Qed.

Lemma split_go_head sep skip s : ∀ cur,
  ∃ x, hd [] (split_go sep cur skip s) = rev cur ++ x.
Proof.
  revert skip. induction s as [|c s IH]; intros skip cur; simpl.
  - exists []. by rewrite app_nil_r.
  - destruct skip as [|k]; [|apply IH].
    destruct (startswith sep (c :: s)).
    + exists []. by rewrite app_nil_r.
    + destruct (IH O (c :: cur)) as [x Hx]. exists (c :: x).
      rewrite Hx. simpl. by rewrite <- app_assoc.
Qed.

(** The first piece of a text that does not start with the separator's
    first character keeps the first character of the text. *)
Lemma split_head sep0 sep c t :
  c ≠ sep0 → ∃ x, hd [] (Py.split (sep0 :: sep) (c :: t)) = c :: x.
Proof.
  intros Hc. unfold Py.split. simpl.
  assert ((sep0 =? c) = false) as -> by (apply N.eqb_neq; congruence).
  simpl. destruct (split_go_head (sep0 :: sep) O t [c]) as [x Hx].
  exists x. by rewrite Hx.
Qed.

Lemma join_head sep p ps c t : p = c :: t → ∃ y, join sep (p :: ps) = c :: y.
Proof. intros ->. destruct ps; simpl; eauto. Qed.

Lemma strings_stripped e :
  Forall (fun s => ∃ c t, s = c :: t ∧ isspace c = false) (strings true e).
Proof.
  unfold strings. induction (below e) as [|d l IH]; simpl; [constructor|].
  apply Forall_app. split; [|exact IH].
  destruct (enode d); try constructor.
  destruct (strip s) as [|c t] eqn:Hs; constructor; [|constructor].
  exists c, t. split; [done|]. by eapply strip_head.
Qed.

(** Stripped visible text starts with a character that is not
    whitespace. *)
Lemma get_text_head sep e c t :
  get_text sep true e = c :: t → isspace c = false.
Proof.
  unfold get_text. pose proof (strings_stripped e) as H.
  destruct (strings true e) as [|p ps]; [done|].
  apply Forall_cons in H as [(c' & t' & Hp & Hc') _].
  destruct (join_head sep p ps c' t' Hp) as [y Hy]. intros E.
  pose proof (eq_trans (eq_sym Hy) E) as [= <- _]. done.
Qed.

End VisibleText.

(** * Investor cards *)

Section Investors.
Import Py Bs4 Record investor_parser main PageSpec.

Lemma space_is_space : isspace 32 = true.
Proof. reflexivity. Qed.

Lemma first_word_nonempty c t :
  isspace c = false → ∃ y, first_word (c :: t) = c :: y.
Proof.
  intros Hc. unfold first_word.
  assert (Hne : c ≠ 32) by (intros ->; by rewrite space_is_space in Hc).
  change (utf8 "  ") with [32; 32]. change (utf8 " ") with [32].
  destruct (split_head 32 [32] c t Hne) as [x ->].
  destruct (strip_keeps_head c x Hc) as [y ->].
  destruct (split_head 32 [] c y Hne) as [x' ->].
  by apply strip_keeps_head.
Qed.

(** The name of a card with text is a string that is not empty. *)
Lemma investor_name_nonempty card :
  has_text card = true →
  ∃ c t, investor_name_of card (get_text (utf8 " ") true card) = VStr (c :: t).
Proof.
  unfold has_text, investor_name_of.
  destruct (get_text (utf8 " ") true card) as [|c t] eqn:Ht; [done|]. intros _.
  pose proof (get_text_head _ _ _ _ Ht) as Hc.
  destruct (first_word_nonempty c t Hc) as [y Hy].
  destruct (name_elem_of card) as [name_elem|]; simpl.
  - destruct (get_text [] true name_elem) as [|c' t']; simpl; [rewrite Hy|]; eauto.
  - rewrite Hy. eauto.
Qed.

Lemma card_loop url cat cards : ∀ records,
  fold_left (card_step url cat) cards records =
    records ++ (card_record url cat <$> List.filter has_text cards).
Proof.
  induction cards as [|card cards IH]; intros records; cbn [fold_left List.filter].
  - by rewrite app_nil_r.
  - rewrite IH.
    assert (Hstep : card_step url cat records card =
      records ++ (if has_text card then [card_record url cat card] else [])).
    { unfold card_step, has_text, card_record.
      destruct (get_text (utf8 " ") true card); [by rewrite app_nil_r|done]. }
    rewrite Hstep. destruct (has_text card).
    + by rewrite <- app_assoc.
    + by rewrite app_nil_r.
Qed.

End Investors.

(** * Identity of tree objects *)

Section TreeIdentity.
Import Py Bs4.

Lemma node_children_ind (P : node → Prop) :
  (∀ name attrs cs, Forall P cs → P (Tag name attrs cs)) →
  (∀ s, P (Text s)) → (∀ s, P (Comment s)) → ∀ n, P n.
Proof.
  intros HT Ht Hc. fix IH 1. intros [name attrs cs|s|s]; [|apply Ht|apply Hc].
  apply HT. induction cs as [|c cs IHcs]; constructor; [apply IH|apply IHcs].
Qed.

Lemma walk_under f path cs :
  Forall (fun c => ∀ p, Forall (under_from p O) (f p c)) cs →
  ∀ i, Forall (under_from path i) (walk f path i cs).
Proof.
  induction 1 as [|c cs Hc _ IH]; intros i; cbn [walk]; constructor.
  - exists i, []. split; [lia|done].
  - apply Forall_app. split.
    + eapply Forall_impl; [apply Hc|]. intros e (j & rest & _ & He).
      exists i, (j :: rest). split; [lia|]. by rewrite He, <- app_assoc.
    + eapply Forall_impl; [apply (IH (S i))|]. intros e (j & rest & Hj & He).
      exists j, rest. split; [lia|done].
Qed.

Lemma descendants_under n : ∀ path, Forall (under_from path O) (descendants path n).
Proof.
  induction n as [name attrs cs IH|s|s] using node_children_ind; intros path;
    cbn [descendants]; try constructor.
  by apply walk_under.
Qed.

Lemma walk_NoDup f path cs :
  Forall (fun c => ∀ p, Forall (under_from p O) (f p c) ∧ NoDup (eid <$> f p c)) cs →
  ∀ i, NoDup (eid <$> walk f path i cs).
Proof.
  intros H.
  assert (Hu : Forall (fun c => ∀ p, Forall (under_from p O) (f p c)) cs).
  { eapply Forall_impl; [exact H|]. intros c Hc p. apply Hc. }
  induction H as [|c cs Hc H IH]; intros i; cbn [walk fmap list_fmap]; [constructor|].
  apply Forall_cons in Hu as [Huc Hu].
  pose proof (walk_under f path cs Hu (S i)) as Hlater.
  rewrite fmap_app. constructor.
  - rewrite elem_of_app. intros [Hin|Hin].
    + apply list_elem_of_fmap in Hin as (e & He & Hin). cbn [eid] in He.
      pose proof (Huc (path ++ [i])) as Hd. rewrite Forall_forall in Hd.
      destruct (Hd e Hin) as (j & rest & _ & Hj). rewrite Hj in He.
      apply (f_equal length) in He. rewrite !length_app in He. simpl in He. lia.
    + apply list_elem_of_fmap in Hin as (e & He & Hin). cbn [eid] in He.
      rewrite Forall_forall in Hlater. destruct (Hlater e Hin) as (j & rest & Hj & Hid).
      rewrite Hid in He. apply app_inv_head in He. injection He as -> _. lia.
  - apply NoDup_app. split_and!.
    + apply Hc.
    + intros x Hx1 Hx2.
      apply list_elem_of_fmap in Hx1 as (e1 & -> & Hin1).
      apply list_elem_of_fmap in Hx2 as (e2 & He & Hin2).
      pose proof (Huc (path ++ [i])) as Hd. rewrite Forall_forall in Hd.
      destruct (Hd e1 Hin1) as (j1 & r1 & _ & H1).
      rewrite Forall_forall in Hlater. destruct (Hlater e2 Hin2) as (j2 & r2 & Hj2 & H2).
      rewrite H1, H2, <- app_assoc in He. apply app_inv_head in He.
      injection He as -> _. lia.
    + by apply IH.
Qed.

(** Distinct tree objects have distinct places: the list of everything
    below a node names no place twice. *)
Lemma descendants_NoDup n : ∀ path, NoDup (eid <$> descendants path n).
Proof.
  induction n as [name attrs cs IH|s|s] using node_children_ind; intros path;
    cbn [descendants]; try constructor.
  apply walk_NoDup. eapply Forall_impl; [exact IH|].
  intros c Hc p. split; [apply descendants_under|apply Hc].
Qed.

Lemma NoDup_fmap_filter {A B} (f : A → B) (p : A → bool) l :
  NoDup (f <$> l) → NoDup (f <$> List.filter p l).
Proof.
  induction l as [|x l IH]; [done|]. cbn [fmap list_fmap List.filter].
  intros [Hx Hl]%NoDup_cons. destruct (p x); [|by apply IH].
  cbn [fmap list_fmap]. constructor; [|by apply IH].
  intros (y & Hy & Hin)%list_elem_of_fmap. apply Hx.
  apply list_elem_of_fmap. exists y. split; [done|].
  apply list_elem_of_In, filter_In in Hin as [Hin _]. by apply list_elem_of_In.
Qed.

(** A query lists each tree object once. *)
Lemma find_all_NoDup p e : NoDup (eid <$> find_all p e).
Proof. apply NoDup_fmap_filter, descendants_NoDup. Qed.

End TreeIdentity.

(** * Records *)

Section Records.
Import Py Bs4 Record stock_parser investor_parser post_parser main PageSpec.

Lemma dict_fold_keys (items : list (str * val)) : ∀ (d : dict) k,
  is_Some (fold_left (fun d kv => <[fst kv := snd kv]> d) items d !! k) ↔
  k ∈ items.*1 ∨ is_Some (d !! k).
Proof.
  induction items as [|[k0 v0] items IH]; intros d k; cbn [fold_left fmap list_fmap].
  - split; [by right|]. intros [H|H]; [|done]. by apply elem_of_nil in H.
  - rewrite IH. cbn [fst snd]. rewrite lookup_insert. rewrite elem_of_cons.
    case_decide as Hk.
    + subst. split; [intros _; by left; left|intros _; right; by eauto].
    + split; [intros [?|?]; auto|]. intros [[?|?]|?]; auto. congruence.
Qed.

Lemma dict_of_keys items k : is_Some (dict_of items !! k) ↔ k ∈ items.*1.
Proof.
  unfold dict_of. rewrite dict_fold_keys. rewrite lookup_empty.
  split; [intros [?|[? ?]]; done|by left].
Qed.

Lemma stock_record_fields name ticker cat url :
  let r := stock_record name ticker cat url in
  all_fields r ∧
  null_at ["investor_name"; "investor_stats"; "post_content"; "comment_text";
           "likes_count"; "post_date"]%string r ∧
  r !! utf8 "stock_name" = Some (of_opt_str name) ∧
  r !! utf8 "ticker" = Some (of_opt_str ticker) ∧
  r !! utf8 "category" = Some (of_opt_str cat) ∧
  r !! utf8 "source_url" = Some (VStr url).
Proof.
  intros r. split; [|split].
  - intros k. unfold r, stock_record. rewrite dict_of_keys. reflexivity.
  - intros k Hk. unfold r. repeat (apply elem_of_cons in Hk as [->|Hk]; [by vm_compute|]).
    by apply elem_of_nil in Hk.
  - unfold r. by vm_compute.
Qed.

Lemma investor_record_fields name stats cat url :
  let r := investor_record name stats cat url in
  all_fields r ∧
  null_at ["stock_name"; "ticker"; "post_content"; "comment_text";
           "likes_count"; "post_date"]%string r ∧
  r !! utf8 "investor_name" = Some name ∧
  r !! utf8 "investor_stats" = Some stats ∧
  r !! utf8 "category" = Some (of_opt_str cat) ∧
  r !! utf8 "source_url" = Some (VStr url).
Proof.
  intros r. split; [|split].
  - intros k. unfold r, investor_record. rewrite dict_of_keys. reflexivity.
  - intros k Hk. unfold r. repeat (apply elem_of_cons in Hk as [->|Hk]; [by vm_compute|]).
    by apply elem_of_nil in Hk.
  - unfold r. by vm_compute.
Qed.

Lemma post_record_fields body comment likes date cat url :
  let r := post_record body comment likes date cat url in
  all_fields r ∧
  null_at ["stock_name"; "ticker"; "investor_name"; "investor_stats"]%string r ∧
  r !! utf8 "post_content" = Some (VStr body) ∧
  r !! utf8 "comment_text" = Some comment ∧
  r !! utf8 "likes_count" = Some (of_opt_int likes) ∧
  r !! utf8 "post_date" = Some (of_opt_str date) ∧
  r !! utf8 "category" = Some (of_opt_str cat) ∧
  r !! utf8 "source_url" = Some (VStr url).
Proof.
  intros r. split; [|split].
  - intros k. unfold r, post_record. rewrite dict_of_keys. reflexivity.
  - intros k Hk. unfold r. repeat (apply elem_of_cons in Hk as [->|Hk]; [by vm_compute|]).
    by apply elem_of_nil in Hk.
  - unfold r. by vm_compute.
Qed.

End Records.

(** * Posts and comments *)

Section PostLoops.
Import Py Bs4 Record post_parser PageSpec.
Variable fromisoformat : str → bool.

Lemma comment_loop url cat body ts comments : ∀ records,
  fold_left (comment_step fromisoformat url cat body ts) comments records =
    records ++ (comment_record fromisoformat url cat body ts
                  <$> List.filter (survives body) comments).
Proof.
  induction comments as [|c comments IH]; intros records; cbn [fold_left List.filter].
  - by rewrite app_nil_r.
  - rewrite IH.
    assert (Hstep : comment_step fromisoformat url cat body ts records c =
      records ++ (if survives body c
                  then [comment_record fromisoformat url cat body ts c] else [])).
    { unfold comment_step, survives, comment_record.
      destruct (comment_text_of c) as [|x t]; cbn [negb andb orb].
      - by rewrite app_nil_r.
      - destruct (str_eqb (x :: t) body); cbn [negb]; [by rewrite app_nil_r|].
        by destruct (find (named "time") c). }
    rewrite Hstep. destruct (survives body c).
    + by rewrite <- app_assoc.
    + by rewrite app_nil_r.
Qed.

Lemma post_step_block url cat records post :
  post_step fromisoformat url cat records post =
    records ++ post_block fromisoformat url cat post.
Proof.
  unfold post_step, post_block, has_text, base_record.
  destruct (get_text (utf8 " ") true post).
  - by rewrite app_nil_r.
  - cbv zeta. rewrite comment_loop. by rewrite <- app_assoc.
Qed.

Lemma post_loop url cat posts : ∀ records,
  fold_left (post_step fromisoformat url cat) posts records =
    records ++ concat (post_block fromisoformat url cat <$> posts).
Proof.
  induction posts as [|p posts IH]; intros records; cbn [fold_left].
  - by rewrite app_nil_r.
  - rewrite IH, post_step_block. by rewrite <- app_assoc.
Qed.

End PostLoops.

Section FirstSeen.
Import Py Bs4 post_parser PageSpec.

Lemma filter_filter_ext {A} (p q r : A → bool) l :
  (∀ x, p x = q x && r x) → List.filter p l = List.filter q (List.filter r l).
Proof.
  intros H. induction l as [|x l IH]; [done|]. simpl. rewrite H.
  destruct (r x); simpl.
  - destruct (q x); simpl; by rewrite IH.
  - by rewrite andb_false_r.
Qed.

Lemma seen_loop l : ∀ (seen : gset (list nat)) uniq,
  (fold_left seen_step l (seen, uniq)).2 =
    uniq ++ List.filter (fun x => negb (bool_decide (eid x ∈ seen))) (first_seen l).
Proof.
  induction l as [|e l IH]; intros seen uniq; cbn [fold_left first_seen List.filter].
  - by rewrite app_nil_r.
  - unfold seen_step at 2. cbn [fst snd]. case_bool_decide as Hin; cbn [negb].
    + rewrite IH. f_equal. apply filter_filter_ext.
      intros x. case_bool_decide as Hx; cbn [negb andb]; [done|].
      rewrite bool_decide_eq_false_2; [done|]. intros Heq. congruence.
    + rewrite IH, <- app_assoc. cbn [app]. do 2 f_equal.
      apply filter_filter_ext.
      intros x. rewrite <- negb_orb, <- bool_decide_or. f_equal.
      apply bool_decide_ext. rewrite elem_of_union, elem_of_singleton. tauto.
Qed.

(** The loop over the candidates keeps the first appearance of each. *)
Lemma uniq_posts_first_seen soup : uniq_posts soup = first_seen (post_elements soup).
Proof.
  unfold uniq_posts. rewrite seen_loop. cbn [app].
  induction (first_seen (post_elements soup)) as [|x l IH]; [done|].
  cbn [List.filter]. rewrite bool_decide_eq_false_2 by apply not_elem_of_empty.
  cbn [negb]. by rewrite IH.
Qed.

Lemma first_seen_sub l e : e ∈ first_seen l → e ∈ l.
Proof.
  revert e. induction l as [|x l IH]; intros e; cbn [first_seen]; [done|].
  rewrite !elem_of_cons. intros [->|H]; [by left|]. right. apply IH.
  apply list_elem_of_In in H. apply filter_In in H as [H _]. by apply list_elem_of_In.
Qed.

Lemma first_seen_covers l e : e ∈ l → eid e ∈ eid <$> first_seen l.
Proof.
  induction l as [|x l IH]; cbn [first_seen]; [by intros ?%elem_of_nil|].
  rewrite elem_of_cons. intros [->|H]; cbn [fmap list_fmap]; [by left|].
  destruct (decide (eid e = eid x)) as [Heq|Hne]; [rewrite Heq; by left|].
  right. apply IH in H. apply list_elem_of_fmap in H as (y & Hy & Hin).
  apply list_elem_of_fmap. exists y. split; [done|].
  apply list_elem_of_In. apply filter_In. split; [by apply list_elem_of_In|].
  rewrite bool_decide_eq_false_2; [done|]. congruence.
Qed.

Lemma first_seen_NoDup l : NoDup (eid <$> first_seen l).
Proof.
  induction l as [|x l IH]; cbn [first_seen fmap list_fmap]; constructor.
  - intros (y & Hy & Hin)%list_elem_of_fmap.
    apply list_elem_of_In, filter_In in Hin as [_ Hf].
    rewrite bool_decide_eq_true_2 in Hf; done.
  - clear -IH. induction (first_seen l) as [|y l' IH']; [constructor|].
    cbn [List.filter]. cbn [fmap list_fmap] in IH. apply NoDup_cons in IH as [Hy Hl'].
    destruct (negb (bool_decide (eid y = eid x))); [|by apply IH'].
    cbn [fmap list_fmap]. constructor; [|by apply IH'].
    intros (z & Hz & Hin)%list_elem_of_fmap. apply Hy.
    apply list_elem_of_fmap. exists z. split; [done|].
    apply list_elem_of_In, filter_In in Hin as [Hin _]. by apply list_elem_of_In.
Qed.

End FirstSeen.

(** * Claims on the page extractors *)

Section PageClaims.
Import Py Bs4 Record stock_parser investor_parser post_parser main PageSpec.

Lemma str_eqb_eq a : ∀ b, str_eqb a b = true ↔ a = b.
Proof.
  induction a as [|x a IH]; intros [|y b]; simpl; try done.
  rewrite andb_true_iff, N.eqb_eq, IH. split; [by intros [-> ->]|by intros [= -> ->]].
Qed.

Lemma survives_iff body c :
  survives body c = true ↔ comment_text_of c ≠ [] ∧ comment_text_of c ≠ body.
Proof.
  unfold survives. destruct (comment_text_of c) as [|x t].
  - cbn [negb andb]. split; [done|]. by intros [? _].
  - cbn [negb andb]. rewrite negb_true_iff. split.
    + intros Hf. split; [done|]. intros Heq. apply str_eqb_eq in Heq. congruence.
    + intros [_ Hne]. apply not_true_is_false. intros Ht. by apply str_eqb_eq in Ht.
Qed.

Lemma post_elements_app soup :
  post_elements soup =
    find_all (class_contains "post") soup ++
    find_all (class_contains "feed-item") soup ++
    find_all (class_contains "status") soup.
Proof.
  unfold post_elements, post_selectors. cbn [fold_left].
  by rewrite app_nil_l, <- app_assoc.
Qed.

Lemma parse_posts_blocks fromiso soup url cat :
  parse_posts_page fromiso soup url cat =
    concat (post_block fromiso url cat <$> first_seen (post_elements (root soup))).
Proof.
  unfold parse_posts_page. by rewrite post_loop, uniq_posts_first_seen.
Qed.

(** C10.  The records [parse_posts_page] returns are the blocks of the
    posts, one after the other: the posts are the candidates of the three
    class selectors in selector order, each kept at its first appearance
    (tree objects are told apart by identity, and one selector lists an
    object once); the block of a post is empty when the post has no text,
    else its own record followed by the records of its comments that
    count, in document order.  So a post's record comes before its comment
    records and after every record of an earlier post. *)
Theorem posts_in_order (fromisoformat : str → bool) (soup : node) (url : str)
    (cat : option str) :
  let candidates :=
    find_all (class_contains "post") (root soup) ++
    find_all (class_contains "feed-item") (root soup) ++
    find_all (class_contains "status") (root soup) in
  let posts := first_seen candidates in
  let block := post_block fromisoformat url cat in
  parse_posts_page fromisoformat soup url cat = concat (block <$> posts) ∧
  (∀ p, NoDup (eid <$> find_all p (root soup))) ∧
  NoDup (eid <$> posts) ∧
  (∀ e, e ∈ posts → e ∈ candidates) ∧
  (∀ e, e ∈ candidates → eid e ∈ eid <$> posts) ∧
  (∀ earlier post later, posts = earlier ++ post :: later →
     parse_posts_page fromisoformat soup url cat =
       concat (block <$> earlier) ++ block post ++ concat (block <$> later)) ∧
  (∀ post, has_text post = false → block post = []) ∧
  (∀ post, has_text post = true →
     block post =
       base_record fromisoformat url cat post ::
         (comment_record fromisoformat url cat (body_of post)
            (timestamp_of fromisoformat post)
          <$> List.filter (survives (body_of post))
                (find_all (class_contains "comment") post))) ∧
  content_and_comment <$> parse_posts_page fromisoformat feed_page url cat =
    [ (Some (VStr (utf8 "Second")), Some VNone);
      (Some (VStr (utf8 "Second")), Some (VStr (utf8 "c")));
      (Some (VStr (utf8 "First")), Some VNone);
      (Some (VStr (utf8 "First")), Some (VStr (utf8 "a")));
      (Some (VStr (utf8 "First")), Some (VStr (utf8 "b"))) ].
Proof.
  intros candidates posts block.
  assert (Hall : parse_posts_page fromisoformat soup url cat = concat (block <$> posts)).
  { rewrite parse_posts_blocks. unfold posts, candidates. by rewrite post_elements_app. }
  split_and!.
  - exact Hall.
  - intros p. apply find_all_NoDup.
  - apply first_seen_NoDup.
  - intros e. apply first_seen_sub.
  - intros e. apply first_seen_covers.
  - intros earlier post later Hp. rewrite Hall, Hp.
    rewrite fmap_app, concat_app. by cbn [fmap list_fmap concat].
  - intros post Ht. unfold block, post_block. by rewrite Ht.
  - intros post Ht. unfold block, post_block. by rewrite Ht.
  - vm_compute. reflexivity.
Qed.

(** C4.  For a post with text, [post_step] adds the post's record and then
    one record for each comment element below the post whose text is not
    empty and differs from the post body, and for no other; a comment
    record carries the post body as [post_content] and its own text as
    [comment_text].  A page with one post and two comment elements, one
    repeating the post body, gives two records: the post's, with
    [comment_text] [None], and the other comment's. *)
Theorem comments_kept (fromisoformat : str → bool) (url : str) (cat : option str) :
  (∀ records post, has_text post = true →
     post_step fromisoformat url cat records post =
       records ++
       base_record fromisoformat url cat post ::
         (comment_record fromisoformat url cat (body_of post)
            (timestamp_of fromisoformat post)
          <$> List.filter (survives (body_of post))
                (find_all (class_contains "comment") post))) ∧
  (∀ body c, survives body c = true ↔
     comment_text_of c ≠ [] ∧ comment_text_of c ≠ body) ∧
  (∀ post, base_record fromisoformat url cat post !! utf8 "comment_text" = Some VNone) ∧
  (∀ body ts c,
     let r := comment_record fromisoformat url cat body ts c in
     r !! utf8 "post_content" = Some (VStr body) ∧
     r !! utf8 "comment_text" = Some (VStr (comment_text_of c))) ∧
  parse_posts_page fromisoformat post_page url cat =
    [ post_record (utf8 "Hello") VNone None None cat url;
      post_record (utf8 "Hello") (VStr (utf8 "Nice")) None None cat url ].
Proof.
  split_and!.
  - intros records post Ht. rewrite post_step_block. unfold post_block. by rewrite Ht.
  - apply survives_iff.
  - intros post. unfold base_record. apply post_record_fields.
  - intros body ts c r. unfold r, comment_record. split; apply post_record_fields.
  - vm_compute. reflexivity.
Qed.

(** C6.  [parse_investor_page] returns one record for each element matched
    by the card selectors (class containing [user] or [investor], or one of
    the two data attributes) that has visible text, in document order, and
    none for a matched element without text.  In every record
    [investor_name] is a string that is not empty: the name element's text
    when there is one with text, else the fallback, which on text that
    starts with a character other than whitespace keeps that character. *)
Theorem investor_records_per_card (soup : node) (url : str) (cat : option str) :
  let cards := find_all is_card (root soup) in
  parse_investor_page soup url cat = (card_record url cat <$> List.filter has_text cards) ∧
  length (parse_investor_page soup url cat) = length (List.filter has_text cards) ∧
  (∀ r, r ∈ parse_investor_page soup url cat →
     ∃ c t, r !! utf8 "investor_name" = Some (VStr (c :: t))) ∧
  (∀ card c t, get_text (utf8 " ") true card = c :: t →
     ∃ y, first_word (c :: t) = c :: y) ∧
  (fun r : dict => r !! utf8 "investor_name") <$> parse_investor_page investor_page url cat =
    [ Some (VStr (utf8 "Alice")); Some (VStr (utf8 "Bob")) ].
Proof.
  intros cards.
  assert (Hall : parse_investor_page soup url cat =
                 (card_record url cat <$> List.filter has_text cards)).
  { unfold parse_investor_page. by rewrite card_loop. }
  split_and!.
  - exact Hall.
  - by rewrite Hall, length_fmap.
  - intros r. rewrite Hall. intros (card & -> & Hin)%list_elem_of_fmap.
    apply list_elem_of_In, filter_In in Hin as [_ Ht].
    destruct (investor_name_nonempty card Ht) as (c & t & Hn).
    exists c, t. unfold card_record. rewrite <- Hn. apply investor_record_fields.
  - intros card c t Ht. apply first_word_nonempty. by eapply get_text_head.
  - vm_compute. reflexivity.
Qed.

(** C1.  Every record returned by [parse_stock_page], [parse_investor_page]
    and [parse_posts_page] holds exactly the ten field names; the fields
    the extractor does not fill are [None]; [source_url] is the URL passed
    in. *)
Theorem records_have_all_fields (fromisoformat : str → bool) (soup : node) (url : str)
    (cat : option str) :
  (∀ r, r ∈ parse_stock_page soup url cat →
     all_fields r ∧
     null_at ["investor_name"; "investor_stats"; "post_content"; "comment_text";
              "likes_count"; "post_date"]%string r ∧
     r !! utf8 "source_url" = Some (VStr url)) ∧
  (∀ r, r ∈ parse_investor_page soup url cat →
     all_fields r ∧
     null_at ["stock_name"; "ticker"; "post_content"; "comment_text";
              "likes_count"; "post_date"]%string r ∧
     r !! utf8 "source_url" = Some (VStr url)) ∧
  (∀ r, r ∈ parse_posts_page fromisoformat soup url cat →
     all_fields r ∧
     null_at ["stock_name"; "ticker"; "investor_name"; "investor_stats"]%string r ∧
     r !! utf8 "source_url" = Some (VStr url)) ∧
  length (parse_stock_page tsla_page url cat) = 1%nat ∧
  length (parse_investor_page investor_page url cat) = 2%nat ∧
  length (parse_posts_page fromisoformat feed_page url cat) = 5%nat.
Proof.
  split_and!.
  - intros r. unfold parse_stock_page.
    destruct (negb _ && negb _); [by intros ?%elem_of_nil|].
    intros ->%list_elem_of_singleton.
    split_and!; apply stock_record_fields.
  - intros r. unfold parse_investor_page. rewrite card_loop.
    intros (card & -> & _)%list_elem_of_fmap. unfold card_record.
    split_and!; apply investor_record_fields.
  - intros r. rewrite parse_posts_blocks.
    intros (block & Hb & Hr)%list_elem_of_In%in_concat.
    apply list_elem_of_In, list_elem_of_fmap in Hb as (post & -> & _).
    apply list_elem_of_In in Hr. unfold post_block in Hr. destruct (has_text post); [|by apply elem_of_nil in Hr].
    apply elem_of_cons in Hr as [->|(c & -> & _)%list_elem_of_fmap].
    + unfold base_record. split_and!; apply post_record_fields.
    + unfold comment_record. split_and!; apply post_record_fields.
  - vm_compute. reflexivity.
  - vm_compute. reflexivity.
  - vm_compute. reflexivity.
Qed.

End PageClaims.

(** * The ticker guess *)

Section Ticker.
Import Py Re ReSpec Bs4 Record stock_parser PageSpec.

Lemma search_go_cls p : ∀ s skipped b,
  (fun x => x.1.1) <$> search_go (Cls p) skipped b s =
    if forallb (fun c => negb (p c)) s then None
    else Some (rev skipped ++ take_while (fun c => negb (p c)) s).
Proof.
  induction s as [|c s IH]; intros skipped b; [done|].
  cbn [search_go]. unfold match_at. cbn [rmatch ahead groups forallb take_while].
  destruct (p c) eqn:Hc; cbn [negb andb].
  - cbn [fmap option_fmap option_map fst]. by rewrite app_nil_r.
  - rewrite IH. destruct (forallb _ s); [done|].
    cbn [rev]. by rewrite <- app_assoc.
Qed.

Lemma take_while_all_id {A} (p : A → bool) l : forallb p l = true → take_while p l = l.
Proof.
  induction l as [|x l IH]; [done|]. simpl. intros [-> H]%andb_true_iff.
  by rewrite IH.
Qed.

(** [re.split(...)[0]]: the text before the first match, or all of it. *)
Lemma split_first r s :
  hd [] (Re.split r s) = match search r s with Some (pre, _, _) => pre | None => s end.
Proof.
  unfold Re.split. cbn [scan]. fold (search r s).
  destruct (search r s) as [[[pre m] e]|]; [|done].
  destruct m as [|x m].
  - destruct (ahead e) as [|c s']; [done|].
    destruct (scan (length s) r (Some c) s') as [[|[pre' m'] ms] tl]; done.
  - by destruct (scan (length s) r (before e) (ahead e)).
Qed.

(** [re.findall(...)[0]]: the text of the first match. *)
Lemma findall_first r s :
  head (findall r s) = (fun x => x.1.2) <$> search r s.
Proof.
  unfold findall. cbn [scan]. fold (search r s).
  destruct (search r s) as [[[pre m] e]|]; [|done].
  destruct m as [|x m].
  - destruct (ahead e) as [|c s']; [done|].
    destruct (scan (length s) r (Some c) s') as [[|[pre' m'] ms] tl]; done.
  - by destruct (scan (length s) r (before e) (ahead e)).
Qed.

Lemma cleaned_split title :
  hd [] (Re.split delimiter_re title) = cleaned_title title.
Proof.
  rewrite split_first. unfold search, search_from, delimiter_re, cleaned_title.
  pose proof (search_go_cls delimiter title [] None) as H.
  destruct (search_go (Cls delimiter) [] None title) as [[[pre m] e]|];
    cbn [fmap option_fmap option_map fst] in H.
  - destruct (forallb _ title); [done|]. by injection H as ->.
  - destruct (forallb _ title) eqn:Hall; [|done]. by rewrite take_while_all_id.
Qed.

Lemma guess_ticker_search title :
  _guess_ticker_from_title title =
    (fun x => x.1.2) <$> search ticker_re (cleaned_title title).
Proof.
  unfold _guess_ticker_from_title. rewrite cleaned_split, findall_first.
  destruct title; [|done]. reflexivity.
Qed.

Lemma upper_is_word x : upper x = true → is_word x = true.
Proof.
  unfold upper, range, is_word, isalnum, is_ascii_alnum.
  change (ch "A") with 65. change (ch "Z") with 90. intros ->.
  by rewrite orb_true_r.
Qed.

Lemma before_after_last b w : w ≠ [] → before_after b w = last w.
Proof.
  intros Hw. unfold before_after. destruct (last w) eqn:E; [done|].
  by apply last_None in E.
Qed.

(** A match of the ticker pattern is a run of capitals between word
    boundaries. *)
Lemma den_ticker pre s e :
  den ticker_re (pos_after pre s) e ↔
  ∃ w, s = w ++ ahead e ∧ (1 ≤ length w ≤ 5)%nat ∧ forallb upper w = true ∧
       word_opt (last pre) = false ∧ word_opt (head (ahead e)) = false ∧
       before e = last w ∧ groups e = [].
Proof.
  unfold ticker_re, pos_after. cbn [seq_of den ahead before groups]. split.
  - intros (mid & [Hb1 ->] & mid2 & (w & Hs & Hup & Hlo & Hhi & Hbef & Hg) & Hb2 & He).
    subst mid2. cbn [ahead before groups] in *. exists w.
    assert (Hw : w ≠ []) by (intros ->; simpl in Hlo; lia).
    rewrite before_after_last in Hbef by done.
    destruct w as [|x w]; [done|].
    assert (Hx : is_word x = true).
    { apply upper_is_word. simpl in Hup. by apply andb_true_iff in Hup as [? _]. }
    split_and!; try done.
    + by apply Hhi.
    + unfold at_boundary in Hb1. cbn [before ahead] in Hb1. rewrite Hs in Hb1.
      cbn [head app word_opt] in Hb1. rewrite Hx in Hb1.
      by destruct (word_opt (last pre)).
    + unfold at_boundary in Hb2. rewrite Hbef in Hb2.
      destruct (last (x :: w)) as [y|] eqn:Hl; [|by apply last_None in Hl].
      pose proof (forallb_last _ _ _ Hup Hl) as Hy. apply upper_is_word in Hy.
      cbn [word_opt] in Hb2. rewrite Hy in Hb2.
      by destruct (word_opt (head (ahead e))).
  - intros (w & -> & [Hlo Hhi] & Hup & Hpre & Hpost & Hbef & Hg).
    assert (Hw : w ≠ []) by (intros ->; simpl in Hlo; lia).
    destruct w as [|x w]; [done|].
    assert (Hx : is_word x = true).
    { apply upper_is_word. simpl in Hup. by apply andb_true_iff in Hup as [? _]. }
    eexists. split.
    { split; [|done]. unfold at_boundary. cbn [before ahead head app word_opt].
      by rewrite Hpre, Hx. }
    exists e. split.
    { exists (x :: w). cbn [ahead before groups]. split_and!; try done.
      - by intros h [= <-].
      - by rewrite before_after_last. }
    split; [|done]. unfold at_boundary. rewrite Hbef.
    destruct (last (x :: w)) as [y|] eqn:Hl; [|by apply last_None in Hl].
    pose proof (forallb_last _ _ _ Hup Hl) as Hy. apply upper_is_word in Hy.
    cbn [word_opt]. by rewrite Hy, Hpost.
Qed.

Lemma ticker_run_den cleaned pre w :
  ticker_run cleaned pre w →
  ∃ s e, cleaned = pre ++ s ∧ den ticker_re (pos_after pre s) e.
Proof.
  intros (post & -> & Hlen & Hup & Hpre & Hpost).
  exists (w ++ post), (Pos (last w) post []). split; [done|].
  apply den_ticker. exists w. cbn [ahead before groups]. done.
Qed.

Lemma guess_ticker_Some title w :
  _guess_ticker_from_title title = Some w → first_ticker_run (cleaned_title title) w.
Proof.
  rewrite guess_ticker_search.
  destruct (search ticker_re (cleaned_title title)) as [[[pre m] e]|] eqn:Hs; [|done].
  cbn [fmap option_fmap option_map fst snd]. intros [= ->].
  apply search_Some in Hs as (s & Hc & Hd & Hm & Hleft).
  apply den_ticker in Hd as (w' & Hs' & Hlen & Hup & Hpre & Hpost & _).
  assert (w' = w) as -> by (rewrite Hs' in Hm; by apply app_inv_tail in Hm).
  exists pre. split.
  - exists (ahead e). rewrite Hc, Hs'. done.
  - intros pre' w'' Hrun. apply ticker_run_den in Hrun as (s'' & e'' & Hc'' & Hd'').
    destruct (decide (length pre' < length pre)%nat) as [Hlt|]; [|lia].
    exfalso. by eapply Hleft.
Qed.

Lemma guess_ticker_None title :
  _guess_ticker_from_title title = None ↔
  ∀ pre w, ¬ ticker_run (cleaned_title title) pre w.
Proof.
  split.
  - rewrite guess_ticker_search. intros H pre w Hrun.
    apply ticker_run_den in Hrun as (s & e & Hc & Hd).
    rewrite Hc in H. apply search_is_Some in Hd as [x Hx]. by rewrite Hx in H.
  - intros H. destruct (_guess_ticker_from_title title) as [w|] eqn:Hg; [|done].
    apply guess_ticker_Some in Hg as (pre & Hrun & _). by apply H in Hrun.
Qed.

Lemma ticker_run_same_start cleaned pre w1 w2 :
  ticker_run cleaned pre w1 → ticker_run cleaned pre w2 →
  (length w1 ≤ length w2)%nat → w1 = w2.
Proof.
  intros (post1 & -> & _ & _ & _ & Hp1) (post2 & E & _ & Hup2 & _ & _) Hlen.
  apply app_inv_head in E.
  apply app_eq_inv in E as [(k & -> & ->)|(k & -> & ->)].
  - rewrite length_app in Hlen. destruct k; [by rewrite app_nil_r|simpl in Hlen; lia].
  - destruct k as [|x k]; [by rewrite app_nil_r|].
    rewrite forallb_app in Hup2. apply andb_true_iff in Hup2 as [_ Hk].
    simpl in Hk. apply andb_true_iff in Hk as [Hx _].
    apply upper_is_word in Hx. simpl in Hp1. congruence.
Qed.

(** There is one first run at most. *)
Lemma first_ticker_run_unique cleaned w1 w2 :
  first_ticker_run cleaned w1 → first_ticker_run cleaned w2 → w1 = w2.
Proof.
  intros (pre1 & H1 & L1) (pre2 & H2 & L2).
  pose proof (L1 _ _ H2) as Hle1. pose proof (L2 _ _ H1) as Hle2.
  assert (pre1 = pre2) as ->.
  { destruct H1 as (post1 & E1 & _). destruct H2 as (post2 & E2 & _).
    rewrite E1 in E2. apply app_inj_1 in E2 as [? _]; [done|lia]. }
  destruct (decide (length w1 ≤ length w2)%nat).
  - by eapply ticker_run_same_start.
  - symmetry. eapply ticker_run_same_start; eauto. lia.
Qed.

Lemma guess_ticker_iff title w :
  _guess_ticker_from_title title = Some w ↔ first_ticker_run (cleaned_title title) w.
Proof.
  split; [apply guess_ticker_Some|]. intros Hw.
  destruct (_guess_ticker_from_title title) as [w'|] eqn:Hg.
  - apply guess_ticker_Some in Hg. f_equal. by eapply first_ticker_run_unique.
  - destruct Hw as (pre & Hrun & _). by eapply guess_ticker_None in Hg.
Qed.

(** The name is the first of the three candidates that is not empty. *)
Lemma stock_name_chain soup :
  stock_name_of soup =
    match og_title_of soup with
    | Some (c :: t) => Some (c :: t)
    | og =>
      match heading_of soup with
      | Some h => Some h
      | None => match title_of soup with Some t => Some t | None => og end
      end
    end.
Proof.
  unfold stock_name_of, og_title_of, heading_of, title_of.
  destruct (find (fun n => named "meta" n && attr_is "property" "og:title" n) soup) as [og|].
  - destruct (attr "content" (enode og)) as [[|c cs]|].
    + cbn [nonempty negb]. destruct (find (named "h1") soup) as [h1|].
      * destruct (get_text [] true h1); cbn [nonempty negb]; [|done].
        destruct (find (named "title") soup) as [ti|]; [|done].
        by destruct (string_ (enode ti)) as [[|]|].
      * cbn [nonempty negb]. destruct (find (named "title") soup) as [ti|]; [|done].
        by destruct (string_ (enode ti)) as [[|]|].
    + destruct (strip (c :: cs)) as [|x y]; cbn [nonempty negb]; [|done].
      destruct (find (named "h1") soup) as [h1|].
      * destruct (get_text [] true h1); cbn [nonempty negb]; [|done].
        destruct (find (named "title") soup) as [ti|]; [|done].
        by destruct (string_ (enode ti)) as [[|]|].
      * cbn [nonempty negb]. destruct (find (named "title") soup) as [ti|]; [|done].
        by destruct (string_ (enode ti)) as [[|]|].
    + cbn [nonempty negb]. destruct (find (named "h1") soup) as [h1|].
      * destruct (get_text [] true h1); cbn [nonempty negb]; [|done].
        destruct (find (named "title") soup) as [ti|]; [|done].
        by destruct (string_ (enode ti)) as [[|]|].
      * cbn [nonempty negb]. destruct (find (named "title") soup) as [ti|]; [|done].
        by destruct (string_ (enode ti)) as [[|]|].
  - cbn [nonempty negb]. destruct (find (named "h1") soup) as [h1|].
    + destruct (get_text [] true h1); cbn [nonempty negb]; [|done].
      destruct (find (named "title") soup) as [ti|]; [|done].
      by destruct (string_ (enode ti)) as [[|]|].
    + cbn [nonempty negb]. destruct (find (named "title") soup) as [ti|]; [|done].
      by destruct (string_ (enode ti)) as [[|]|].
Qed.

End Ticker.

(** * Claims on the stock page and on timestamps *)

Section StockClaims.
Import Py Re Bs4 Record Datetime stock_parser post_parser PageSpec.

Lemma nonempty_false (o : option str) : nonempty o = false ↔ o = None ∨ o = Some [].
Proof.
  destruct o as [[|c t]|]; simpl; split; auto; try done; intros [?|?]; done.
Qed.

(** C3, as the code has it.  [parse_stock_page] returns the empty list
    exactly when the name it derives (Open Graph title, else first [h1],
    else document title: the first candidate that is not empty) is [None]
    or the empty string, and then the ticker guess is [None] too; otherwise
    it returns exactly one record, with that name and the ticker guess.
    The ticker guess is the first run of one to five capitals between word
    boundaries in the name up to its first [(], [|], [-] or en dash, and
    [None] when there is no such run.  The page with Open Graph title
    ["TSLA (Tesla, Inc.)"] gives one record with ticker ["TSLA"]; a page
    without any of the three candidates gives the empty list. *)
Theorem stock_page_record (soup : node) (url : str) (cat : option str) :
  let name := stock_name_of (root soup) in
  let ticker := _guess_ticker_from_title (default [] name) in
  (parse_stock_page soup url cat = [] ↔ name = None ∨ name = Some []) ∧
  (name = None ∨ name = Some [] → ticker = None) ∧
  (∀ c t, name = Some (c :: t) →
     parse_stock_page soup url cat =
       [stock_record name ticker (resolve_category (root soup) cat) url]) ∧
  name =
    match og_title_of (root soup) with
    | Some (c :: t) => Some (c :: t)
    | og =>
      match heading_of (root soup) with
      | Some h => Some h
      | None => match title_of (root soup) with Some t => Some t | None => og end
      end
    end ∧
  (∀ title w, _guess_ticker_from_title title = Some w ↔
     first_ticker_run (cleaned_title title) w) ∧
  (∀ title, _guess_ticker_from_title title = None ↔
     ∀ pre w, ¬ ticker_run (cleaned_title title) pre w) ∧
  parse_stock_page tsla_page url cat =
    [stock_record (Some (utf8 "TSLA (Tesla, Inc.)")) (Some (utf8 "TSLA")) cat url] ∧
  (og_title_of (root soup) = None → heading_of (root soup) = None →
   title_of (root soup) = None → parse_stock_page soup url cat = []) ∧
  parse_stock_page untitled_page url cat = [].
Proof.
  intros name ticker.
  assert (Hnone : name = None ∨ name = Some [] → ticker = None).
  { unfold ticker. by intros [->| ->]. }
  assert (Hempty : parse_stock_page soup url cat = [] ↔ name = None ∨ name = Some []).
  { unfold parse_stock_page. fold name. fold ticker. split.
    - destruct (nonempty name) eqn:Hn; [done|]. intros _. by apply nonempty_false.
    - intros H. rewrite (Hnone H). apply nonempty_false in H. by rewrite H. }
  split_and!.
  - exact Hempty.
  - exact Hnone.
  - intros c t Hn. unfold parse_stock_page. fold name. fold ticker. by rewrite Hn.
  - apply stock_name_chain.
  - apply guess_ticker_iff.
  - apply guess_ticker_None.
  - destruct cat; vm_compute; reflexivity.
  - intros Hog Hh Ht. apply Hempty. left. unfold name.
    by rewrite stock_name_chain, Hog, Hh, Ht.
  - destruct cat; vm_compute; reflexivity.
Qed.

(** C3 as stated fails: with an Open Graph title of one space and no other
    candidate the derived name is the empty string, not [None], and the
    page still gives the empty list. *)
Lemma stock_page_blank_title :
  stock_name_of (root blank_title_page) = Some [] ∧
  parse_stock_page blank_title_page (utf8 "https://example.org/") None = [].
Proof. vm_compute. by split. Qed.

Lemma format_loop_suffix text fmts r :
  format_loop text fmts = Some r → ∃ dt, r = isoformat dt ++ utf8 "Z".
Proof.
  induction fmts as [|fmt fmts IH]; [done|]. cbn [format_loop].
  destruct (strptime text fmt); [|done]. intros [= <-]. eauto.
Qed.

(** C2 fails on the code: the offset form is suffixed too.  A [time]
    element whose text is ["2025-03-22T14:30:00+0100"] gives
    ["2025-03-22T14:30:00+01:00Z"], an offset followed by [Z]; in
    general every result taken from the text ends in [Z], whichever
    format matched.  The forms without offset are suffixed as the claim
    says, a text in none of the formats gives [None], and a [datetime]
    attribute that parses is returned as it is written. *)
Theorem parse_timestamp_offset_suffixed (fromisoformat : str → bool) :
  _parse_timestamp fromisoformat (Some (time_elem "2025-03-22T14:30:00+0100")) =
    Some (utf8 "2025-03-22T14:30:00+01:00Z") ∧
  (∀ e r, datetime_attr fromisoformat e = None →
     _parse_timestamp fromisoformat (Some e) = Some r →
     ∃ dt, r = isoformat dt ++ utf8 "Z") ∧
  _parse_timestamp fromisoformat (Some (time_elem "2025-03-22T14:30:00")) =
    Some (utf8 "2025-03-22T14:30:00Z") ∧
  _parse_timestamp fromisoformat (Some (time_elem "2025-03-22")) =
    Some (utf8 "2025-03-22T00:00:00Z") ∧
  _parse_timestamp fromisoformat (Some (time_elem "yesterday")) = None ∧
  (∀ e v, attr "datetime" (enode e) = Some v → strip v ≠ [] →
     fromisoformat (replace (utf8 "Z") (utf8 "+00:00") v) = true →
     _parse_timestamp fromisoformat (Some e) = Some v).
Proof.
  split_and!.
  - vm_compute. reflexivity.
  - intros e r Ha. unfold _parse_timestamp. rewrite Ha.
    destruct (get_text [] true e); [done|]. apply format_loop_suffix.
  - vm_compute. reflexivity.
  - vm_compute. reflexivity.
  - vm_compute. reflexivity.
  - intros e v Hv Hs Hf. unfold _parse_timestamp, datetime_attr. rewrite Hv.
    destruct (strip v); [done|]. by rewrite Hf.
Qed.

End StockClaims.

(** * The run over one page *)

Section Normalize.
Import Py Bs4 Record stock_parser investor_parser post_parser main PageSpec pipeline.

Lemma source_url_in_fields : utf8 "source_url" ∈ FIELD_NAMES.
Proof. apply list_elem_of_In. vm_compute. tauto. Qed.

(** Every key of a normalised record, read off the partial one. *)
Lemma normalize_lookup partial cat url k :
  normalize_record partial cat url !! k =
    if bool_decide (k = utf8 "source_url") then
      Some (or_ (get partial (utf8 "source_url")) (VStr url))
    else if bool_decide (k = utf8 "category") then
      Some (or_ (or_ (get partial (utf8 "category")) (of_opt_str cat))
                (get partial (utf8 "category")))
    else match partial !! k with
         | Some v => Some v
         | None => if bool_decide (k ∈ FIELD_NAMES) then Some VNone else None
         end.
Proof.
  unfold normalize_record, getitem.
  case_bool_decide as Hu.
  { subst k. by rewrite lookup_insert_eq. }
  rewrite lookup_insert_ne by done.
  case_bool_decide as Hc.
  { subst k. rewrite lookup_insert_eq. do 2 f_equal.
    unfold get. rewrite lookup_union, fields_lookup.
    rewrite bool_decide_eq_true_2 by apply category_in_fields.
    by destruct (partial !! utf8 "category"). }
  rewrite lookup_insert_ne by done.
  rewrite lookup_union, fields_lookup.
  destruct (partial !! k); case_bool_decide; by rewrite ?lookup_empty.
Qed.

Lemma or_same v : or_ v v = v.
Proof. unfold or_. by destruct (truthy v). Qed.

Lemma or_absorb v w : or_ (or_ v w) w = or_ v w.
Proof. unfold or_. destruct (truthy v) eqn:Hv, (truthy w) eqn:Hw; by rewrite ?Hv, ?Hw. Qed.

Lemma or_or_same v w :
  or_ (or_ (or_ (or_ v w) v) w) (or_ (or_ v w) v) = or_ (or_ v w) v.
Proof. unfold or_. destruct (truthy v) eqn:Hv, (truthy w) eqn:Hw; by rewrite ?Hv, ?Hw. Qed.

(** A record that has the ten fields, the URL of the run and the category
    of the run (or any category, when the run has none) is left as it
    is. *)
Lemma normalize_id r cat url :
  all_fields r → r !! utf8 "source_url" = Some (VStr url) →
  (cat = None ∨ r !! utf8 "category" = Some (of_opt_str cat)) →
  normalize_record r cat url = r.
Proof.
  intros Hall Hurl Hcat. apply map_eq. intros k. rewrite normalize_lookup.
  case_bool_decide as Hu.
  { subst k. unfold get. rewrite Hurl. simpl. by rewrite or_same. }
  case_bool_decide as Hc.
  { subst k. destruct (proj2 (Hall _) category_in_fields) as [pc Hpc].
    unfold get. rewrite Hpc. simpl. f_equal.
    destruct Hcat as [-> | Hcat].
    - simpl. unfold or_ at 2. destruct (truthy pc) eqn:Hp.
      + by rewrite or_same.
      + unfold or_. done.
    - rewrite Hpc in Hcat. injection Hcat as ->. by rewrite !or_same. }
  destruct (r !! k) eqn:Hk; [done|].
  case_bool_decide as Hf; [|done].
  apply Hall in Hf. rewrite Hk in Hf. by destruct Hf.
Qed.

Lemma stock_records_shape soup url cat r :
  r ∈ parse_stock_page soup url cat →
  ∃ c t ticker,
    stock_name_of (root soup) = Some (c :: t) ∧
    ticker = _guess_ticker_from_title (c :: t) ∧
    r = stock_record (Some (c :: t)) ticker (resolve_category (root soup) cat) url.
Proof.
  unfold parse_stock_page.
  destruct (stock_name_of (root soup)) as [[|c t]|] eqn:Hn; simpl.
  - intros H. by apply elem_of_nil in H.
  - intros H. apply list_elem_of_singleton in H. by exists c, t, (_guess_ticker_from_title (c :: t)).
  - intros H. by apply elem_of_nil in H.
Qed.

Lemma investor_records_shape soup url cat r :
  r ∈ parse_investor_page soup url cat →
  ∃ card, has_text card = true ∧ r = card_record url cat card.
Proof.
  unfold parse_investor_page. rewrite card_loop. simpl.
  intros H. apply list_elem_of_fmap in H as (card & -> & Hin).
  apply list_elem_of_In, filter_In in Hin as [_ Hin]. by exists card.
Qed.

Lemma post_records_shape fromiso soup url cat r :
  r ∈ parse_posts_page fromiso soup url cat →
  ∃ post, has_text post = true ∧
    (r = base_record fromiso url cat post ∨
     ∃ c, survives (body_of post) c = true ∧
          r = comment_record fromiso url cat (body_of post) (timestamp_of fromiso post) c).
Proof.
  rewrite parse_posts_blocks. intros H.
  apply list_elem_of_In, in_concat in H as (block & Hb & Hr).
  apply list_elem_of_In, list_elem_of_fmap in Hb as (post & -> & _).
  exists post. unfold post_block in Hr.
  destruct (has_text post); [|by destruct Hr].
  split; [done|]. destruct Hr as [<- | Hr]; [by left|right].
  apply list_elem_of_In, list_elem_of_fmap in Hr as (c & -> & Hc).
  apply list_elem_of_In, filter_In in Hc as [_ Hc]. by exists c.
Qed.

Lemma resolve_category_given soup c : resolve_category soup (Some c) = Some c.
Proof. done. Qed.

(** What the three extractors hand to [normalize_record]. *)
Lemma extractor_record_full fromiso soup url cat r :
  r ∈ parse_stock_page soup url cat ++ parse_investor_page soup url cat
        ++ parse_posts_page fromiso soup url cat →
  all_fields r ∧ r !! utf8 "source_url" = Some (VStr url) ∧
  (cat = None ∨ r !! utf8 "category" = Some (of_opt_str cat)).
Proof.
  rewrite !elem_of_app. intros [H | [H | H]].
  - apply stock_records_shape in H as (c & t & ticker & _ & _ & ->).
    destruct (stock_record_fields (Some (c :: t)) ticker
                (resolve_category (root soup) cat) url) as (Ha & _ & _ & _ & Hc & Hu).
    split_and!; [done..|]. destruct cat as [c0|]; [right|by left].
    by rewrite Hc.
  - apply investor_records_shape in H as (card & _ & ->).
    destruct (investor_record_fields
                (investor_name_of card (get_text (utf8 " ") true card))
                (_build_stats (get_text (utf8 " ") true card)) cat url)
      as (Ha & _ & _ & _ & Hc & Hu).
    split_and!; [done..|]. by right.
  - apply post_records_shape in H as (post & _ & [-> | (c & _ & ->)]).
    + destruct (post_record_fields (body_of post) VNone (likes_of post)
                  (timestamp_of fromiso post) cat url)
        as (Ha & _ & _ & _ & _ & _ & Hc & Hu).
      split_and!; [done..|]. by right.
    + unfold comment_record.
      match goal with |- context [post_record ?b ?cm ?l ?d cat url] =>
        destruct (post_record_fields b cm l d cat url)
          as (Ha & _ & _ & _ & _ & _ & Hc & Hu) end.
      split_and!; [done..|]. by right.
Qed.

Lemma fmap_id_on {A} (f : A → A) (l : list A) : (∀ x, x ∈ l → f x = x) → f <$> l = l.
Proof.
  induction l as [|a l IH]; intros H; [done|]. simpl. f_equal.
  - apply H. by left.
  - apply IH. intros x Hx. apply H. by right.
Qed.

(** A record of a run is a record of one of the three extractors. *)
Lemma process_url_members BeautifulSoup fromisoformat url category html r :
  r ∈ process_url BeautifulSoup fromisoformat url category html →
  r ∈ parse_stock_page (BeautifulSoup html) url category ++
      parse_investor_page (BeautifulSoup html) url category ++
      parse_posts_page fromisoformat (BeautifulSoup html) url category.
Proof.
  intros Hr. unfold process_url in Hr.
  destruct (strip html) as [|c0 t0]; [by apply elem_of_nil in Hr|].
  simpl in Hr. rewrite <- app_assoc, <- !fmap_app in Hr.
  apply list_elem_of_fmap in Hr as (r0 & -> & Hr0).
  pose proof (extractor_record_full _ _ _ _ _ Hr0) as (Ha & Hu & Hc).
  by rewrite normalize_id.
Qed.

(** X1 ([normalize_record]): normalising twice, with the same category and
    URL, gives what normalising once gives. *)
Theorem normalize_record_idempotent (partial : dict) (category : option str)
    (source_url : str) :
  normalize_record (normalize_record partial category source_url) category source_url =
    normalize_record partial category source_url.
Proof.
  apply map_eq. intros k. rewrite normalize_lookup.
  unfold get. rewrite !normalize_lookup.
  rewrite (bool_decide_eq_true_2 (utf8 "source_url" = utf8 "source_url")) by done.
  rewrite (bool_decide_eq_false_2 (utf8 "category" = utf8 "source_url"))
    by apply category_url.
  rewrite (bool_decide_eq_true_2 (utf8 "category" = utf8 "category")) by done.
  simpl.
  case_bool_decide as Hu.
  { f_equal. apply or_absorb. }
  case_bool_decide as Hc.
  { f_equal. apply or_or_same. }
  destruct (partial !! k) eqn:Hk; [done|].
  by case_bool_decide.
Qed.

(** X2 ([process_url]): a blank page gives no record; any other page gives
    the records of the stock extractor, then those of the investor
    extractor, then those of the posts extractor, each exactly as its
    extractor built it: [normalize_record] changes none of them. *)
Theorem process_url_concat (BeautifulSoup : str → node) (fromisoformat : str → bool)
    (url : str) (category : option str) (html : str) :
  process_url BeautifulSoup fromisoformat url category html =
    match strip html with
    | [] => []
    | _ =>
      parse_stock_page (BeautifulSoup html) url category ++
      parse_investor_page (BeautifulSoup html) url category ++
      parse_posts_page fromisoformat (BeautifulSoup html) url category
    end.
Proof.
  unfold process_url. destruct (strip html) as [|c t]; [done|].
  simpl. rewrite <- app_assoc, <- !fmap_app.
  apply fmap_id_on. intros r Hr.
  apply extractor_record_full in Hr as (Ha & Hu & Hc).
  by apply normalize_id.
Qed.

(** X3 ([process_url]): every record of a run over a page holds exactly
    the ten fields, carries the URL of the run and, when the run was given
    a category, that category; at most one of them comes from the stock
    extractor. *)
Theorem process_url_records (BeautifulSoup : str → node) (fromisoformat : str → bool)
    (url : str) (category : option str) (html : str) :
  (∀ r, r ∈ process_url BeautifulSoup fromisoformat url category html →
     all_fields r ∧ r !! utf8 "source_url" = Some (VStr url) ∧
     (∀ c, category = Some c → r !! utf8 "category" = Some (VStr c))) ∧
  (length (parse_stock_page (BeautifulSoup html) url category) ≤ 1)%nat ∧
  (strip html = [] → process_url BeautifulSoup fromisoformat url category html = []).
Proof.
  split_and!.
  - intros r Hr. apply process_url_members in Hr.
    apply extractor_record_full in Hr as (Ha & Hu & Hc).
    split_and!; [done..|]. intros c ->. by destruct Hc.
  - unfold parse_stock_page. destruct (_ && _); simpl; lia.
  - intros H. unfold process_url. by rewrite H.
Qed.

End Normalize.

(** * The input list and the CSV rows *)

Section Inputs.
Import Py Record main pipeline csv_exporter MoreSpec.







Section Rows.
Variable json_dumps : val → str.

Lemma flatten_scalar v : is_scalar (_flatten_value json_dumps v) = true.
Proof. by destruct v. Qed.

Lemma flat_row_loop record fieldnames : ∀ (row : dict) k,
  fold_left (fun row field => <[field := _flatten_value json_dumps (get record field)]> row)
            fieldnames row !! k =
    if bool_decide (k ∈ fieldnames)
    then Some (_flatten_value json_dumps (get record k))
    else row !! k.
Proof.
  induction fieldnames as [|f fs IH]; intros row k; cbn [fold_left].
  - by rewrite bool_decide_eq_false_2 by apply not_elem_of_nil.
  - rewrite IH. case_bool_decide as Hk.
    + rewrite bool_decide_eq_true_2; [done|by right].
    + destruct (decide (k = f)) as [->|Hne].
      * rewrite lookup_insert_eq. rewrite bool_decide_eq_true_2; [done|by left].
      * rewrite lookup_insert_ne by done.
        rewrite bool_decide_eq_false_2; [done|].
        rewrite elem_of_cons. tauto.
Qed.

Lemma flat_row_lookup fieldnames record k :
  flat_row json_dumps fieldnames record !! k =
    if bool_decide (k ∈ fieldnames)
    then Some (_flatten_value json_dumps (get record k))
    else None.
Proof. unfold flat_row. rewrite flat_row_loop. by rewrite lookup_empty. Qed.

End Rows.

(** X5 ([export_to_csv], [_flatten_value]): the row written for a record
    has exactly the columns named, whatever keys the record holds; every
    cell is a string, a number or a boolean; a string, number or boolean
    of the record is written as it is, a list or mapping as its JSON text,
    and a field that is null or missing as the empty string. *)
Theorem flat_row_cells (json_dumps : val → str) (fieldnames : list str) (record : dict) :
  let row := flat_row json_dumps fieldnames record in
  (∀ k, is_Some (row !! k) ↔ k ∈ fieldnames) ∧
  (∀ k v, row !! k = Some v → is_scalar v = true) ∧
  (∀ k v, k ∈ fieldnames → record !! k = Some v → is_scalar v = true →
     row !! k = Some v) ∧
  (∀ k v, k ∈ fieldnames → record !! k = Some v → is_scalar v = false → v ≠ VNone →
     row !! k = Some (VStr (json_dumps v))) ∧
  (∀ k, k ∈ fieldnames → record !! k = None ∨ record !! k = Some VNone →
     row !! k = Some (VStr [])).
Proof.
  intros row. subst row. split_and!.
  - intros k. rewrite flat_row_lookup. case_bool_decide as Hk.
    + split; [done|]. intros _. by eexists.
    + split; [|done]. intros [x Hx]. done.
  - intros k v. rewrite flat_row_lookup. case_bool_decide; [|done].
    intros [= <-]. apply flatten_scalar.
  - intros k v Hk Hv Hs. rewrite flat_row_lookup, bool_decide_eq_true_2 by done.
    unfold get. rewrite Hv. simpl. by destruct v.
  - intros k v Hk Hv Hs Hn. rewrite flat_row_lookup, bool_decide_eq_true_2 by done.
    unfold get. rewrite Hv. simpl. by destruct v.
  - intros k Hk Hv. rewrite flat_row_lookup, bool_decide_eq_true_2 by done.
    unfold get. by destruct Hv as [-> | ->].
Qed.

End Inputs.

(** * The risk score, as the two patterns read *)

Section Risk.
Import Py Re ReSpec investor_text ReturnSpec MoreSpec.

(** What a match of the first pattern has passed, and its group. *)
Lemma den_score_inv st e :
  den risk_score_re st e →
  ∃ r ws1 sc ws2 num,
    ahead st = r ++ ws1 ++ sc ++ ws2 ++ num ++ ahead e ∧
    ieq_str "risk" r ∧ forallb isspace ws1 = true ∧ ieq_str "score" sc ∧
    forallb isspace ws2 = true ∧ digits num ∧ group 1 e = Some num.
Proof.
  unfold risk_score_re. cbn [seq_of den].
  intros (mid1 & H1 & mid2 & H2 & mid3 & H3 & mid4 & H4 & e1 & H5 & He).
  apply den_plain_inv in H1 as (r & Lr & S1 & _ & _); [|reflexivity].
  destruct H2 as (ws1 & S2 & Hws1 & _ & _ & _ & _).
  apply den_plain_inv in H3 as (sc & Lsc & S3 & _ & _); [|reflexivity].
  destruct H4 as (ws2 & S4 & Hws2 & _ & _ & _ & _).
  destruct H5 as (num & S5 & Hnum & Hlo & _ & _ & _).
  exists r, ws1, sc, ws2, num. split_and!; try done.
  - rewrite S1, S2, S3, S4, S5. subst e. done.
  - by apply lang_lit_i.
  - by apply lang_lit_i.
  - split; [|done]. intros ->. simpl in Hlo. lia.
  - subst e. unfold group. simpl. by rewrite (consumed_eq _ _ _ S5).
Qed.


(** The same for the second pattern. *)
Lemma den_ratio_inv st e :
  den risk_ratio_re st e →
  ∃ r sep num ws1 ws2,
    ahead st = r ++ sep ++ num ++ ws1 ++ utf8 "/" ++ ws2 ++ utf8 "10" ++ ahead e ∧
    ieq_str "risk" r ∧ forallb not_ascii_digit sep = true ∧ digits num ∧
    forallb isspace ws1 = true ∧ forallb isspace ws2 = true ∧ group 1 e = Some num.
Proof.
  unfold risk_ratio_re. cbn [seq_of den].
  intros (mid1 & H1 & mid2 & H2 & mid3 & (e1 & H3 & Hmid3) & mid4 & H4 & mid5 & H5
          & mid6 & H6 & H7).
  apply den_plain_inv in H1 as (r & Lr & S1 & _ & _); [|reflexivity].
  destruct H2 as (sep & S2 & Hsep & _ & _ & _ & _).
  destruct H3 as (num & S3 & Hnum & Hlo & _ & _ & G3).
  destruct H4 as (ws1 & S4 & Hws1 & _ & _ & _ & G4).
  destruct H5 as (c & S5 & Hc & _ & G5). apply N.eqb_eq in Hc as ->.
  destruct H6 as (ws2 & S6 & Hws2 & _ & _ & _ & G6).
  apply den_plain_inv in H7 as (ten & Lten & S7 & _ & G7); [|reflexivity].
  apply lang_lit in Lten. subst ten.
  exists r, sep, num, ws1, ws2. split_and!; try done.
  - rewrite S1, S2, S3. subst mid3. simpl in S4. rewrite S4, S5, S6, S7. done.
  - by apply lang_lit_i.
  - split; [|done]. intros ->. simpl in Hlo. lia.
  - unfold group. rewrite G7, G6, G5, G4. subst mid3. simpl.
    by rewrite (consumed_eq _ _ _ S3).
Qed.





Lemma search_score_Some text pre m e :
  search risk_score_re text = Some (pre, m, e) →
  ∃ num, score_at text num ∧ group1 (pre, m, e) = num ∧ digits num.
Proof.
  intros Hs. apply search_Some in Hs as (s & -> & Hd & _ & _).
  apply den_score_inv in Hd as (r & ws1 & sc & ws2 & num & Hs & Hr & Hw1 & Hsc & Hw2
                                & Hnum & Hg).
  simpl in Hs. subst s. exists num. split_and!.
  - by exists pre, r, ws1, sc, ws2, (ahead e).
  - unfold group1. simpl. by rewrite Hg.
  - done.
Qed.

Lemma search_ratio_Some text pre m e :
  search risk_ratio_re text = Some (pre, m, e) →
  ∃ num, ratio_at text num ∧ group1 (pre, m, e) = num ∧ digits num.
Proof.
  intros Hs. apply search_Some in Hs as (s & -> & Hd & _ & _).
  apply den_ratio_inv in Hd as (r & sep & num & ws1 & ws2 & Hs & Hr & Hsep & Hnum & Hw1
                                & Hw2 & Hg).
  simpl in Hs. subst s. exists num. split_and!.
  - by exists pre, r, sep, ws1, ws2, (ahead e).
  - unfold group1. simpl. by rewrite Hg.
  - done.
Qed.





Lemma parse_risk_Some text n :
  _parse_risk_score text = Some n →
  ∃ num, (score_at text num ∨ ratio_at text num) ∧ int num = Some n.
Proof.
  unfold _parse_risk_score. destruct text as [|c0 text0] eqn:Ht; [done|].
  rewrite <- Ht. clear Ht.
  destruct (search risk_score_re text) as [[[pre m] e]|] eqn:Hs.
  { apply search_score_Some in Hs as (num & Hat & Hg & _). rewrite Hg. intros Hn.
    exists num. split; [by left|done]. }
  destruct (search risk_ratio_re text) as [[[pre m] e]|] eqn:Hr; [|done].
  apply search_ratio_Some in Hr as (num & Hat & Hg & _). rewrite Hg. intros Hn.
  exists num. split; [by right|done].
Qed.



Lemma parse_risk_nonneg text n : _parse_risk_score text = Some n → (0 ≤ n)%Z.
Proof.
  intros H. apply parse_risk_Some in H as (num & _ & Hn). by eapply int_nonneg.
Qed.


End Risk.

(** * Text at the ends, and where the readers stop *)

Section Ends.
Import Py Re ReSpec Bs4 post_text stock_parser LikesSpec PageSpec MoreSpec.

Lemma last_rev_head {A} (l : list A) : last (rev l) = head l.
Proof. destruct l as [|x l]; [done|]. simpl. by rewrite last_snoc. Qed.

Lemma trimmed_nil : trimmed [].
Proof. by split. Qed.

(** [strip] leaves no whitespace at either end. *)
Lemma trimmed_strip s : trimmed (strip s).
Proof.
  split; intros c H.
  - destruct (strip s) as [|c' t] eqn:E; [done|]. injection H as ->.
    by eapply strip_head.
  - unfold strip, rstrip, lstrip in H. rewrite last_rev_head in H.
    by apply drop_while_head in H.
Qed.

Lemma join_nonempty sep p ps : p ≠ [] → join sep (p :: ps) ≠ [].
Proof.
  intros Hp. destruct p as [|c t]; [done|].
  destruct (join_head sep (c :: t) ps c t eq_refl) as [y ->]. done.
Qed.

Lemma join_trimmed sep ps :
  Forall (fun s => s ≠ [] ∧ trimmed s) ps → trimmed (join sep ps).
Proof.
  induction ps as [|p ps IH]; intros H; [apply trimmed_nil|].
  apply Forall_cons in H as [[Hp [Hh Hl]] H].
  destruct ps as [|q ps]; [by split|].
  specialize (IH H). apply Forall_cons in H as [[Hq _] _].
  change (join sep (p :: q :: ps)) with (p ++ sep ++ join sep (q :: ps)).
  split; intros c Hc.
  - destruct p as [|c' t]; [done|]. apply Hh. by injection Hc as ->.
  - apply IH. rewrite !last_app in Hc.
    destruct (last (join sep (q :: ps))) as [y|] eqn:Hy; [done|].
    apply last_None in Hy. by apply join_nonempty in Hy.
Qed.

Lemma strings_trimmed e : Forall (fun s => s ≠ [] ∧ trimmed s) (strings true e).
Proof.
  unfold strings. induction (below e) as [|d l IH]; simpl; [constructor|].
  apply Forall_app. split; [|exact IH].
  destruct (enode d); try constructor.
  destruct (strip s) as [|c t] eqn:Hs; constructor; [|constructor].
  split; [done|]. rewrite <- Hs. apply trimmed_strip.
Qed.

(** Stripped visible text has no whitespace at either end. *)
Lemma get_text_trimmed sep e : trimmed (get_text sep true e).
Proof. apply join_trimmed, strings_trimmed. Qed.

Lemma drop_while_stop {A} (p : A → bool) l x tl :
  p x = false → drop_while p (l ++ x :: tl) = drop_while p l ++ x :: tl.
Proof.
  intros Hx. induction l as [|a l IH]; simpl.
  - by rewrite Hx.
  - by destruct (p a).
Qed.

Lemma forallb_drop_while {A} (q p : A → bool) l :
  forallb q l = true → forallb q (drop_while p l) = true.
Proof.
  induction l as [|a l IH]; simpl; [done|].
  intros H. destruct (p a); [|done]. apply andb_true_iff in H as [_ H]. auto.
Qed.

Lemma drop_while_all {A} (p : A → bool) l : forallb p l = true → drop_while p l = [].
Proof.
  induction l as [|a l IH]; simpl; [done|].
  intros H. apply andb_true_iff in H as [-> H]. auto.
Qed.

Lemma rstrip_stop a y b : isspace y = false → rstrip (a ++ y :: b) = a ++ y :: rstrip b.
Proof.
  intros Hy. unfold rstrip, lstrip.
  rewrite rev_app_distr. simpl. rewrite <- app_assoc. simpl.
  rewrite drop_while_stop by done.
  rewrite rev_app_distr. simpl. rewrite rev_involutive, <- app_assoc. done.
Qed.

Lemma rstrip_head u x : head (rstrip u) = Some x → head u = Some x.
Proof.
  destruct (rstrip_prefix u) as [t Ht]. intros H.
  destruct (rstrip u) as [|c r]; [done|]. rewrite Ht. done.
Qed.

(** The digit run of a text that is cut as: no digit, digits, then a
    character that is no digit (or the end). *)
Lemma digit_run_cut lead run tail :
  forallb (fun c => negb (isdigit c)) lead = true → run ≠ [] →
  forallb isdigit run = true → (∀ x, head tail = Some x → isdigit x = false) →
  digit_run (lead ++ run ++ tail) = run.
Proof.
  intros Hlead Hne Hrun Htail. unfold digit_run, strip.
  destruct run as [|d run]; [done|]. clear Hne.
  simpl in Hrun. apply andb_true_iff in Hrun as [Hd Hrun].
  pose proof (isdigit_not_space d Hd) as Hsp.
  unfold lstrip. simpl. rewrite drop_while_stop by done.
  assert (∃ r y, d :: run = r ++ [y] ∧ isdigit y = true ∧ forallb isdigit r = true)
    as (r & y & Hr & Hy & Hrr).
  { destruct (exists_last (l := d :: run)) as (r & y & E); [done|].
    exists r, y. split; [done|].
    assert (forallb isdigit (d :: run) = true) as Hall by (simpl; by rewrite Hd).
    rewrite E, forallb_app in Hall. apply andb_true_iff in Hall as [H1 H2].
    simpl in H2. by destruct (isdigit y). }
  change (d :: run ++ tail) with ((d :: run) ++ tail).
  rewrite Hr, <- !app_assoc. simpl.
  rewrite app_assoc. rewrite rstrip_stop by by apply isdigit_not_space.
  rewrite <- app_assoc.
  set (lead' := drop_while isspace lead).
  assert (forallb (fun c => negb (isdigit c)) lead' = true) as Hlead'
    by by apply forallb_drop_while.
  assert (drop_while (fun c => negb (isdigit c)) (lead' ++ r ++ y :: rstrip tail)
          = r ++ y :: rstrip tail) as ->.
  { change (r ++ y :: rstrip tail) with (r ++ [y] ++ rstrip tail).
    rewrite (app_assoc r), <- Hr. simpl.
    rewrite drop_while_stop by by rewrite Hd.
    by rewrite drop_while_all. }
  change (r ++ y :: rstrip tail) with (r ++ [y] ++ rstrip tail).
  rewrite (app_assoc r).
  apply take_while_app.
  - rewrite forallb_app, Hrr. simpl. by rewrite Hy.
  - intros x Hx. apply Htail. by apply rstrip_head.
Qed.

Lemma cleaned_title_cut a d b :
  forallb (fun c => negb (delimiter c)) a = true → delimiter d = true →
  cleaned_title (a ++ d :: b) = a.
Proof.
  intros Ha Hd. unfold cleaned_title. apply take_while_app; [done|].
  intros x [= <-]. by rewrite Hd.
Qed.

(** X7 ([_parse_likes]): when the text is characters that are no digits,
    then a run of digits, then a character that is no digit (or the end),
    the count is read from that run alone, whatever follows: a grouping
    comma or a decimal point ends the number. *)
Theorem parse_likes_cut (lead run tail : str) :
  forallb (fun c => negb (isdigit c)) lead = true → run ≠ [] →
  forallb isdigit run = true → (∀ x, head tail = Some x → isdigit x = false) →
  _parse_likes (lead ++ run ++ tail) = int run.
Proof.
  intros Hlead Hne Hrun Htail.
  rewrite parse_likes_run, digit_run_cut by done. by destruct run.
Qed.

Lemma parse_likes_cut_witness :
  _parse_likes (utf8 "♥ " ++ utf8 "1" ++ utf8 ",234 likes") = int (utf8 "1") ∧
  int (utf8 "1") = Some 1%Z.
Proof.
  split; [|vm_compute; reflexivity].
  apply (parse_likes_cut (utf8 "♥ ") (utf8 "1") (utf8 ",234 likes")).
  - vm_compute. reflexivity.
  - vm_compute. discriminate.
  - vm_compute. reflexivity.
  - intros x Hx. vm_compute in Hx. injection Hx as <-. vm_compute. reflexivity.
Defined.

(** X8 ([_guess_ticker_from_title]): the ticker is looked for before the
    first parenthesis, pipe, hyphen or en dash only; what follows that
    character has no part in the result. *)
Theorem guess_ticker_before_delimiter (a : str) (d : char) (b : str) :
  forallb (fun c => negb (delimiter c)) a = true → delimiter d = true →
  _guess_ticker_from_title (a ++ d :: b) = _guess_ticker_from_title a.
Proof.
  intros Ha Hd. rewrite !guess_ticker_search.
  rewrite cleaned_title_cut by done.
  unfold cleaned_title. by rewrite take_while_all_id.
Qed.

Lemma guess_ticker_before_delimiter_witness :
  _guess_ticker_from_title (utf8 "Tesla, Inc. " ++ ch "(" :: utf8 "TSLA)") =
    _guess_ticker_from_title (utf8 "Tesla, Inc. ") ∧
  _guess_ticker_from_title (utf8 "Tesla, Inc. ") = None.
Proof.
  split; [|vm_compute; reflexivity].
  apply (guess_ticker_before_delimiter (utf8 "Tesla, Inc. ") (ch "(") (utf8 "TSLA)")).
  - vm_compute. reflexivity.
  - vm_compute. reflexivity.
Defined.

End Ends.

(** * What the fields of the records hold *)

Section Values.
Import Py Re ReSpec Bs4 Record Datetime stock_parser investor_parser post_parser main
  PageSpec MoreSpec.

Lemma og_title_trimmed soup n : og_title_of soup = Some n → trimmed n.
Proof.
  unfold og_title_of. destruct (find _ soup) as [t|]; [|done].
  destruct (attr "content" (enode t)) as [[|c cs]|]; try done.
  intros [= <-]. apply trimmed_strip.
Qed.

Lemma heading_trimmed soup n : heading_of soup = Some n → trimmed n.
Proof.
  unfold heading_of. destruct (find _ soup) as [h|]; [|done].
  destruct (get_text [] true h) as [|c t] eqn:E; [done|].
  intros [= <-]. rewrite <- E. apply get_text_trimmed.
Qed.

Lemma title_trimmed soup n : title_of soup = Some n → trimmed n.
Proof.
  unfold title_of. destruct (find _ soup) as [t|]; [|done].
  destruct (string_ (enode t)) as [[|c cs]|]; try done.
  intros [= <-]. apply trimmed_strip.
Qed.

Lemma stock_name_trimmed soup n : stock_name_of soup = Some n → trimmed n.
Proof.
  rewrite stock_name_chain.
  destruct (og_title_of soup) as [[|c t]|] eqn:Hog.
  - destruct (heading_of soup) as [h|] eqn:Hh.
    { intros [= <-]. by eapply heading_trimmed. }
    destruct (title_of soup) as [t|] eqn:Ht.
    { intros [= <-]. by eapply title_trimmed. }
    intros [= <-]. apply trimmed_nil.
  - intros [= <-]. by eapply og_title_trimmed.
  - destruct (heading_of soup) as [h|] eqn:Hh.
    { intros [= <-]. by eapply heading_trimmed. }
    destruct (title_of soup) as [t|] eqn:Ht; [|done].
    intros [= <-]. by eapply title_trimmed.
Qed.

(** A ticker stands in the title it was guessed from. *)
Lemma guess_ticker_of title w :
  _guess_ticker_from_title title = Some w → ticker_of title w.
Proof.
  intros H. apply guess_ticker_Some in H as (pre & (post & Hc & Hlen & Hup & _) & _).
  split_and!; [lia|lia|done|].
  exists pre, (post ++ drop_while (fun c => negb (delimiter c)) title).
  rewrite (take_drop_while (fun c => negb (delimiter c)) title) at 1.
  fold (cleaned_title title). rewrite Hc. by rewrite <- !app_assoc.
Qed.

Lemma crumb_loop_trimmed crumbs x : crumb_loop crumbs = Some x → trimmed x.
Proof.
  induction crumbs as [|crumb rest IH]; [done|]. cbn [crumb_loop]. cbv zeta.
  destruct (2 <=? _)%nat; [|exact IH].
  intros [= <-]. apply trimmed_strip.
Qed.

Lemma extract_category_trimmed soup x : _extract_category soup = Some x → trimmed x.
Proof.
  unfold _extract_category. cbv zeta.
  destruct (match find _ soup with Some m => attr "content" (enode m) | None => None end)
    as [[|c cs]|].
  - apply crumb_loop_trimmed.
  - intros [= <-]. apply trimmed_strip.
  - apply crumb_loop_trimmed.
Qed.

Lemma resolve_category_None soup :
  resolve_category soup None = None ∨
  ∃ x, resolve_category soup None = Some x ∧ _extract_category soup = Some x ∧
       x ≠ [] ∧ trimmed x.
Proof.
  unfold resolve_category. destruct (_extract_category soup) as [[|c cs]|] eqn:E; auto.
  right. exists (c :: cs). split_and!; try done. by eapply extract_category_trimmed.
Qed.

Lemma investor_name_trimmed card text n :
  investor_name_of card text = VStr n → trimmed n.
Proof.
  unfold investor_name_of. destruct (name_elem_of card) as [ne|]; simpl.
  - destruct (get_text [] true ne) as [|c t] eqn:E; simpl.
    + intros [= <-]. apply trimmed_strip.
    + intros [= <-]. rewrite <- E. apply get_text_trimmed.
  - intros [= <-]. apply trimmed_strip.
Qed.

Lemma build_stats_valid text : valid_stats (_build_stats text).
Proof.
  unfold _build_stats, valid_stats. cbv zeta.
  destruct (_parse_return_12m text) as [d|] eqn:Hret;
    destruct (_parse_risk_score text) as [n|] eqn:Hrisk.
  - right. eexists. unfold or_. rewrite truthy_dict_insert. split; [done|].
    split; [apply insert_non_empty|]. split_and!.
    + intros k [v Hv]. rewrite lookup_insert in Hv. case_decide; [by right|].
      rewrite lookup_insert in Hv. case_decide; [by left|]. by rewrite lookup_empty in Hv.
    + intros x Hx. rewrite lookup_insert_ne in Hx by (symmetry; apply key_return_risk).
      rewrite lookup_insert_eq in Hx. injection Hx as <-. eauto.
    + intros x Hx. rewrite lookup_insert_eq in Hx. injection Hx as <-.
      exists n. split; [done|]. by eapply parse_risk_nonneg.
  - right. eexists. unfold or_. rewrite truthy_dict_insert. split; [done|].
    split; [apply insert_non_empty|]. split_and!.
    + intros k [v Hv]. rewrite lookup_insert in Hv. case_decide; [by left|].
      by rewrite lookup_empty in Hv.
    + intros x Hx. rewrite lookup_insert_eq in Hx. injection Hx as <-. eauto.
    + intros x Hx. rewrite lookup_insert_ne in Hx by apply key_return_risk.
      by rewrite lookup_empty in Hx.
  - right. eexists. unfold or_. rewrite truthy_dict_insert. split; [done|].
    split; [apply insert_non_empty|]. split_and!.
    + intros k [v Hv]. rewrite lookup_insert in Hv. case_decide; [by right|].
      by rewrite lookup_empty in Hv.
    + intros x Hx. rewrite lookup_insert_ne in Hx by (symmetry; apply key_return_risk).
      by rewrite lookup_empty in Hx.
    + intros x Hx. rewrite lookup_insert_eq in Hx. injection Hx as <-.
      exists n. split; [done|]. by eapply parse_risk_nonneg.
  - by left.
Qed.

Lemma parse_likes_nonneg text n : post_text._parse_likes text = Some n → (0 ≤ n)%Z.
Proof.
  rewrite parse_likes_run. destruct (LikesSpec.digit_run text); [done|].
  apply int_nonneg.
Qed.

Lemma likes_of_value e :
  of_opt_int (likes_of e) = VNone ∨ ∃ n, of_opt_int (likes_of e) = VInt n ∧ (0 ≤ n)%Z.
Proof.
  unfold likes_of. destruct (find is_likes e) as [l|]; [|by left].
  destruct (_parse_likes _) as [n|] eqn:E; [|by left].
  right. exists n. split; [done|]. by eapply parse_likes_nonneg.
Qed.

Lemma strip_nil : strip [] = [].
Proof. done. Qed.

Section Dates.
Variable fromisoformat : str → bool.

Lemma parse_timestamp_nonempty element d :
  _parse_timestamp fromisoformat element = Some d → d ≠ [].
Proof.
  unfold _parse_timestamp. destruct element as [element|]; [|done].
  destruct (datetime_attr fromisoformat element) as [v|] eqn:Hattr.
  - intros [= <-]. unfold datetime_attr in Hattr.
    destruct (attr "datetime" (enode element)) as [v'|]; [|done].
    destruct (strip v') as [|c t] eqn:Hs; [done|].
    destruct (fromisoformat _); [|done]. injection Hattr as <-.
    intros ->. by rewrite strip_nil in Hs.
  - destruct (get_text [] true element) as [|c t]; [done|].
    intros H. apply format_loop_suffix in H as [dt ->].
    intros E. apply (f_equal length) in E. rewrite length_app in E. simpl in E. lia.
Qed.

Lemma date_value (o : option str) :
  (∀ d, o = Some d → d ≠ []) →
  of_opt_str o = VNone ∨ ∃ d, of_opt_str o = VStr d ∧ d ≠ [].
Proof. intros H. destruct o as [d|]; [|by left]. right. exists d. auto. Qed.

Lemma timestamp_of_nonempty post d : timestamp_of fromisoformat post = Some d → d ≠ [].
Proof.
  unfold timestamp_of. destruct (or_else _ _) as [t|]; [|done].
  apply parse_timestamp_nonempty.
Qed.

End Dates.

(** X9 ([parse_stock_page]): the name of a stock record is not empty and
    has no whitespace at either end; its ticker is null or one to five
    capitals that stand in the name. *)
Theorem stock_record_values (soup : node) (url : str) (cat : option str) (r : dict) :
  r ∈ parse_stock_page soup url cat → stock_values r.
Proof.
  intros H. apply stock_records_shape in H as (c & t & ticker & Hname & -> & ->).
  destruct (stock_record_fields (Some (c :: t)) (_guess_ticker_from_title (c :: t))
              (resolve_category (root soup) cat) url) as (_ & _ & Hn & Ht & _ & _).
  exists (c :: t). split_and!; [done|done|by eapply stock_name_trimmed|].
  rewrite Ht. destruct (_guess_ticker_from_title (c :: t)) as [w|] eqn:Hw; [|by left].
  right. exists w. split; [done|]. by apply guess_ticker_of.
Qed.

Lemma stock_record_values_witness :
  stock_values
    (stock_record (Some (utf8 "TSLA (Tesla, Inc.)")) (Some (utf8 "TSLA")) None example_url).
Proof.
  apply (stock_record_values tsla_page example_url None).
  vm_compute. constructor.
Defined.

(** X10 ([parse_investor_page], [_build_stats]): the name of an investor
    record is not empty and has no whitespace at either end; its
    statistics are null or a mapping that is not empty, has no key but
    [return_12m] and [risk_score], a number under the first and an integer
    that is not negative under the second. *)
Theorem investor_record_values (soup : node) (url : str) (cat : option str) (r : dict) :
  r ∈ parse_investor_page soup url cat → investor_values r.
Proof.
  intros H. apply investor_records_shape in H as (card & Htext & ->).
  unfold card_record.
  set (text := get_text (utf8 " ") true card).
  destruct (investor_record_fields (investor_name_of card text) (_build_stats text) cat url)
    as (_ & _ & Hn & Hs & _ & _).
  destruct (investor_name_nonempty card Htext) as (c & t & Hname). fold text in Hname.
  exists (c :: t), (_build_stats text). split_and!.
  - by rewrite Hn, Hname.
  - done.
  - by eapply investor_name_trimmed.
  - done.
  - apply build_stats_valid.
Qed.

Lemma investor_record_values_witness :
  investor_values
    (investor_record (VStr (utf8 "Alice"))
       (VDict (<[utf8 "risk_score" := VInt 4]>
                 (<[utf8 "return_12m" := VFloat (Dec 246 1)]> ∅)))
       None example_url).
Proof.
  apply (investor_record_values investor_page example_url None).
  vm_compute. constructor.
Defined.

(** X11 ([parse_posts_page]): in the record of a post or of a comment the
    post content has no whitespace at either end, the comment text is null
    or a non-empty text other than the post content, the likes count is
    null or an integer that is not negative, and the date is null or a
    non-empty string. *)
Theorem post_record_values (fromisoformat : str → bool) (soup : node) (url : str)
    (cat : option str) (r : dict) :
  r ∈ parse_posts_page fromisoformat soup url cat → post_values r.
Proof.
  intros H. apply post_records_shape in H as (post & Htext & [-> | (c & Hc & ->)]).
  - unfold base_record.
    destruct (post_record_fields (body_of post) VNone (likes_of post)
                (timestamp_of fromisoformat post) cat url)
      as (_ & _ & Hb & Hcm & Hl & Hd & _ & _).
    split_and!.
    + exists (body_of post). split_and!; [done|apply get_text_trimmed|by left].
    + rewrite Hl. destruct (likes_of_value post) as [-> | (n & -> & Hn)]; [by left|].
      right. by exists n.
    + rewrite Hd.
      destruct (date_value (timestamp_of fromisoformat post)) as [-> | (d & -> & Hne)];
        [apply timestamp_of_nonempty|by left|].
      right. by exists d.
  - unfold comment_record.
    match goal with |- context [post_record ?b ?cm ?l ?d cat url] =>
      destruct (post_record_fields b cm l d cat url)
        as (_ & _ & Hb & Hcm & Hl & Hd & _ & _); set (date := d) in * end.
    apply survives_iff in Hc as [Hc1 Hc2].
    split_and!.
    + exists (body_of post). split_and!; [done|apply get_text_trimmed|].
      right. exists (comment_text_of c). split_and!; [done..|apply get_text_trimmed].
    + rewrite Hl. destruct (likes_of_value c) as [-> | (n & -> & Hn)]; [by left|].
      right. by exists n.
    + rewrite Hd. destruct (date_value date) as [-> | (d & -> & Hne)]; [|by left|].
      * subst date. destruct (find (named "time") c) as [t|].
        -- apply parse_timestamp_nonempty.
        -- apply timestamp_of_nonempty.
      * right. by exists d.
Qed.

Lemma post_record_values_witness :
  post_values
    (post_record (utf8 "Hello") VNone (Some 1%Z) (Some (utf8 "2025-03-22T00:00:00Z"))
       None example_url).
Proof.
  apply (post_record_values (fun _ => false) liked_page example_url None).
  vm_compute. constructor.
Defined.

(** X12 (category of the records): a record of a run that was given a
    category carries it as given, whichever extractor built it; without
    one, investor and post records carry null, and a stock record carries
    null or the category found in the page, which is then not empty and
    has no whitespace at either end. *)
Theorem record_category (fromisoformat : str → bool) (soup : node) (url : str)
    (cat : option str) (r : dict) :
  (r ∈ parse_stock_page soup url cat → category_value soup cat true r) ∧
  (r ∈ parse_investor_page soup url cat ++ parse_posts_page fromisoformat soup url cat →
   category_value soup cat false r) ∧
  hd ∅ (parse_stock_page crumb_page example_url None) !! utf8 "category" =
    Some (VStr (utf8 "Stocks")).
Proof.
  split_and!.
  - intros H. apply stock_records_shape in H as (c & t & ticker & _ & _ & ->).
    destruct (stock_record_fields (Some (c :: t)) ticker
                (resolve_category (root soup) cat) url) as (_ & _ & _ & _ & Hc & _).
    unfold category_value. destruct cat as [c0|]; [by rewrite Hc|].
    rewrite Hc. destruct (resolve_category_None (root soup)) as [-> | (x & -> & Hx & Hne & Ht)].
    + by left.
    + right. by exists x.
  - intros H.
    assert (r !! utf8 "category" = Some (of_opt_str cat)) as Hc.
    { destruct (extractor_record_full fromisoformat soup url cat r) as (Ha & _ & Hc).
      { rewrite elem_of_app. by right. }
      apply elem_of_app in H as [H | H].
      - apply investor_records_shape in H as (card & _ & ->).
        by destruct (investor_record_fields
                       (investor_name_of card (get_text (utf8 " ") true card))
                       (_build_stats (get_text (utf8 " ") true card)) cat url)
          as (_ & _ & _ & _ & ? & _).
      - apply post_records_shape in H as (post & _ & [-> | (c & _ & ->)]).
        + by destruct (post_record_fields (body_of post) VNone (likes_of post)
                         (timestamp_of fromisoformat post) cat url)
            as (_ & _ & _ & _ & _ & _ & ? & _).
        + unfold comment_record.
          match goal with |- context [post_record ?b ?cm ?l ?d cat url] =>
            by destruct (post_record_fields b cm l d cat url)
              as (_ & _ & _ & _ & _ & _ & ? & _) end. }
    unfold category_value. destruct cat as [c0|]; [done|by left].
  - vm_compute. reflexivity.
Qed.

End Values.

(** * The settings *)

Section SettingsMerge.
Import Py Record main pipeline MoreSpec.

(** One key of the merged mapping, read off the two mappings. *)
Lemma merge_lookup (base extra : dict) k :
  merge base extra !! k =
    match extra !! k with
    | None => base !! k
    | Some (VDict e) =>
      match default (VDict ∅) (base !! k) with
      | VDict node => Some (VDict (merge node e))
      | _ => Some (VDict e)
      end
    | Some value =>
      match base !! k with
      | Some b => Some b
      | None => Some value
      end
    end.
Proof.
  unfold merge. cbn [merge_into]. revert k.
  apply (map_fold_weak_ind
    (fun (r : dict) (m : dict) => ∀ k,
       r !! k =
         match m !! k with
         | None => base !! k
         | Some (VDict e) =>
           match default (VDict ∅) (base !! k) with
           | VDict node => Some (VDict (merge_into (VDict e) node))
           | _ => Some (VDict e)
           end
         | Some value =>
           match base !! k with
           | Some b => Some b
           | None => Some value
           end
         end)).
  - intros k. by rewrite lookup_empty.
  - intros i x m r Hi IH k.
    destruct (decide (k = i)) as [->|Hne].
    + rewrite lookup_insert_eq. pose proof (IH i) as Hr. rewrite Hi in Hr.
      rewrite Hr.
      destruct x as [| | | | | |e].
      1-6: destruct (base !! i) as [b0|] eqn:Hb; [done|by rewrite lookup_insert_eq].
      destruct (default (VDict ∅) (base !! i)); by rewrite lookup_insert_eq.
    + rewrite lookup_insert_ne by done. rewrite <- IH.
      destruct x as [| | | | | |e].
      1-6: destruct (r !! i); [done|by rewrite lookup_insert_ne].
      destruct (default (VDict ∅) (r !! i)); by rewrite lookup_insert_ne.
Qed.

Lemma http_defaults_lookup k :
  http_defaults !! k =
    if bool_decide (k = utf8 "user_agent")
    then Some (VStr (utf8 "EtoroScraper/1.0 (+https://bitbash.dev)"))
    else if bool_decide (k = utf8 "timeout") then Some (VInt 10) else None.
Proof.
  unfold http_defaults, dict_of, item. cbn [fold_left fst snd].
  rewrite !lookup_insert, lookup_empty.
  repeat case_decide; repeat case_bool_decide; congruence.
Qed.

Lemma merge_empty_http : merge ∅ http_defaults = http_defaults.
Proof.
  apply map_eq. intros k. rewrite merge_lookup, lookup_empty, http_defaults_lookup.
  repeat (case_bool_decide; [done|]). done.
Qed.

Section Paths.
Variable data_path : string → str.

Lemma defaults_lookup k :
  defaults data_path !! k =
    if bool_decide (k = utf8 "log_level") then Some (VStr (utf8 "INFO"))
    else if bool_decide (k = utf8 "http") then Some (VDict http_defaults)
    else if bool_decide (k = utf8 "output_csv")
      then Some (VStr (data_path "output.sample.csv"))
    else if bool_decide (k = utf8 "output_json")
      then Some (VStr (data_path "output.sample.json"))
    else if bool_decide (k = utf8 "input_file")
      then Some (VStr (data_path "inputs.sample.json"))
    else None.
Proof.
  unfold defaults, dict_of, item. cbn [fold_left fst snd].
  rewrite !lookup_insert, lookup_empty.
  repeat case_decide; repeat case_bool_decide; congruence.
Qed.

Lemma defaults_keys k : is_Some (defaults data_path !! k) ↔ k ∈ SETTING_NAMES.
Proof.
  unfold defaults. rewrite dict_of_keys. done.
Qed.

End Paths.

(** X13 ([merge] of [load_settings]): the merged mapping has the keys of
    both mappings; a key of [base] alone keeps its value, a key of [extra]
    alone takes the value of [extra] (merged into an empty mapping when it
    is a mapping); where both hold the key, the value of [base] stays
    unless [extra] holds a mapping there: then two mappings are merged, and
    a value of [base] that is no mapping is replaced by the mapping of
    [extra]. *)
Theorem merge_keys (base extra : dict) :
  (∀ k, is_Some (merge base extra !! k) ↔ is_Some (base !! k) ∨ is_Some (extra !! k)) ∧
  (∀ k, extra !! k = None → merge base extra !! k = base !! k) ∧
  (∀ k b v, base !! k = Some b → extra !! k = Some v → is_dict v = false →
     merge base extra !! k = Some b) ∧
  (∀ k v, base !! k = None → extra !! k = Some v → is_dict v = false →
     merge base extra !! k = Some v) ∧
  (∀ k b e, base !! k = Some (VDict b) → extra !! k = Some (VDict e) →
     merge base extra !! k = Some (VDict (merge b e))) ∧
  (∀ k e, base !! k = None → extra !! k = Some (VDict e) →
     merge base extra !! k = Some (VDict (merge ∅ e))) ∧
  (∀ k b e, base !! k = Some b → is_dict b = false → extra !! k = Some (VDict e) →
     merge base extra !! k = Some (VDict e)) ∧
  merge sample_settings
        (dict_of [ item "http" (VDict http_defaults); item "log_level" (VStr (utf8 "INFO")) ]) =
    dict_of [ item "log_level" (VStr (utf8 "DEBUG"));
              item "http"
                (VDict (dict_of [ item "timeout" (VInt 30);
                                  item "user_agent"
                                    (VStr (utf8 "EtoroScraper/1.0 (+https://bitbash.dev)")) ]));
              item "proxy" VNone ].
Proof.
  split_and!; [| | | | | | |vm_compute; reflexivity].
  - intros k. rewrite merge_lookup.
    destruct (extra !! k) as [v|] eqn:He.
    + split; [intros _; right; by eexists|intros _].
      destruct v; try (destruct (base !! k); by eexists).
      destruct (default (VDict ∅) (base !! k)); by eexists.
    + split; [by left|]. intros [H|[x Hx]]; [done|done].
  - intros k He. by rewrite merge_lookup, He.
  - intros k b v Hb He Hv. rewrite merge_lookup, He, Hb. by destruct v.
  - intros k v Hb He Hv. rewrite merge_lookup, He, Hb. by destruct v.
  - intros k b e Hb He. by rewrite merge_lookup, He, Hb.
  - intros k e Hb He. by rewrite merge_lookup, He, Hb.
  - intros k b e Hb Hd He. rewrite merge_lookup, He, Hb. by destruct b.
Qed.

(** X14 ([load_settings]): without a settings file the defaults are
    returned; a file holding an object gives settings with every key of
    the file, the five keys [main] reads, each value of the file other than
    [http] as the file gives it, and under [http] a mapping that holds
    [timeout] and [user_agent] and keeps the entries of the file's [http]
    mapping; a file's [http] that is no mapping is replaced by the default
    one; a file that is not JSON or holds no object gives no settings. *)
Theorem load_settings_complete (data_path : string → str) (settings : dict) :
  ∃ r, load_settings data_path (Settings (VDict settings)) = Some r ∧
    (∀ k, is_Some (r !! k) ↔ is_Some (settings !! k) ∨ k ∈ SETTING_NAMES) ∧
    (∀ k v, settings !! k = Some v → k ≠ utf8 "http" → r !! k = Some v) ∧
    (∀ k, settings !! k = None → k ≠ utf8 "http" → r !! k = defaults data_path !! k) ∧
    (∃ h, r !! utf8 "http" = Some (VDict h) ∧
          is_Some (h !! utf8 "timeout") ∧ is_Some (h !! utf8 "user_agent") ∧
          (∀ hs, settings !! utf8 "http" = Some (VDict hs) →
             ∀ k v, hs !! k = Some v → h !! k = Some v) ∧
          (∀ v, settings !! utf8 "http" = Some v → is_dict v = false →
             h = http_defaults) ∧
          (settings !! utf8 "http" = None → h = http_defaults)) ∧
    load_settings data_path NoSettings = Some (defaults data_path) ∧
    load_settings data_path SettingsNotJson = None ∧
    (∀ v, is_dict v = false → load_settings data_path (Settings v) = None).
Proof.
  exists (merge settings (defaults data_path)). split; [done|]. split_and!.
  - intros k. rewrite merge_lookup.
    destruct (defaults data_path !! k) as [v|] eqn:Hd.
    + assert (k ∈ SETTING_NAMES) as Hk by (apply (defaults_keys data_path); by eexists).
      split; [by right|]. intros _.
      destruct v; try (destruct (settings !! k); by eexists).
      destruct (default (VDict ∅) (settings !! k)); by eexists.
    + split; [by left|]. intros [H|H]; [done|].
      apply (defaults_keys data_path) in H. rewrite Hd in H. by destruct H.
  - intros k v Hs Hk. rewrite merge_lookup, Hs. rewrite defaults_lookup.
    repeat (case_bool_decide; [done|]). done.
  - intros k Hs Hk. rewrite merge_lookup, Hs. rewrite defaults_lookup.
    repeat (case_bool_decide; [done|]). done.
  - assert (defaults data_path !! utf8 "http" = Some (VDict http_defaults)) as Hd.
    { rewrite defaults_lookup.
      rewrite bool_decide_eq_false_2 by (by vm_compute).
      by rewrite bool_decide_eq_true_2. }
    assert (∀ node : dict,
              is_Some (merge node http_defaults !! utf8 "timeout") ∧
              is_Some (merge node http_defaults !! utf8 "user_agent") ∧
              ∀ k v, node !! k = Some v → merge node http_defaults !! k = Some v)
      as Hnode.
    { intros node. split_and!.
      - rewrite merge_lookup, http_defaults_lookup.
        rewrite bool_decide_eq_false_2 by (by vm_compute).
        rewrite bool_decide_eq_true_2 by done.
        destruct (node !! utf8 "timeout"); by eexists.
      - rewrite merge_lookup, http_defaults_lookup.
        rewrite bool_decide_eq_true_2 by done.
        destruct (node !! utf8 "user_agent"); by eexists.
      - intros k v Hk. rewrite merge_lookup, http_defaults_lookup, Hk.
        repeat (case_bool_decide; [done|]). done. }
    destruct (settings !! utf8 "http") as [v|] eqn:Hs.
    + destruct (is_dict v) eqn:Hv.
      * destruct v as [| | | | | |hs]; try done.
        exists (merge hs http_defaults).
        destruct (Hnode hs) as (H1 & H2 & H3).
        split_and!; [|done|done| | |].
        -- by rewrite merge_lookup, Hd, Hs.
        -- intros hs' [= <-]. exact H3.
        -- intros v' [= <-]. done.
        -- done.
      * exists http_defaults. split_and!.
        -- rewrite merge_lookup, Hd, Hs. by destruct v.
        -- rewrite http_defaults_lookup.
           rewrite bool_decide_eq_false_2 by (by vm_compute).
           rewrite bool_decide_eq_true_2 by done. by eexists.
        -- rewrite http_defaults_lookup.
           rewrite bool_decide_eq_true_2 by done. by eexists.
        -- intros hs [= ->]. done.
        -- done.
        -- done.
    + exists (merge ∅ http_defaults).
      destruct (Hnode ∅) as (H1 & H2 & H3).
      split_and!; [|done|done| | |].
      * by rewrite merge_lookup, Hd, Hs.
      * intros hs Hhs. done.
      * intros v Hv. done.
      * intros _. apply merge_empty_http.
  - done.
  - done.
  - intros v Hv. by destruct v.
Qed.

End SettingsMerge.

(** * The CSV row of a record of a run *)

Section CsvOfRun.
Import Py Bs4 Record stock_parser investor_parser post_parser main pipeline csv_exporter
  PageSpec MoreSpec.

Lemma in_fields_cases k :
  k ∈ FIELD_NAMES →
  k = utf8 "stock_name" ∨ k = utf8 "ticker" ∨ k = utf8 "investor_name" ∨
  k = utf8 "investor_stats" ∨ k = utf8 "post_content" ∨ k = utf8 "comment_text" ∨
  k = utf8 "likes_count" ∨ k = utf8 "post_date" ∨ k = utf8 "category" ∨
  k = utf8 "source_url".
Proof.
  unfold FIELD_NAMES. cbn [fmap list_fmap].
  rewrite !elem_of_cons, elem_of_nil. tauto.
Qed.

Lemma of_opt_str_cell o : of_opt_str o = VNone ∨ is_scalar (of_opt_str o) = true.
Proof. destruct o; auto. Qed.

Lemma of_opt_int_cell o : of_opt_int o = VNone ∨ is_scalar (of_opt_int o) = true.
Proof. destruct o; auto. Qed.

Ltac null_field H :=
  eexists; split; [apply H; apply list_elem_of_In; simpl; tauto|by left].

(** Apart from the statistics, a field of an extractor's record is null,
    a string or a number. *)
Lemma extractor_cell fromiso soup url cat r k :
  r ∈ parse_stock_page soup url cat ++ parse_investor_page soup url cat
        ++ parse_posts_page fromiso soup url cat →
  k ∈ FIELD_NAMES → k ≠ utf8 "investor_stats" →
  ∃ v, r !! k = Some v ∧ (v = VNone ∨ is_scalar v = true).
Proof.
  intros Hr Hk Hne. apply in_fields_cases in Hk.
  rewrite !elem_of_app in Hr. destruct Hr as [H | [H | H]].
  - apply stock_records_shape in H as (c & t & ticker & _ & _ & ->).
    destruct (stock_record_fields (Some (c :: t)) ticker
                (resolve_category (root soup) cat) url) as (_ & Hnull & Hn & Ht & Hc & Hu).
    destruct Hk as [->|[->|[->|[->|[->|[->|[->|[->|[->| ->]]]]]]]]]; try done.
    + eexists; split; [exact Hn|by right].
    + eexists; split; [exact Ht|apply of_opt_str_cell].
    + null_field Hnull.
    + null_field Hnull.
    + null_field Hnull.
    + null_field Hnull.
    + null_field Hnull.
    + eexists; split; [exact Hc|apply of_opt_str_cell].
    + eexists; split; [exact Hu|by right].
  - apply investor_records_shape in H as (card & Htext & ->).
    unfold card_record. set (text := get_text (utf8 " ") true card).
    destruct (investor_record_fields (investor_name_of card text) (_build_stats text) cat url)
      as (_ & Hnull & Hn & _ & Hc & Hu).
    destruct (investor_name_nonempty card Htext) as (c & t & Hname). fold text in Hname.
    destruct Hk as [->|[->|[->|[->|[->|[->|[->|[->|[->| ->]]]]]]]]]; try done.
    + null_field Hnull.
    + null_field Hnull.
    + eexists; split; [exact Hn|]. rewrite Hname. by right.
    + null_field Hnull.
    + null_field Hnull.
    + null_field Hnull.
    + null_field Hnull.
    + eexists; split; [exact Hc|apply of_opt_str_cell].
    + eexists; split; [exact Hu|by right].
  - assert (∃ body comment likes date,
              r = post_record body comment likes date cat url ∧
              (comment = VNone ∨ is_scalar comment = true)) as
      (body & comment & likes & date & -> & Hcm).
    { apply post_records_shape in H as (post & _ & [-> | (c & _ & ->)]).
      - eexists _, _, _, _. split; [reflexivity|by left].
      - eexists _, _, _, _. split; [reflexivity|by right]. }
    destruct (post_record_fields body comment likes date cat url)
      as (_ & Hnull & Hb & Hc' & Hl & Hd & Hc & Hu).
    destruct Hk as [->|[->|[->|[->|[->|[->|[->|[->|[->| ->]]]]]]]]]; try done.
    + null_field Hnull.
    + null_field Hnull.
    + null_field Hnull.
    + eexists; split; [exact Hb|by right].
    + eexists; split; [exact Hc'|exact Hcm].
    + eexists; split; [exact Hl|apply of_opt_int_cell].
    + eexists; split; [exact Hd|apply of_opt_str_cell].
    + eexists; split; [exact Hc|apply of_opt_str_cell].
    + eexists; split; [exact Hu|by right].
Qed.

(** X15 ([process_url] into [export_to_csv]): in the row written for a
    record of a run, every column but [investor_stats] holds the value of
    the record as it is, or the empty string where the record holds null:
    no JSON text is written outside [investor_stats]. *)
Theorem csv_row_of_run (json_dumps : val → str) (BeautifulSoup : str → node)
    (fromisoformat : str → bool) (url : str) (category : option str) (html : str)
    (r : dict) (k : str) :
  r ∈ process_url BeautifulSoup fromisoformat url category html →
  k ∈ FIELD_NAMES → k ≠ utf8 "investor_stats" →
  ∃ v, r !! k = Some v ∧
    (v = VNone ∧ flat_row json_dumps FIELD_NAMES r !! k = Some (VStr []) ∨
     is_scalar v = true ∧ flat_row json_dumps FIELD_NAMES r !! k = Some v).
Proof.
  intros Hr Hk Hne. apply process_url_members in Hr.
  destruct (extractor_cell _ _ _ _ _ _ Hr Hk Hne) as (v & Hv & Hcell).
  exists v. split; [done|].
  rewrite flat_row_lookup, bool_decide_eq_true_2 by done.
  unfold get. rewrite Hv. simpl.
  destruct Hcell as [-> | Hs]; [by left|right]. split; [done|]. by destruct v.
Qed.

Lemma csv_row_of_run_witness :
  ∃ v, stock_record (Some (utf8 "TSLA (Tesla, Inc.)")) (Some (utf8 "TSLA")) None example_url
         !! utf8 "ticker" = Some v ∧
    (v = VNone ∧
       flat_row (fun _ => []) FIELD_NAMES
         (stock_record (Some (utf8 "TSLA (Tesla, Inc.)")) (Some (utf8 "TSLA")) None
            example_url) !! utf8 "ticker" = Some (VStr []) ∨
     is_scalar v = true ∧
       flat_row (fun _ => []) FIELD_NAMES
         (stock_record (Some (utf8 "TSLA (Tesla, Inc.)")) (Some (utf8 "TSLA")) None
            example_url) !! utf8 "ticker" = Some v).
Proof.
  apply (csv_row_of_run (fun _ => []) (fun _ => tsla_page) (fun _ => false) example_url
           None (utf8 "<html>")).
  - vm_compute. constructor.
  - vm_compute. do 1 constructor. constructor.
  - vm_compute. discriminate.
Defined.

End CsvOfRun.
